(** * Digital bookshelf: the authentication core of [server.js]

    A shallow embedding of the Express server of the repository
    ([src/server.js]; [src/unnamed/part_000] is the same server with the
    handlers written on one line each) and the properties of its
    authentication and book-collection endpoints, with the AI proxies
    up to the request they send to the provider.  The in-memory variants
    of the routes are prototypes; of these, the two serverless handlers
    ([src/unnamed/part_002] and [src/api/login.js]) are embedded as
    well.

    Conventions of the embedding.
    - A JavaScript string is a [string]; each character stands for one
      code unit (the model covers the code units 0..255).
    - A request field is a JSON string or absent ([option string]), as the
      data model of the specification has it.
    - A response is a status code and a JSON body, built with the same
      object literals as the handlers.
    - The collection [User] is the list of its documents in the order the
      store yields them; [findOne] returns the first match.
    - The libraries the server calls (jsonwebtoken, bcryptjs, the wire
      encoding of a token) are collaborators: section variables where
      their result cannot be computed, definitions where the handlers rely
      on what they compute (the expiry stamp of a token, the setters,
      validators and unique indexes the schema declares). *)

From Stdlib Require Import String Ascii List ZArith Bool Lia.
Import ListNotations.

Set Warnings "-register-all".
Set Default Proof Using "Type".

Local Open Scope string_scope.
Local Open Scope list_scope.

(** ** JavaScript strings *)

Module JsString.

(** The code units that [\s] and [String.prototype.trim] treat as white
    space, among 0..255: TAB, LF, VT, FF, CR, SPACE and NBSP. *)
Definition is_space (c : ascii) : bool :=
  let n := nat_of_ascii c in
  (Nat.leb 9 n && Nat.leb n 13) || Nat.eqb n 32 || Nat.eqb n 160.

(** [s.split(sep)] for a one-character separator. *)
Fixpoint split (sep : ascii) (s : string) : list string :=
  match s with
  | EmptyString => [EmptyString]
  | String c rest =>
      if Ascii.eqb c sep then EmptyString :: split sep rest
      else match split sep rest with
           | piece :: pieces => String c piece :: pieces
           | [] => [String c EmptyString]
           end
  end.

Fixpoint trimStart (s : string) : string :=
  match s with
  | EmptyString => EmptyString
  | String c rest => if is_space c then trimStart rest else s
  end.

Fixpoint trimEnd (s : string) : string :=
  match s with
  | EmptyString => EmptyString
  | String c rest =>
      match trimEnd rest with
      | EmptyString => if is_space c then EmptyString else String c EmptyString
      | kept => String c kept
      end
  end.

(** [s.trim()] *)
Definition trim (s : string) : string := trimEnd (trimStart s).

(** Lower-casing of one code unit: A-Z, and the Latin-1 capitals
    U+00C0..U+00DE except the multiplication sign U+00D7. *)
Definition lower_char (c : ascii) : ascii :=
  let n := nat_of_ascii c in
  if (Nat.leb 65 n && Nat.leb n 90)
     || (Nat.leb 192 n && Nat.leb n 222 && negb (Nat.eqb n 215))
  then ascii_of_nat (n + 32) else c.

(** [s.toLowerCase()] *)
Fixpoint toLowerCase (s : string) : string :=
  match s with
  | EmptyString => EmptyString
  | String c rest => String (lower_char c) (toLowerCase rest)
  end.

(** Truthiness of a value that is a string or [undefined]: [!v] is
    [negb (truthy v)]. *)
Definition truthy (v : option string) : bool :=
  match v with
  | None => false
  | Some EmptyString => false
  | Some _ => true
  end.

Fixpoint has_char (c : ascii) (s : string) : bool :=
  match s with
  | EmptyString => false
  | String d rest => Ascii.eqb d c || has_char c rest
  end.

Fixpoint all_chars (p : ascii -> bool) (s : string) : bool :=
  match s with
  | EmptyString => true
  | String c rest => p c && all_chars p rest
  end.

End JsString.

(** ** Regular expressions

    The one pattern of the server is anchored at both ends and uses
    character classes, concatenation and [+]; it is matched by
    derivatives. *)

Module Regex.

Inductive regex : Type :=
| Void                                  (* matches nothing *)
| Eps                                   (* the empty string *)
| Class (p : ascii -> bool)             (* one character of a class *)
| Seq (r1 r2 : regex)
| Alt (r1 r2 : regex)
| Star (r : regex).

Definition Lit (c : ascii) : regex := Class (Ascii.eqb c).
Definition Plus (r : regex) : regex := Seq r (Star r).

Fixpoint nullable (r : regex) : bool :=
  match r with
  | Void => false
  | Eps => true
  | Class _ => false
  | Seq r1 r2 => nullable r1 && nullable r2
  | Alt r1 r2 => nullable r1 || nullable r2
  | Star _ => true
  end.

Fixpoint deriv (c : ascii) (r : regex) : regex :=
  match r with
  | Void => Void
  | Eps => Void
  | Class p => if p c then Eps else Void
  | Seq r1 r2 =>
      if nullable r1 then Alt (Seq (deriv c r1) r2) (deriv c r2)
      else Seq (deriv c r1) r2
  | Alt r1 r2 => Alt (deriv c r1) (deriv c r2)
  | Star r1 => Seq (deriv c r1) (Star r1)
  end.

(** [/^r$/.test(s)] *)
Fixpoint test (r : regex) (s : string) : bool :=
  match s with
  | EmptyString => nullable r
  | String c rest => test (deriv c r) rest
  end.

(** The language of a pattern, for the correctness of [test]. *)
Inductive lang : regex -> string -> Prop :=
| lang_eps : lang Eps EmptyString
| lang_class p c : p c = true -> lang (Class p) (String c EmptyString)
| lang_seq r1 r2 s1 s2 : lang r1 s1 -> lang r2 s2 -> lang (Seq r1 r2) (s1 ++ s2)
| lang_alt_l r1 r2 s : lang r1 s -> lang (Alt r1 r2) s
| lang_alt_r r1 r2 s : lang r2 s -> lang (Alt r1 r2) s
| lang_star_nil r : lang (Star r) EmptyString
| lang_star_cons r s1 s2 :
    lang r s1 -> lang (Star r) s2 -> lang (Star r) (s1 ++ s2).

End Regex.

(** ** JSON values and responses *)

Inductive Json : Type :=
| JNull
| JBool (b : bool)
| JNum (n : Z)
| JStr (s : string)
| JArr (items : list Json)
| JObj (members : list (string * Json)).

(** Does the key [k] occur as a member name anywhere in the value? *)
Fixpoint mentions_key (k : string) (j : Json) : bool :=
  match j with
  | JArr items => existsb (mentions_key k) items
  | JObj members =>
      existsb (fun m => String.eqb k (fst m) || mentions_key k (snd m)) members
  | _ => false
  end.

(** [obj.key] on a JSON object. *)
Definition member (k : string) (j : Json) : option Json :=
  match j with
  | JObj members =>
      match find (fun m => String.eqb k (fst m)) members with
      | Some m => Some (snd m)
      | None => None
      end
  | _ => None
  end.

Record Response : Type := mkResponse { status : Z; body : Json }.

(** [res.status(code).json({ error: msg })] *)
Definition error_response (code : Z) (msg : string) : Response :=
  mkResponse code (JObj [("error", JStr msg)]).

(** [res.json(value)]: the status defaults to 200. *)
Definition json_response (value : Json) : Response := mkResponse 200 value.

(** ** The [User] model

    [userSchema] of [server.js], lines 45-84.  Documents are kept as the
    schema casts them; the [createdAt] and [updatedAt] stamps play no part
    in the handlers and are left out. *)

Definition ObjectId : Type := string.

Module BookEntry.
(** An entry of one of the three arrays.  The nine paths of the schema;
    [dateAdded] has a default and is always there once cast, and is
    carried in its JSON text form. *)
Record t : Type := mk {
  title : option string;
  author : option string;
  genre : option string;
  pages : option Z;
  currentPage : option Z;
  notes : option string;
  progress : option Z;
  color : option string;
  dateAdded : string
}.
End BookEntry.

Module Books.
(** The nested path [books].  The store keeps what an update sets, so a
    member may be missing from a document and each array is optional;
    a document is read as it is stored. *)
Record t : Type := mk {
  read : option (list BookEntry.t);
  unread : option (list BookEntry.t);
  wishlist : option (list BookEntry.t)
}.

(** [{ read: [], unread: [], wishlist: [] }] *)
Definition empty : t := mk (Some []) (Some []) (Some []).

End Books.

Module User.
Record t : Type := mk {
  _id : ObjectId;
  username : string;
  email : string;
  password : string;         (* the bcrypt digest *)
  books : Books.t
}.

Definition set_books (b : Books.t) (u : t) : t :=
  mk (_id u) (username u) (email u) (password u) b.

Definition set_password (digest : string) (u : t) : t :=
  mk (_id u) (username u) (email u) digest (books u).
End User.

(** The collection, in the order the store yields its documents. *)
Definition Store : Type := list User.t.

(** *** Setters, validators and indexes declared by the schema *)

(** [new User({ username, email, password, books })]: the setters of the
    schema run on assignment ([trim] on [username]; [trim] and
    [lowercase] on [email]). *)
Definition new_User (oid : ObjectId) (username email password : string)
    (books : Books.t) : User.t :=
  User.mk oid (JsString.trim username)
          (JsString.toLowerCase (JsString.trim email)) password books.

(** The value a filter on [username] or [email] is compared with.
    [runSettersOnQuery] tells whether the setters also run on filters
    (they do in mongoose 5 and later; earlier versions had it as an
    option, off by default). *)
Definition cast_username (runSettersOnQuery : bool) (v : string) : string :=
  if runSettersOnQuery then JsString.trim v else v.

Definition cast_email (runSettersOnQuery : bool) (v : string) : string :=
  if runSettersOnQuery then JsString.toLowerCase (JsString.trim v) else v.

(** [required: true] on the three strings and [minlength: 6] on
    [password], checked by [save] before the insert. *)
Definition validate (doc : User.t) : bool :=
  negb (String.eqb (User.username doc) "")
  && negb (String.eqb (User.email doc) "")
  && negb (String.eqb (User.password doc) "")
  && Nat.leb 6 (String.length (User.password doc)).

Inductive SaveError : Type :=
| ValidationError                       (* no [code] *)
| DuplicateKey (keyPattern : string).   (* [code] 11000, the index hit *)

(** [user.save()]: validation, then the insert under the unique indexes
    on [_id], [username] and [email]. *)
Definition save (db : Store) (doc : User.t) : SaveError + Store :=
  if negb (validate doc) then inl ValidationError
  else if existsb (fun u => String.eqb (User._id u) (User._id doc)) db
  then inl (DuplicateKey "_id")
  else if existsb (fun u => String.eqb (User.username u) (User.username doc)) db
  then inl (DuplicateKey "username")
  else if existsb (fun u => String.eqb (User.email u) (User.email doc)) db
  then inl (DuplicateKey "email")
  else inr (db ++ [doc]).

(** [User.findOne(filter)] *)
Definition findOne (filter : User.t -> bool) (db : Store) : option User.t :=
  find filter db.

(** [User.findById(id)]; an [undefined] id finds nothing.  Ids are
    well-formed, so the cast of the filter never throws. *)
Definition findById (db : Store) (id : option ObjectId) : option User.t :=
  match id with
  | Some i => findOne (fun u => String.eqb (User._id u) i) db
  | None => None
  end.

(** [User.findByIdAndUpdate(id, { books })]: the first document with this
    id gets the new [books]; no document, no change. *)
Fixpoint findByIdAndUpdate (id : ObjectId) (books : Books.t) (db : Store)
  : Store :=
  match db with
  | [] => []
  | u :: rest =>
      if String.eqb (User._id u) id then User.set_books books u :: rest
      else u :: findByIdAndUpdate id books rest
  end.

(** *** JSON views *)

Definition opt_member {A : Type} (k : string) (render : A -> Json)
    (v : option A) : list (string * Json) :=
  match v with
  | Some x => [(k, render x)]
  | None => []
  end.

Definition book_json (b : BookEntry.t) : Json :=
  JObj (opt_member "title" JStr (BookEntry.title b)
        ++ opt_member "author" JStr (BookEntry.author b)
        ++ opt_member "genre" JStr (BookEntry.genre b)
        ++ opt_member "pages" JNum (BookEntry.pages b)
        ++ opt_member "currentPage" JNum (BookEntry.currentPage b)
        ++ opt_member "notes" JStr (BookEntry.notes b)
        ++ opt_member "progress" JNum (BookEntry.progress b)
        ++ opt_member "color" JStr (BookEntry.color b)
        ++ [("dateAdded", JStr (BookEntry.dateAdded b))]).

Definition shelf_json (entries : list BookEntry.t) : Json :=
  JArr (map book_json entries).

(** [user.books] as [res.json] sends it. *)
Definition books_json (b : Books.t) : Json :=
  JObj (opt_member "read" shelf_json (Books.read b)
        ++ opt_member "unread" shelf_json (Books.unread b)
        ++ opt_member "wishlist" shelf_json (Books.wishlist b)).






(** [{ id: user._id, username: user.username, email: user.email }] *)
Definition public_user (user : User.t) : Json :=
  JObj [("id", JStr (User._id user));
        ("username", JStr (User.username user));
        ("email", JStr (User.email user))].

(** ** Tokens (jsonwebtoken)

    A token is modelled decoded: its payload and the secret its signature
    verifies under.  Times are in milliseconds, as [Date.now()] gives
    them; the stamps of a token are in whole seconds. *)

Module Jwt.
Record payload : Type := mkPayload {
  userId : option ObjectId;
  iat : Z;
  exp : option Z
}.

Record t : Type := mk { claims : payload; key : string }.

Inductive error : Type :=
| JsonWebTokenError     (* malformed token or invalid signature *)
| TokenExpiredError.

(** [Math.floor(Date.now() / 1000)] *)
Definition clock (now : Z) : Z := (now / 1000)%Z.

(** The span ['<n>d'] in seconds. *)
Definition days (n : Z) : Z := (n * 24 * 60 * 60)%Z.

(** [jwt.sign({ userId }, secret, { expiresIn })]: [iat] is the clock,
    [exp] is [iat] plus the span. *)
Definition sign (uid : ObjectId) (secret : string) (expiresIn : Z)
    (now : Z) : t :=
  let timestamp := clock now in
  mk (mkPayload (Some uid) timestamp (Some (timestamp + expiresIn)%Z)) secret.

(** The checks of [jwt.verify] on a decoded token: the signature, then
    [clockTimestamp >= payload.exp]; [exp] is the second on or after
    which a token is refused (RFC 7519, section 4.1.4). *)
Definition check (token : t) (secret : string) (now : Z) : error + payload :=
  if negb (String.eqb (key token) secret) then inl JsonWebTokenError
  else match exp (claims token) with
       | Some e =>
           if (e <=? clock now)%Z then inl TokenExpiredError
           else inr (claims token)
       | None => inr (claims token)
       end.

(** [jwt.verify(token, secret)] on the wire form, [decode] being the
    parser of the compact serialisation. *)
Definition verify (decode : string -> option t) (token secret : string)
    (now : Z) : error + payload :=
  match decode token with
  | None => inl JsonWebTokenError
  | Some t => check t secret now
  end.
End Jwt.

(** ** Helper of the routes *)

(** [[^\s@]] *)
Definition not_space_or_at (c : ascii) : bool :=
  negb (JsString.is_space c) && negb (Ascii.eqb c "@").

(** [/^[^\s@]+@[^\s@]+\.[^\s@]+$/] *)
Definition emailRegex : Regex.regex :=
  Regex.Seq (Regex.Plus (Regex.Class not_space_or_at))
    (Regex.Seq (Regex.Lit "@")
       (Regex.Seq (Regex.Plus (Regex.Class not_space_or_at))
          (Regex.Seq (Regex.Lit ".")
             (Regex.Plus (Regex.Class not_space_or_at))))).

Definition isValidEmail (email : string) : bool := Regex.test emailRegex email.

(** The shape [local@domain.tld] in the words of the specification: three
    non-empty parts without white space or [@], joined by [@] and a
    dot. *)
Definition email_shape (email : string) : Prop :=
  exists local domain tld : string,
    email = (local ++ "@" ++ domain ++ "." ++ tld)%string
    /\ local <> "" /\ domain <> "" /\ tld <> ""
    /\ JsString.all_chars not_space_or_at local = true
    /\ JsString.all_chars not_space_or_at domain = true
    /\ JsString.all_chars not_space_or_at tld = true.

(** [v || fallback] for a value that is a string or [undefined]. *)
Definition or_else (v : option string) (fallback : string) : string :=
  match v with
  | Some (String c rest) => String c rest
  | _ => fallback
  end.

(** The outcome of the middleware: a response sent without calling
    [next], or [req.user] set and [next()] called. *)
Inductive Gate : Type :=
| Rejected (res : Response)
| Next (user : User.t).

(** The member [books] of the body of [PUT /api/books], by the cases the
    handler tells apart: a falsy value ([undefined], [null], [false], [0],
    the empty string), a truthy value that is no object, and an object,
    of which the schema keeps the members [read], [unread] and [wishlist]
    that it has. *)
Inductive BooksInput : Type :=
| BooksFalsy
| BooksNotObject
| BooksObject (books : Books.t).

(** ** The server *)

Section Server.

(** [process.env.JWT_SECRET] *)
Variable JWT_SECRET : option string.
(** The compact serialisation of a token and its parser. *)
Variable jwt_encode : Jwt.t -> string.
Variable jwt_decode : string -> option Jwt.t.
(** [bcrypt.hash(password, rounds)] with the salt it draws, and
    [bcrypt.compare(password, digest)]. *)
Variable bcrypt_hash : string -> nat -> string -> string.
Variable bcrypt_compare : string -> string -> bool.
Variable runSettersOnQuery : bool.

(** [process.env.JWT_SECRET || 'your-secret-key'] *)
Definition secret : string := or_else JWT_SECRET "your-secret-key".

(** [authHeader && authHeader.split(' ')[1]] *)
Definition header_token (authHeader : option string) : option string :=
  if JsString.truthy authHeader
  then match authHeader with
       | Some h => nth_error (JsString.split " " h) 1
       | None => None
       end
  else authHeader.

(** [authenticateToken], lines 89-110. *)
Definition authenticateToken (db : Store) (now : Z)
    (authorization : option string) : Gate :=
  let authHeader := authorization in
  let token := header_token authHeader in
  if negb (JsString.truthy token)
  then Rejected (error_response 401 "Access token required")
  else
    match Jwt.verify jwt_decode (or_else token "") secret now with
    | inr decoded =>
        match findById db (Jwt.userId decoded) with
        | None => Rejected (error_response 403 "User not found")
        | Some user => Next user
        end
    | inl _ => Rejected (error_response 403 "Invalid or expired token")
    end.

(** A route registered as [app.METHOD(path, authenticateToken, handler)]:
    the handler runs only when the middleware calls [next]. *)
Definition protected (db : Store) (now : Z) (authorization : option string)
    (handler : User.t -> Response * Store) : Response * Store :=
  match authenticateToken db now authorization with
  | Rejected res => (res, db)
  | Next user => handler user
  end.

(** [jwt.sign({ userId: user._id }, secret, { expiresIn: '7d' })] *)
Definition issue_token (user : User.t) (now : Z) : Jwt.t :=
  Jwt.sign (User._id user) secret (Jwt.days 7) now.

(** The filter [{ $or: [{ email }, { username }] }] of the
    registration, and [{ $or: [{ username: usernameOrEmail },
    { email: usernameOrEmail }] }] of the login. *)
Definition email_or_username (email username : string) (u : User.t) : bool :=
  String.eqb (User.email u) (cast_email runSettersOnQuery email)
  || String.eqb (User.username u) (cast_username runSettersOnQuery username).

Definition username_or_email (usernameOrEmail : string) (u : User.t) : bool :=
  String.eqb (User.username u) (cast_username runSettersOnQuery usernameOrEmail)
  || String.eqb (User.email u) (cast_email runSettersOnQuery usernameOrEmail).

(** *** [POST /api/register], lines 121-196 *)

(** Lines 123-154: the validation and the lookup of an existing user.
    [inl] is a response sent; [inr] carries the three strings on. *)
Definition register_check (db : Store)
    (username email password : option string)
  : Response + (string * string * string) :=
  if negb (JsString.truthy username) || negb (JsString.truthy email)
     || negb (JsString.truthy password)
  then inl (error_response 400 "All fields are required")
  else
    let username := or_else username "" in
    let email := or_else email "" in
    let password := or_else password "" in
    if Nat.ltb (String.length username) 3
    then inl (error_response 400 "Username must be at least 3 characters")
    else if negb (isValidEmail email)
    then inl (error_response 400 "Please enter a valid email address")
    else if Nat.ltb (String.length password) 6
    then inl (error_response 400 "Password must be at least 6 characters")
    else
      let existingUser := findOne (email_or_username email username) db in
      match existingUser with
      | Some existingUser =>
          if String.eqb (User.email existingUser) email
          then inl (error_response 400 "Email already exists")
          else if String.eqb (User.username existingUser) username
          then inl (error_response 400 "Username already exists")
          else inr (username, email, password)
      | None => inr (username, email, password)
      end.

(** Lines 156-195: hashing, [save], the token and the response, with
    the [catch] clause.  [oid] is the id [new User] draws, [salt] the
    salt [bcrypt.hash] draws. *)
Definition register_insert (db : Store) (now : Z) (oid : ObjectId)
    (salt : string) (username email password : string)
  : Response * Store :=
  let hashedPassword := bcrypt_hash password 10 salt in
  let user := new_User oid username email hashedPassword Books.empty in
  match save db user with
  | inr db' =>
      let token := jwt_encode (issue_token user now) in
      (mkResponse 201
         (JObj [("message", JStr "User created successfully");
                ("token", JStr token);
                ("user", public_user user)]),
       db')
  | inl (DuplicateKey field) =>
      (error_response 400 (field ++ " already exists")%string, db)
  | inl ValidationError =>
      (error_response 500 "Server error during registration", db)
  end.

(** The handler when other requests may be served between its lookup
    and its insert: the lookup sees [db], the insert [db']. *)
Definition register_interleaved (db db' : Store) (now : Z) (oid : ObjectId)
    (salt : string) (username email password : option string)
  : Response * Store :=
  match register_check db username email password with
  | inl res => (res, db')
  | inr (username, email, password) =>
      register_insert db' now oid salt username email password
  end.

(** The handler served alone. *)
Definition register (db : Store) (now : Z) (oid : ObjectId) (salt : string)
    (username email password : option string) : Response * Store :=
  register_interleaved db db now oid salt username email password.

(** *** [POST /api/login], lines 199-245 *)

Definition login (db : Store) (now : Z)
    (usernameOrEmail password : option string) : Response :=
  if negb (JsString.truthy usernameOrEmail) || negb (JsString.truthy password)
  then error_response 400 "Username/email and password are required"
  else
    let usernameOrEmail := or_else usernameOrEmail "" in
    let password := or_else password "" in
    let user := findOne (username_or_email usernameOrEmail) db in
    match user with
    | None => error_response 400 "Invalid credentials"
    | Some user =>
        let isValidPassword := bcrypt_compare password (User.password user) in
        if negb isValidPassword
        then error_response 400 "Invalid credentials"
        else
          let token := jwt_encode (issue_token user now) in
          json_response
            (JObj [("message", JStr "Login successful");
                   ("token", JStr token);
                   ("user", public_user user)])
    end.

(** *** [GET /api/books], lines 248-256 *)

Definition get_books (db : Store) (req_user : User.t) : Response :=
  match findById db (Some (User._id req_user)) with
  | Some user => json_response (books_json (User.books user))
  | None => error_response 500 "Error fetching books"
  end.

(** *** [PUT /api/books], lines 259-274 *)

Definition put_books (db : Store) (req_user : User.t) (books : BooksInput)
  : Response * Store :=
  match books with
  | BooksFalsy | BooksNotObject =>
      (error_response 400 "Invalid books data", db)
  | BooksObject books =>
      (json_response (JObj [("message", JStr "Books updated successfully")]),
       findByIdAndUpdate (User._id req_user) books db)
  end.

(** *** [GET /api/verify], lines 397-405 *)

Definition verify (req_user : User.t) : Response :=
  json_response (JObj [("user", public_user req_user)]).

(** *** Requests and runs of the server *)

Inductive Request : Type :=
| PostRegister (oid : ObjectId) (salt : string)
               (username email password : option string)
| PostLogin (usernameOrEmail password : option string)
| GetBooks (authorization : option string)
| PutBooks (authorization : option string) (books : BooksInput)
| GetVerify (authorization : option string).

(** One request served at time [now] on the store [db]. *)
Definition handle (db : Store) (now : Z) (req : Request) : Response * Store :=
  match req with
  | PostRegister oid salt username email password =>
      register db now oid salt username email password
  | PostLogin usernameOrEmail password =>
      (login db now usernameOrEmail password, db)
  | GetBooks authorization =>
      protected db now authorization (fun user => (get_books db user, db))
  | PutBooks authorization books =>
      protected db now authorization (fun user => put_books db user books)
  | GetVerify authorization =>
      protected db now authorization (fun user => (verify user, db))
  end.

(** The store after a sequence of timed requests. *)
Fixpoint run (db : Store) (reqs : list (Z * Request)) : Store :=
  match reqs with
  | [] => db
  | (now, req) :: rest => run (snd (handle db now req)) rest
  end.


End Server.

(** ** The AI proxies

    [POST /api/ai-summary] (lines 276-320) and
    [POST /api/ai-recommendations] (lines 322-394), up to the request
    they send to the provider: a handler answers by itself, or calls
    [fetch] with a URL and a JSON body.  What the handlers make of the
    reply of the provider is not part of the model. *)

(** The arguments of [fetch(apiUrl, { method: 'POST', headers, body:
    JSON.stringify(payload) })]. *)
Record UpstreamCall : Type := mkUpstreamCall { apiUrl : string; payload : Json }.

Inductive Outcome : Type :=
| Answered (res : Response)
| Fetch (call : UpstreamCall).

(** The double quote, for the texts that hold one. *)
Definition dq : string := String (ascii_of_nat 34) "".

Definition quoted (s : string) : string := (dq ++ s ++ dq)%string.

Definition generateContent (apiKey : string) : string :=
  ("https://generativelanguage.googleapis.com/v1beta/models/gemini-2.0-flash-exp:generateContent?key="
   ++ apiKey)%string.

(** [chatHistory] after [chatHistory.push({ role: "user", parts: [{ text:
    prompt }] })]. *)
Definition chatHistory (prompt : string) : Json :=
  JArr [JObj [("role", JStr "user");
              ("parts", JArr [JObj [("text", JStr prompt)]])]].

(** The template of line 285. *)
Definition summary_prompt (title author : string) : string :=
  ("Provide a concise, 1-2 sentence summary of the book '" ++ title
   ++ "' by " ++ author
   ++ ". The summary should be objective and neutral.")%string.

(** One line of the example of lines 336-337. *)
Definition example_line (title author genre overview : string) : string :=
  ("      { " ++ quoted "title" ++ ": " ++ quoted title
   ++ ", " ++ quoted "author" ++ ": " ++ quoted author
   ++ ", " ++ quoted "genre" ++ ": " ++ quoted genre
   ++ ", " ++ quoted "overview" ++ ": " ++ quoted overview ++ " }")%string.

(** The template of lines 332-340; [uniqueId] is the text of the number
    [Math.random()] drew. *)
Definition recommendations_prompt (genre uniqueId : string) : string :=
  ("Provide 3 book recommendations in the " ++ genre
   ++ " genre. The recommendations should be returned as a JSON array of objects. Each object should have 'title', 'author', 'genre' and 'overview' keys. The overview should be a short, one-sentence summary.
    
    Example: 
    [
"
   ++ example_line "The Hitchhiker's Guide to the Galaxy" "Douglas Adams"
        "Science Fiction"
        "A man survives the destruction of Earth and embarks on an interstellar adventure with an alien friend."
   ++ ",
"
   ++ example_line "Dune" "Frank Herbert" "Science Fiction"
        "A noble family is entrusted with the planet Arrakis, the only source of the most valuable substance in the universe."
   ++ "
    ]
    
    // Unique ID: " ++ uniqueId)%string.

(** [generationConfig] of lines 347-362. *)
Definition generationConfig : Json :=
  JObj [("responseMimeType", JStr "application/json");
        ("responseSchema",
         JObj [("type", JStr "ARRAY");
               ("items",
                JObj [("type", JStr "OBJECT");
                      ("properties",
                       JObj [("title", JObj [("type", JStr "STRING")]);
                             ("author", JObj [("type", JStr "STRING")]);
                             ("genre", JObj [("type", JStr "STRING")]);
                             ("overview", JObj [("type", JStr "STRING")])]);
                      ("propertyOrdering",
                       JArr [JStr "title"; JStr "author"; JStr "genre";
                             JStr "overview"])])])].

Section AiProxy.

Variable JWT_SECRET : option string.
Variable jwt_decode : string -> option Jwt.t.
(** [process.env.GEMINI_API_KEY] *)
Variable GEMINI_API_KEY : option string.

(** The handler of [/api/ai-summary], lines 279-302. *)
Definition ai_summary (title author : option string) : Outcome :=
  if negb (JsString.truthy title) || negb (JsString.truthy author)
  then Answered (error_response 400 "Title and author are required")
  else
    let prompt := summary_prompt (or_else title "") (or_else author "") in
    let payload := JObj [("contents", chatHistory prompt)] in
    let apiKey := GEMINI_API_KEY in
    if negb (JsString.truthy apiKey)
    then Answered (error_response 500 "AI service is not configured")
    else Fetch (mkUpstreamCall (generateContent (or_else apiKey "")) payload).

(** The handler of [/api/ai-recommendations], lines 325-376. *)
Definition ai_recommendations (uniqueId : string) (genre : option string)
  : Outcome :=
  if negb (JsString.truthy genre)
  then Answered (error_response 400 "Genre is required")
  else
    let prompt := recommendations_prompt (or_else genre "") uniqueId in
    let payload := JObj [("contents", chatHistory prompt);
                         ("generationConfig", generationConfig)] in
    let apiKey := GEMINI_API_KEY in
    if negb (JsString.truthy apiKey)
    then Answered (error_response 500 "AI service is not configured")
    else Fetch (mkUpstreamCall (generateContent (or_else apiKey "")) payload).

(** The two routes behind [authenticateToken]. *)
Definition proxied (db : Store) (now : Z) (authorization : option string)
    (handler : User.t -> Outcome) : Outcome :=
  match authenticateToken JWT_SECRET jwt_decode db now authorization with
  | Rejected res => Answered res
  | Next user => handler user
  end.

Definition post_ai_summary (db : Store) (now : Z)
    (authorization title author : option string) : Outcome :=
  proxied db now authorization (fun _ => ai_summary title author).

Definition post_ai_recommendations (db : Store) (now : Z)
    (authorization : option string) (uniqueId : string)
    (genre : option string) : Outcome :=
  proxied db now authorization (fun _ => ai_recommendations uniqueId genre).

End AiProxy.

(** ** The serverless handlers

    [src/unnamed/part_002] (the registration) and [src/api/login.js] (the
    login) are two functions, each with an array [users] of its own that
    lives as long as the module; the model is the [try] block each
    runs on a [POST] request.  [jwt.sign] throws when it is given no
    secret, which the [catch] clause turns into a 500. *)

Module Serverless.

Module Account.
Record t : Type := mk {
  id : Z;
  username : string;
  email : string;
  password : string;         (* the bcrypt digest *)
  createdAt : string
}.
End Account.

Definition Users : Type := list Account.t.

(** [{ id: user.id, username: user.username, email: user.email }] *)
Definition public_user (u : Account.t) : Json :=
  JObj [("id", JNum (Account.id u)); ("username", JStr (Account.username u));
        ("email", JStr (Account.email u))].

(** [{ id: user.id, email: user.email, username: user.username }], the
    payload of the token. *)
Definition token_payload (u : Account.t) : Json :=
  JObj [("id", JNum (Account.id u)); ("email", JStr (Account.email u));
        ("username", JStr (Account.username u))].

Section Handlers.

(** [process.env.JWT_SECRET]; there is no fallback here. *)
Variable JWT_SECRET : option string.
(** [jwt.sign(payload, secret, { expiresIn })] at a time, for a secret
    that is there. *)
Variable jwt_sign : Json -> string -> Z -> Z -> string.
Variable bcrypt_hash : string -> nat -> string -> string.
Variable bcrypt_compare : string -> string -> bool.

(** [jwt.sign(payload, process.env.JWT_SECRET, { expiresIn: '7d' })];
    [None] when it throws. *)
Definition sign (u : Account.t) (now : Z) : option string :=
  if JsString.truthy JWT_SECRET
  then Some (jwt_sign (token_payload u) (or_else JWT_SECRET "") (Jwt.days 7) now)
  else None.

(** [part_002], lines 29-78.  [createdAt] is the text of the date the
    handler reads, [salt] the salt [bcrypt.hash] draws. *)
Definition register (users : Users) (now : Z) (createdAt salt : string)
    (username email password : option string) : Response * Users :=
  if negb (JsString.truthy username) || negb (JsString.truthy email)
     || negb (JsString.truthy password)
  then (error_response 400 "Missing fields", users)
  else
    let username := or_else username "" in
    let email := or_else email "" in
    let password := or_else password "" in
    if Nat.ltb (String.length password) 6
    then (error_response 400 "Password must be at least 6 characters", users)
    else
      match find (fun u => String.eqb (Account.email u) email) users with
      | Some _ => (error_response 400 "Email already registered", users)
      | None =>
          match find (fun u => String.eqb (Account.username u) username)
                     users with
          | Some _ => (error_response 400 "Username already taken", users)
          | None =>
              let hashedPassword := bcrypt_hash password 12 salt in
              let user := Account.mk (Z.of_nat (List.length users) + 1) username
                                 email hashedPassword createdAt in
              let users := users ++ [user] in
              match sign user now with
              | Some token =>
                  (mkResponse 201
                     (JObj [("user",
                             JObj [("id", JNum (Account.id user));
                                   ("username", JStr username);
                                   ("email", JStr email)]);
                            ("token", JStr token)]),
                   users)
              | None => (error_response 500 "Internal server error", users)
              end
          end
      end.

(** [login.js], lines 29-66.  The handler reads [users] and leaves it
    as it is. *)
Definition login (users : Users) (now : Z)
    (usernameOrEmail password : option string) : Response * Users :=
  if negb (JsString.truthy usernameOrEmail) || negb (JsString.truthy password)
  then (error_response 400 "Missing credentials", users)
  else
    let usernameOrEmail := or_else usernameOrEmail "" in
    let password := or_else password "" in
    match find (fun u => String.eqb (Account.email u) usernameOrEmail
                         || String.eqb (Account.username u) usernameOrEmail)
               users with
    | None => (error_response 401 "Invalid credentials", users)
    | Some user =>
        let isValidPassword :=
          bcrypt_compare password (Account.password user) in
        if negb isValidPassword
        then (error_response 401 "Invalid credentials", users)
        else
          match sign user now with
          | Some token =>
              (mkResponse 200
                 (JObj [("user", public_user user); ("token", JStr token)]),
               users)
          | None => (error_response 500 "Internal server error", users)
          end
    end.

(** The [POST] requests a function is sent, with what the handler draws
    while it serves one. *)
Record Signup : Type := mkSignup {
  at_time : Z;
  date : string;
  salt : string;
  signup_username : option string;
  signup_email : option string;
  signup_password : option string
}.


(** A module serves its requests one after the other, from the array it
    was loaded with: the final array and the responses sent. *)
Fixpoint serve {Req : Type} (handler : Users -> Req -> Response * Users)
    (users : Users) (reqs : list Req) : list Response * Users :=
  match reqs with
  | [] => ([], users)
  | req :: rest =>
      let (res, users') := handler users req in
      let (sent, final) := serve handler users' rest in
      (res :: sent, final)
  end.

Definition register_handler (users : Users) (req : Signup)
  : Response * Users :=
  register users (at_time req) (date req) (salt req) (signup_username req)
           (signup_email req) (signup_password req).


(** [let users = [];] at the load of each module. *)
Definition loaded : Users := [].

End Handlers.

End Serverless.

(** ** The in-memory applications

    [src/unnamed/part_001] is an Express application that keeps its users
    in an array, with bcrypt digests and tokens that last an hour;
    [src/api/index.js] is the same application without digests, with one
    constant for a token. *)

Module InMemory.

Module Account.
Record t : Type := mk {
  id : Z;
  username : string;
  email : string;
  password : string          (* the bcrypt digest *)
}.
End Account.

Definition Users : Type := list Account.t.

(** A token, decoded: the payload [{ id, email }] with the stamps
    [jwt.sign] adds, and the secret its signature verifies under. *)
Module Token.
Record t : Type := mk {
  id : Z;
  email : string;
  iat : Z;
  exp : Z;
  key : string
}.
End Token.

(** The span ['1h'] in seconds. *)
Definition hour : Z := 3600.

(** [decoded], as [res.json] sends it. *)
Definition decoded_json (t : Token.t) : Json :=
  JObj [("id", JNum (Token.id t)); ("email", JStr (Token.email t));
        ("iat", JNum (Token.iat t)); ("exp", JNum (Token.exp t))].

Section App.

(** [process.env.JWT_SECRET] *)
Variable env_JWT_SECRET : option string.
Variable jwt_encode : Token.t -> string.
Variable jwt_decode : string -> option Token.t.
Variable bcrypt_hash : string -> nat -> string -> string.
Variable bcrypt_compare : string -> string -> bool.

(** [process.env.JWT_SECRET || "supersecretkey"], line 12. *)
Definition JWT_SECRET : string := or_else env_JWT_SECRET "supersecretkey".

(** [jwt.sign({ id: user.id, email: user.email }, JWT_SECRET,
    { expiresIn: '1h' })] *)
Definition sign (user : Account.t) (now : Z) : string :=
  let timestamp := Jwt.clock now in
  jwt_encode (Token.mk (Account.id user) (Account.email user) timestamp
                       (timestamp + hour)%Z JWT_SECRET).

(** [jwt.verify(token, JWT_SECRET)]; [None] when it throws: no token,
    a token that does not parse, another signature, or [exp] reached. *)
Definition jwt_verify (token : option string) (now : Z) : option Token.t :=
  if negb (JsString.truthy token) then None
  else
    match jwt_decode (or_else token "") with
    | None => None
    | Some t =>
        if negb (String.eqb (Token.key t) JWT_SECRET) then None
        else if (Token.exp t <=? Jwt.clock now)%Z then None
        else Some t
    end.

(** [POST /api/register], lines 25-41. *)
Definition register (users : Users) (now : Z) (salt : string)
    (username email password : option string) : Response * Users :=
  if negb (JsString.truthy username) || negb (JsString.truthy email)
     || negb (JsString.truthy password)
  then (error_response 400 "Missing fields", users)
  else
    let username := or_else username "" in
    let email := or_else email "" in
    let password := or_else password "" in
    match find (fun u => String.eqb (Account.email u) email) users with
    | Some _ => (error_response 400 "Email already registered", users)
    | None =>
        let hashed := bcrypt_hash password 10 salt in
        let user := Account.mk (Z.of_nat (List.length users) + 1) username
                               email hashed in
        let users := users ++ [user] in
        let token := sign user now in
        (json_response
           (JObj [("user", JObj [("id", JNum (Account.id user));
                                 ("username", JStr username);
                                 ("email", JStr email)]);
                  ("token", JStr token)]),
         users)
    end.

(** [u.email === usernameOrEmail || u.username === usernameOrEmail], for
    a field that is a string or absent. *)
Definition matches (usernameOrEmail : option string) (u : Account.t) : bool :=
  match usernameOrEmail with
  | Some s => String.eqb (Account.email u) s || String.eqb (Account.username u) s
  | None => false
  end.

(** [POST /api/login], lines 44-60.  There is no check that the fields
    are there: without a password [bcrypt.compare] rejects, the handler
    has no [catch], and it sends no response ([None]). *)
Definition login (users : Users) (now : Z)
    (usernameOrEmail password : option string) : option Response :=
  match find (matches usernameOrEmail) users with
  | None => Some (error_response 401 "Invalid credentials")
  | Some user =>
      match password with
      | None => None
      | Some password =>
          let valid := bcrypt_compare password (Account.password user) in
          if negb valid
          then Some (error_response 401 "Invalid credentials")
          else
            let token := sign user now in
            Some (json_response
                    (JObj [("user", JObj [("id", JNum (Account.id user));
                                          ("username",
                                           JStr (Account.username user));
                                          ("email", JStr (Account.email user))]);
                           ("token", JStr token)]))
      end
  end.

(** [GET /api/verify], lines 63-73. *)
Definition verify (now : Z) (authorization : option string) : Response :=
  let auth := authorization in
  if negb (JsString.truthy auth)
  then error_response 401 "Missing token"
  else
    match jwt_verify (nth_error (JsString.split " " (or_else auth "")) 1) now with
    | Some decoded =>
        json_response (JObj [("valid", JBool true);
                             ("user", decoded_json decoded)])
    | None => error_response 401 "Invalid token"
    end.

(** The registrations the application serves one after the other. *)
Fixpoint registrations (users : Users)
    (reqs : list (Z * string * option string * option string * option string))
  : Users :=
  match reqs with
  | [] => users
  | (now, salt, username, email, password) :: rest =>
      registrations (snd (register users now salt username email password)) rest
  end.

End App.

End InMemory.

(** [src/api/index.js]: no digest is kept, and the token is a
    constant. *)
Module Mock.

Module Account.
Record t : Type := mk { id : Z; username : string; email : string }.
End Account.

Definition Users : Type := list Account.t.

(** [{ user, token: 'fake-jwt-token' }] *)
Definition session (user : Account.t) : Response :=
  json_response
    (JObj [("user", JObj [("id", JNum (Account.id user));
                          ("username", JStr (Account.username user));
                          ("email", JStr (Account.email user))]);
           ("token", JStr "fake-jwt-token")]).

(** [POST /api/register], lines 14-25. *)
Definition register (users : Users) (username email password : option string)
  : Response * Users :=
  if negb (JsString.truthy username) || negb (JsString.truthy email)
     || negb (JsString.truthy password)
  then (error_response 400 "Missing fields", users)
  else
    let username := or_else username "" in
    let email := or_else email "" in
    match find (fun u => String.eqb (Account.email u) email) users with
    | Some _ => (error_response 400 "Email already registered", users)
    | None =>
        let user := Account.mk (Z.of_nat (List.length users) + 1) username email in
        (session user, users ++ [user])
    end.

Definition matches (usernameOrEmail : option string) (u : Account.t) : bool :=
  match usernameOrEmail with
  | Some s => String.eqb (Account.email u) s || String.eqb (Account.username u) s
  | None => false
  end.

(** [POST /api/login], lines 28-37: [password] is read off the body and
    not used. *)
Definition login (users : Users) (usernameOrEmail password : option string)
  : Response :=
  match find (matches usernameOrEmail) users with
  | None => error_response 401 "Invalid credentials"
  | Some user => session user
  end.

(** [GET /api/verify], lines 40-42. *)
Definition verify (authorization : option string) : Response :=
  json_response (JObj [("valid", JBool true)]).

End Mock.

(** ** Predicates on the collection *)

(** A document as [save] leaves it: the validators hold and the setters
    have run. *)
Definition well_stored (u : User.t) : Prop :=
  validate u = true
  /\ JsString.trim (User.username u) = User.username u
  /\ JsString.toLowerCase (JsString.trim (User.email u)) = User.email u.

(** The unique indexes on [username], [email] and [_id]. *)
Definition unique_usernames (db : Store) : Prop :=
  NoDup (map User.username db).

Definition unique_emails (db : Store) : Prop := NoDup (map User.email db).

Definition unique_ids (db : Store) : Prop := NoDup (map User._id db).

(** A collection as the server keeps it. *)
Definition store_ok (db : Store) : Prop :=
  (forall u, In u db -> well_stored u)
  /\ unique_usernames db /\ unique_emails db /\ unique_ids db.


(** A collection as the schema and the checks of the registration leave
    it: the three unique indexes; usernames trimmed and not empty;
    addresses lower-case and of the shape [isValidEmail] accepts; digests
    of six characters or more. *)
Definition schema_ok (db : Store) : Prop :=
  NoDup (map User.username db) /\ NoDup (map User.email db)
  /\ NoDup (map User._id db)
  /\ forall u, In u db ->
       JsString.trim (User.username u) = User.username u
       /\ User.username u <> ""
       /\ JsString.toLowerCase (User.email u) = User.email u
       /\ isValidEmail (User.email u) = true
       /\ 6 <= String.length (User.password u).

(** What identifies an account: all of a document but its [books]. *)
Definition identity (u : User.t) : ObjectId * string * string * string :=
  (User._id u, User.username u, User.email u, User.password u).

(** A pattern whose classes do not tell a letter from its lower-case
    form. *)
Fixpoint case_blind (r : Regex.regex) : Prop :=
  match r with
  | Regex.Class p => forall c, p (JsString.lower_char c) = p c
  | Regex.Seq r1 r2 | Regex.Alt r1 r2 => case_blind r1 /\ case_blind r2
  | Regex.Star r1 => case_blind r1
  | _ => True
  end.

(** The number of occurrences of a character. *)
Fixpoint count_char (c : ascii) (s : string) : nat :=
  match s with
  | EmptyString => 0
  | String d rest => (if Ascii.eqb d c then 1 else 0) + count_char c rest
  end.

(** The collection with every digest replaced, by [f]. *)
Definition rehash (f : User.t -> string) (db : Store) : Store :=
  map (fun u => User.set_password (f u) u) db.

(** The responses that report a duplicate: the two of the lookup before
    the insert, and the two the [catch] clause makes of a hit on the
    index [email] or [username]. *)
Definition is_duplicate_error (res : Response) : Prop :=
  res = error_response 400 "Email already exists"
  \/ res = error_response 400 "Username already exists"
  \/ res = error_response 400 "email already exists"
  \/ res = error_response 400 "username already exists".

(** The messages of the error responses of the modelled routes. *)
Definition error_messages : list string :=
  ["Access token required"; "Invalid or expired token"; "User not found";
   "All fields are required"; "Username must be at least 3 characters";
   "Please enter a valid email address";
   "Password must be at least 6 characters";
   "Email already exists"; "Username already exists";
   "_id already exists"; "username already exists"; "email already exists";
   "Server error during registration";
   "Username/email and password are required"; "Invalid credentials";
   "Error fetching books"; "Invalid books data"].

(** The bodies built from the public side of a user only: an error
    with one of the fixed messages, a bare message, the answer to a
    registration or a login (a token for the id of the user, and the
    projection [id], [username], [email]), the answer to [/api/verify],
    and a [books] structure. *)
Inductive public_body (JWT_SECRET : option string) (jwt_encode : Jwt.t -> string)
  : Json -> Prop :=
| public_error msg :
    In msg error_messages ->
    public_body JWT_SECRET jwt_encode (JObj [("error", JStr msg)])
| public_message :
    public_body JWT_SECRET jwt_encode
      (JObj [("message", JStr "Books updated successfully")])
| public_session msg user now :
    In msg ["User created successfully"; "Login successful"] ->
    public_body JWT_SECRET jwt_encode
      (JObj [("message", JStr msg);
             ("token", JStr (jwt_encode
                               (Jwt.sign (User._id user) (secret JWT_SECRET)
                                         (Jwt.days 7) now)));
             ("user", public_user user)])
| public_identity user :
    public_body JWT_SECRET jwt_encode (JObj [("user", public_user user)])
| public_books books :
    public_body JWT_SECRET jwt_encode (books_json books).

(** ** Stand-in collaborators

    Computable stand-ins for the libraries, to run the server on concrete
    requests: the wire form of a token is the user id it carries (and
    [garbage] does not parse), and a digest is the password behind a
    fixed prefix. *)

Module Demo.

Definition encode (token : Jwt.t) : string :=
  match Jwt.userId (Jwt.claims token) with
  | Some uid => uid
  | None => ""
  end.

Definition decode (wire : string) : option Jwt.t :=
  if String.eqb wire "garbage" then None
  else Some (Jwt.mk (Jwt.mkPayload (Some wire) 0 None) "your-secret-key").

Definition hash (password : string) (rounds : nat) (salt : string) : string :=
  ("$2a$10$" ++ password)%string.

Definition compare (password digest : string) : bool :=
  String.eqb digest ("$2a$10$" ++ password)%string.

Definition alice : User.t :=
  User.mk "a1" "alice" "alice@example.com" "$2a$10$secret1" Books.empty.

Definition bob : User.t :=
  User.mk "b2" "bob" "bob@example.com" "$2a$10$hunter22" Books.empty.

Definition handlers := handle None encode decode hash compare true.
Definition server := run None encode decode hash compare true.
Definition gate := authenticateToken None decode.
Definition signup := register None encode hash true.

Definition dune : BookEntry.t :=
  BookEntry.mk (Some "Dune") (Some "Frank Herbert") None (Some 412%Z)
               (Some 0%Z) None (Some 0%Z) None "2024-01-01T00:00:00.000Z".

End Demo.

(** Further stand-ins: a signer for the serverless handlers, a user and
    two sequences of requests, and the parser of a wire that carries the
    token [alice] is issued at time 0. *)
Module Sample.

Definition sign_wire (payload : Json) (secret : string) (expiresIn now : Z)
  : string := "signed".

Definition mallory : User.t :=
  User.mk "m1" "bob@example.com" "mallory@example.com" "$2a$10$letmein1"
          Books.empty.

(** [bob] registers, then [alice] sends a wish list. *)
Definition requests : list (Z * Request) :=
  [(1%Z, PostRegister "b2" "salt" (Some "bob") (Some "bob@example.com")
                      (Some "hunter22"));
   (2%Z, PutBooks (Some "Bearer a1")
                  (BooksObject (Books.mk None None (Some [Demo.dune]))))].

(** [mallory] takes the address of [bob] as her username, then [bob]
    registers. *)
Definition squatting : list (Z * Request) :=
  [(0%Z, PostRegister "m1" "salt" (Some "bob@example.com")
                      (Some "mallory@example.com") (Some "letmein1"));
   (1%Z, PostRegister "b2" "salt" (Some "bob") (Some "bob@example.com")
                      (Some "hunter22"))].

Definition decode_alice (wire : string) : option Jwt.t :=
  Some (issue_token None Demo.alice 0).

(** For the in-memory application: a codec for the token of the first
    user, and a user who goes by the name of [sam]. *)
Definition encode_first (t : InMemory.Token.t) : string := "wire".
Definition decode_first (wire : string) : option InMemory.Token.t :=
  Some (InMemory.Token.mk 1 "alice@example.com" 0 3600 "supersecretkey").
Definition ann : InMemory.Account.t :=
  InMemory.Account.mk 1 "sam" "ann@example.com" "$2a$10$secret1".

End Sample.

(** * Properties *)

(** ** Strings *)

Module StringFacts.

Lemma append_eq_nil (s1 s2 : string) :
  (s1 ++ s2)%string = "" -> s1 = "" /\ s2 = "".
Proof. destruct s1; simpl; [auto | discriminate]. Qed.

Lemma all_chars_append (p : ascii -> bool) (s1 s2 : string) :
  JsString.all_chars p (s1 ++ s2)
  = JsString.all_chars p s1 && JsString.all_chars p s2.
Proof.
  induction s1 as [|c s1 IH]; simpl; [reflexivity |].
  now rewrite IH, andb_assoc.
Qed.

(** [split] never returns the empty array. *)
Lemma split_not_nil (sep : ascii) (s : string) : JsString.split sep s <> [].
Proof.
  induction s as [|c s IH]; simpl; [discriminate |].
  destruct (Ascii.eqb c sep); [discriminate |].
  destruct (JsString.split sep s); discriminate.
Qed.

(** A string without the separator is one piece. *)
Lemma split_no_sep (sep : ascii) (s : string) :
  JsString.has_char sep s = false -> JsString.split sep s = [s].
Proof.
  induction s as [|c s IH]; simpl; [reflexivity |].
  intros H. apply orb_false_iff in H as [Hc Hs].
  rewrite Hc, (IH Hs). reflexivity.
Qed.

(** The pieces of [word ++ sep ++ rest], when [word] has no separator,
    are [word] and then the pieces of [rest]. *)
Lemma split_word (sep : ascii) (word rest : string) :
  JsString.has_char sep word = false ->
  JsString.split sep (word ++ String sep rest)
  = word :: JsString.split sep rest.
Proof.
  induction word as [|c word IH]; simpl.
  - intros _. now rewrite Ascii.eqb_refl.
  - intros H. apply orb_false_iff in H as [Hc Hw].
    rewrite Hc, (IH Hw). reflexivity.
Qed.

(** No white space at either end: [trim] changes nothing. *)
Lemma trimStart_id (s : string) :
  JsString.all_chars (fun c => negb (JsString.is_space c)) s = true ->
  JsString.trimStart s = s.
Proof.
  destruct s as [|c s]; simpl; [reflexivity |].
  intros H. apply andb_true_iff in H as [Hc _].
  apply negb_true_iff in Hc. now rewrite Hc.
Qed.

Lemma trimEnd_id (s : string) :
  JsString.all_chars (fun c => negb (JsString.is_space c)) s = true ->
  JsString.trimEnd s = s.
Proof.
  induction s as [|c s IH]; simpl; [reflexivity |].
  intros H. apply andb_true_iff in H as [Hc Hs].
  apply negb_true_iff in Hc. rewrite (IH Hs), Hc.
  destruct s; reflexivity.
Qed.

Lemma trim_id (s : string) :
  JsString.all_chars (fun c => negb (JsString.is_space c)) s = true ->
  JsString.trim s = s.
Proof.
  intros H. unfold JsString.trim. rewrite (trimStart_id s H).
  now apply trimEnd_id.
Qed.

Lemma all_chars_weaken (p q : ascii -> bool) (s : string) :
  (forall c, p c = true -> q c = true) ->
  JsString.all_chars p s = true -> JsString.all_chars q s = true.
Proof.
  intros Hpq. induction s as [|c s IH]; simpl; [reflexivity |].
  intros H. apply andb_true_iff in H as [Hc Hs].
  now rewrite (Hpq c Hc), (IH Hs).
Qed.

End StringFacts.

(** ** The matcher is correct for the language of a pattern *)

Module RegexFacts.
Import Regex.

Lemma lang_eps_inv (s : string) : lang Eps s -> s = "".
Proof. intros H. now inversion H. Qed.

Lemma lang_class_inv (p : ascii -> bool) (s : string) :
  lang (Class p) s -> exists c, s = String c "" /\ p c = true.
Proof. intros H. inversion H; subst. eauto. Qed.

Lemma lang_seq_inv (r1 r2 : regex) (s : string) :
  lang (Seq r1 r2) s ->
  exists s1 s2, s = (s1 ++ s2)%string /\ lang r1 s1 /\ lang r2 s2.
Proof. intros H. inversion H; subst. eauto. Qed.

Lemma lang_alt_inv (r1 r2 : regex) (s : string) :
  lang (Alt r1 r2) s -> lang r1 s \/ lang r2 s.
Proof. intros H. inversion H; subst; auto. Qed.

(** A non-empty word of [Star r] starts with a non-empty word of [r]. *)
Lemma lang_star_cons_inv (r : regex) (c : ascii) (s : string) :
  lang (Star r) (String c s) ->
  exists s1 s2, s = (s1 ++ s2)%string
                /\ lang r (String c s1) /\ lang (Star r) s2.
Proof.
  intros H. remember (Star r) as r' eqn:Er. remember (String c s) as w eqn:Ew.
  revert c s Ew.
  induction H as [ | p0 c0 Hp | ra rb s1 s2 H1 _ H2 _ | ra rb s0 H1 _
                 | ra rb s0 H1 _ | r0 | r0 s1 s2 H1 _ H2 IH2 ];
    intros c s Ew; try discriminate.
  injection Er as ->. destruct s1 as [|c1 s1]; simpl in Ew.
  - apply (IH2 eq_refl c s Ew).
  - injection Ew as -> <-. eauto.
Qed.

Lemma nullable_lang (r : regex) : nullable r = true <-> lang r "".
Proof.
  induction r as [| |p|r1 IH1 r2 IH2|r1 IH1 r2 IH2|r IH]; simpl.
  - split; [discriminate | intros H; inversion H].
  - split; [constructor | reflexivity].
  - split; [discriminate | intros H; inversion H].
  - rewrite andb_true_iff, IH1, IH2. split.
    + intros [H1 H2]. apply (lang_seq r1 r2 "" "" H1 H2).
    + intros H. apply lang_seq_inv in H as (s1 & s2 & E & H1 & H2).
      symmetry in E. apply StringFacts.append_eq_nil in E as [-> ->]. auto.
  - rewrite orb_true_iff, IH1, IH2. split.
    + intros [H|H]; [now apply lang_alt_l | now apply lang_alt_r].
    + apply lang_alt_inv.
  - split; [constructor | reflexivity].
Qed.

Lemma deriv_lang (c : ascii) (r : regex) :
  forall s, lang (deriv c r) s <-> lang r (String c s).
Proof.
  induction r as [| |p|r1 IH1 r2 IH2|r1 IH1 r2 IH2|r IH]; intros s; simpl.
  - split; intros H; inversion H.
  - split; intros H; inversion H.
  - destruct (p c) eqn:Hp; split; intros H.
    + apply lang_eps_inv in H as ->. now constructor.
    + apply lang_class_inv in H as (c' & E & _). injection E as _ ->.
      constructor.
    + inversion H.
    + apply lang_class_inv in H as (c' & E & Hc). injection E as <- _.
      congruence.
  - assert (Hleft : forall s, lang (Seq (deriv c r1) r2) s ->
                              lang (Seq r1 r2) (String c s)).
    { intros w H. apply lang_seq_inv in H as (s1 & s2 & -> & H1 & H2).
      apply IH1 in H1. apply (lang_seq r1 r2 (String c s1) s2 H1 H2). }
    assert (Hsplit : lang (Seq r1 r2) (String c s) ->
                     lang (Seq (deriv c r1) r2) s
                     \/ (lang r1 "" /\ lang r2 (String c s))).
    { intros H. apply lang_seq_inv in H as (s1 & s2 & E & H1 & H2).
      destruct s1 as [|c1 s1]; simpl in E.
      - right. subst s2. auto.
      - injection E as <- ->. left. apply lang_seq; [now apply IH1 | exact H2]. }
    destruct (nullable r1) eqn:Hn; split; intros H.
    + apply lang_alt_inv in H as [H|H]; [now apply Hleft |].
      apply IH2 in H. apply nullable_lang in Hn.
      apply (lang_seq r1 r2 "" (String c s) Hn H).
    + destruct (Hsplit H) as [H'|[_ H']];
        [now apply lang_alt_l | apply lang_alt_r; now apply IH2].
    + now apply Hleft.
    + destruct (Hsplit H) as [H'|[H' _]]; [exact H' |].
      apply nullable_lang in H'. congruence.
  - split; intros H.
    + apply lang_alt_inv in H as [H|H];
        [apply lang_alt_l; now apply IH1 | apply lang_alt_r; now apply IH2].
    + apply lang_alt_inv in H as [H|H];
        [apply lang_alt_l; now apply IH1 | apply lang_alt_r; now apply IH2].
  - split; intros H.
    + apply lang_seq_inv in H as (s1 & s2 & -> & H1 & H2).
      apply IH in H1. apply (lang_star_cons r (String c s1) s2 H1 H2).
    + apply lang_star_cons_inv in H as (s1 & s2 & -> & H1 & H2).
      apply lang_seq; [now apply IH | exact H2].
Qed.

Theorem test_lang (r : regex) (s : string) : test r s = true <-> lang r s.
Proof.
  revert r. induction s as [|c s IH]; intros r; simpl.
  - apply nullable_lang.
  - rewrite IH. apply deriv_lang.
Qed.

(** The words of [[p]*] and of [[p]+]. *)
Lemma lang_star_class (p : ascii -> bool) (s : string) :
  lang (Star (Class p)) s <-> JsString.all_chars p s = true.
Proof.
  split.
  - intros H. remember (Star (Class p)) as r eqn:Er.
    induction H as [ | p0 c0 Hp | ra rb s1 s2 H1 _ H2 _ | ra rb s0 H1 _
                   | ra rb s0 H1 _ | r0 | r0 s1 s2 H1 _ H2 IH2 ];
      try discriminate.
    + reflexivity.
    + injection Er as ->. apply lang_class_inv in H1 as (c & -> & Hc).
      simpl. now rewrite Hc, (IH2 eq_refl).
  - induction s as [|c s IH]; simpl; intros H; [constructor |].
    apply andb_true_iff in H as [Hc Hs].
    apply (lang_star_cons (Class p) (String c "") s);
      [now constructor | now apply IH].
Qed.

Lemma lang_plus_class (p : ascii -> bool) (s : string) :
  lang (Plus (Class p)) s <-> s <> "" /\ JsString.all_chars p s = true.
Proof.
  unfold Plus. split.
  - intros H. apply lang_seq_inv in H as (s1 & s2 & -> & H1 & H2).
    apply lang_class_inv in H1 as (c & -> & Hc).
    apply lang_star_class in H2. simpl. rewrite Hc, H2.
    split; [discriminate | reflexivity].
  - intros [Hne H]. destruct s as [|c s]; [congruence |].
    simpl in H. apply andb_true_iff in H as [Hc Hs].
    apply (lang_seq (Class p) (Star (Class p)) (String c "") s);
      [now constructor | now apply lang_star_class].
Qed.

Lemma lang_lit (c : ascii) (s : string) : lang (Lit c) s <-> s = String c "".
Proof.
  unfold Lit. split.
  - intros H. apply lang_class_inv in H as (c' & -> & Hc).
    apply Ascii.eqb_eq in Hc. now subst.
  - intros ->. constructor. apply Ascii.eqb_refl.
Qed.

End RegexFacts.

(** [isValidEmail] accepts exactly the addresses of the shape
    [local@domain.tld]. *)
Lemma isValidEmail_shape (email : string) :
  isValidEmail email = true <-> email_shape email.
Proof.
  unfold isValidEmail, email_shape, emailRegex.
  rewrite RegexFacts.test_lang. split.
  - intros H.
    apply RegexFacts.lang_seq_inv in H as (local & s1 & -> & Hl & H).
    apply RegexFacts.lang_seq_inv in H as (at_ & s2 & -> & Ha & H).
    apply RegexFacts.lang_seq_inv in H as (domain & s3 & -> & Hd & H).
    apply RegexFacts.lang_seq_inv in H as (dot & tld & -> & Hdot & Ht).
    apply RegexFacts.lang_lit in Ha as ->. apply RegexFacts.lang_lit in Hdot as ->.
    apply RegexFacts.lang_plus_class in Hl as [? ?].
    apply RegexFacts.lang_plus_class in Hd as [? ?].
    apply RegexFacts.lang_plus_class in Ht as [? ?].
    exists local, domain, tld. repeat split; assumption.
  - intros (local & domain & tld & -> & Hl & Hd & Ht & Al & Ad & At).
    apply Regex.lang_seq; [now apply RegexFacts.lang_plus_class |].
    apply (Regex.lang_seq _ _ "@"); [now apply RegexFacts.lang_lit |].
    apply Regex.lang_seq; [now apply RegexFacts.lang_plus_class |].
    apply (Regex.lang_seq _ _ "."); [now apply RegexFacts.lang_lit |].
    now apply RegexFacts.lang_plus_class.
Qed.

Example isValidEmail_accepts : isValidEmail "alice@example.com" = true.
Proof. reflexivity. Qed.

Example isValidEmail_rejects_no_tld : isValidEmail "alice@example" = false.
Proof. reflexivity. Qed.

Example isValidEmail_rejects_space : isValidEmail "al ice@example.com" = false.
Proof. reflexivity. Qed.

(** ** The token service *)

Module JwtFacts.


(** A token checked under the secret it was signed with is good exactly
    while the clock is before its expiry second. *)
Lemma check_signed (uid : ObjectId) (secret : string) (span T t : Z) :
  Jwt.check (Jwt.sign uid secret span T) secret t
  = if (Jwt.clock T + span <=? Jwt.clock t)%Z
    then inl Jwt.TokenExpiredError
    else inr (Jwt.claims (Jwt.sign uid secret span T)).
Proof. unfold Jwt.check, Jwt.sign. simpl. now rewrite String.eqb_refl. Qed.


Lemma clock_shift (T k : Z) : Jwt.clock (T + k * 1000) = (Jwt.clock T + k)%Z.
Proof. unfold Jwt.clock. now rewrite Z.div_add by lia. Qed.

Lemma clock_mono (a b : Z) : (a <= b)%Z -> (Jwt.clock a <= Jwt.clock b)%Z.
Proof. intros H. unfold Jwt.clock. apply Z.div_le_mono; lia. Qed.

End JwtFacts.

(** ** The Auth Gate *)

Section AuthGate.

Variable JWT_SECRET : option string.
Variable jwt_decode : string -> option Jwt.t.

Let gate := authenticateToken JWT_SECRET jwt_decode.

Lemma truthy_some (t : string) : t <> "" -> JsString.truthy (Some t) = true.
Proof. destruct t; [congruence | reflexivity]. Qed.




(** The token of a header [word ++ " " ++ rest]. *)
Lemma header_token_word (word rest : string) :
  JsString.has_char " " word = false ->
  header_token (Some (word ++ String " " rest)%string)
  = Some (hd "" (JsString.split " " rest)).
Proof.
  intros Hw. unfold header_token.
  assert (Ht : JsString.truthy (Some (word ++ String " " rest)%string) = true)
    by (destruct word; reflexivity).
  rewrite Ht, (StringFacts.split_word " " word rest Hw). simpl.
  destruct (JsString.split " " rest) eqn:E; [|reflexivity].
  now apply StringFacts.split_not_nil in E.
Qed.

(** C10.  The scheme name is never looked at: the token is the second
    piece of the header split at spaces.  A header [word t], for any
    word without a space, is treated as [Bearer t] is; in particular
    it is let through when [t] is a token that verifies and resolves to a
    user.  A header without a space has no second piece and gets the
    401 of a missing token. *)
Theorem auth_scheme_not_checked (db : Store) (now : Z) :
  (forall word t : string,
      JsString.has_char " " word = false ->
      gate db now (Some (word ++ " " ++ t)%string)
      = gate db now (Some ("Bearer " ++ t)%string))
  /\ (forall (word t : string) decoded user,
        JsString.has_char " " word = false ->
        JsString.has_char " " t = false -> t <> "" ->
        Jwt.verify jwt_decode t (secret JWT_SECRET) now = inr decoded ->
        findById db (Jwt.userId decoded) = Some user ->
        gate db now (Some (word ++ " " ++ t)%string) = Next user)
  /\ (forall h : string,
        JsString.has_char " " h = false ->
        gate db now (Some h)
        = Rejected (error_response 401 "Access token required")).
Proof.
  assert (Hsame : forall word t,
             JsString.has_char " " word = false ->
             header_token (Some (word ++ " " ++ t)%string)
             = header_token (Some ("Bearer " ++ t)%string)).
  { intros word t Hw.
    change (word ++ " " ++ t)%string with (word ++ String " " t)%string.
    change ("Bearer " ++ t)%string with ("Bearer" ++ String " " t)%string.
    rewrite (header_token_word word t Hw).
    now rewrite (header_token_word "Bearer" t eq_refl). }
  unfold gate, authenticateToken. repeat split.
  - intros word t Hw. now rewrite (Hsame word t Hw).
  - intros word t decoded user Hw Ht Hne Hv Hf.
    change (word ++ " " ++ t)%string with (word ++ String " " t)%string.
    rewrite (header_token_word word t Hw), (StringFacts.split_no_sep " " t Ht).
    simpl hd. rewrite (truthy_some t Hne).
    replace (or_else (Some t) "") with t
      by (destruct t; [congruence | reflexivity]).
    simpl. now rewrite Hv, Hf.
  - intros h Hh. unfold header_token.
    destruct h as [|c h']; [reflexivity |].
    change (JsString.truthy (Some (String c h'))) with true. cbv iota.
    now rewrite (StringFacts.split_no_sep " " _ Hh).
Qed.

(** C3 (as the code has it).  A token issued at [T] verifies at [t]
    exactly while the clock second of [t] is before the expiry second,
    seven days of seconds after the issue second.  So it verifies at
    every time up to one second before [T + 7 days], in particular at
    [T + 6 days], and is refused as expired from [T + 7 days] on, in
    particular at [T + 7 days] itself and at [T + 8 days]. *)
Theorem token_lifetime_seven_days (user : User.t) (T t : Z) (wire : string) :
  jwt_decode wire = Some (issue_token JWT_SECRET user T) ->
  let verified := Jwt.verify jwt_decode wire (secret JWT_SECRET) in
  let good := inr (Jwt.claims (issue_token JWT_SECRET user T)) in
  (verified t = good <-> (Jwt.clock t < Jwt.clock T + 604800)%Z)
  /\ (verified t = inl Jwt.TokenExpiredError
      <-> (Jwt.clock T + 604800 <= Jwt.clock t)%Z)
  /\ ((t <= T + 7 * 86400000 - 1000)%Z -> verified t = good)
  /\ ((T + 7 * 86400000 <= t)%Z -> verified t = inl Jwt.TokenExpiredError)
  /\ verified (T + 6 * 86400000)%Z = good
  /\ verified (T + 7 * 86400000)%Z = inl Jwt.TokenExpiredError
  /\ verified (T + 8 * 86400000)%Z = inl Jwt.TokenExpiredError.
Proof.
  intros Hwire verified good.
  assert (Hv : forall x, verified x
               = if (Jwt.clock T + 604800 <=? Jwt.clock x)%Z
                 then inl Jwt.TokenExpiredError else good).
  { intros x. unfold verified, Jwt.verify. rewrite Hwire.
    unfold issue_token. now rewrite JwtFacts.check_signed. }
  assert (Hlate : forall x, (T + 7 * 86400000 <= x)%Z ->
                            (Jwt.clock T + 604800 <= Jwt.clock x)%Z).
  { intros x Hx. rewrite <- (JwtFacts.clock_shift T 604800).
    apply JwtFacts.clock_mono. lia. }
  assert (Hearly : forall x, (x <= T + 7 * 86400000 - 1000)%Z ->
                             (Jwt.clock x < Jwt.clock T + 604800)%Z).
  { intros x Hx.
    assert (Jwt.clock x <= Jwt.clock (T + 604799 * 1000))%Z
      by (apply JwtFacts.clock_mono; lia).
    rewrite JwtFacts.clock_shift in H. lia. }
  repeat split.
  - intros H. rewrite Hv in H.
    destruct (Z.leb_spec (Jwt.clock T + 604800) (Jwt.clock t));
      [discriminate | assumption].
  - intros H. rewrite Hv.
    destruct (Z.leb_spec (Jwt.clock T + 604800) (Jwt.clock t)); [lia | reflexivity].
  - intros H. rewrite Hv in H.
    destruct (Z.leb_spec (Jwt.clock T + 604800) (Jwt.clock t));
      [assumption | discriminate].
  - intros H. rewrite Hv.
    destruct (Z.leb_spec (Jwt.clock T + 604800) (Jwt.clock t)); [reflexivity | lia].
  - intros H. rewrite Hv. specialize (Hearly t H).
    destruct (Z.leb_spec (Jwt.clock T + 604800) (Jwt.clock t)); [lia | reflexivity].
  - intros H. rewrite Hv. specialize (Hlate t H).
    destruct (Z.leb_spec (Jwt.clock T + 604800) (Jwt.clock t)); [reflexivity | lia].
  - rewrite Hv. assert (Jwt.clock (T + 6 * 86400000) < Jwt.clock T + 604800)%Z
      by (apply Hearly; lia).
    destruct (Z.leb_spec (Jwt.clock T + 604800) (Jwt.clock (T + 6 * 86400000)));
      [lia | reflexivity].
  - rewrite Hv. assert (Jwt.clock T + 604800 <= Jwt.clock (T + 7 * 86400000))%Z
      by (apply Hlate; lia).
    destruct (Z.leb_spec (Jwt.clock T + 604800) (Jwt.clock (T + 7 * 86400000)));
      [reflexivity | lia].
  - rewrite Hv. assert (Jwt.clock T + 604800 <= Jwt.clock (T + 8 * 86400000))%Z
      by (apply Hlate; lia).
    destruct (Z.leb_spec (Jwt.clock T + 604800) (Jwt.clock (T + 8 * 86400000)));
      [reflexivity | lia].
Qed.

End AuthGate.

(** ** The collection *)

Module StoreFacts.

Lemma save_ok (db db' : Store) (doc : User.t) :
  save db doc = inr db' ->
  db' = db ++ [doc]
  /\ validate doc = true
  /\ (forall u, In u db -> User._id u <> User._id doc)
  /\ (forall u, In u db -> User.username u <> User.username doc)
  /\ (forall u, In u db -> User.email u <> User.email doc).
Proof.
  unfold save. destruct (validate doc); simpl; [|discriminate].
  destruct (existsb _ db) eqn:E1; [discriminate |].
  destruct (existsb (fun u => String.eqb (User.username u) _) db) eqn:E2;
    [discriminate |].
  destruct (existsb (fun u => String.eqb (User.email u) _) db) eqn:E3;
    [discriminate |].
  intros H. injection H as <-.
  repeat split; intros u Hu Heq.
  - apply not_true_iff_false in E1. apply E1, existsb_exists.
    exists u. split; [exact Hu | now apply String.eqb_eq].
  - apply not_true_iff_false in E2. apply E2, existsb_exists.
    exists u. split; [exact Hu | now apply String.eqb_eq].
  - apply not_true_iff_false in E3. apply E3, existsb_exists.
    exists u. split; [exact Hu | now apply String.eqb_eq].
Qed.

Lemma save_duplicate (db : Store) (doc : User.t) (field : string) :
  save db doc = inl (DuplicateKey field) ->
  validate doc = true
  /\ ((field = "_id" /\ exists u, In u db /\ User._id u = User._id doc)
      \/ (field = "username"
          /\ exists u, In u db /\ User.username u = User.username doc)
      \/ (field = "email"
          /\ exists u, In u db /\ User.email u = User.email doc)).
Proof.
  unfold save. destruct (validate doc); simpl; [|discriminate].
  split; [reflexivity |].
  destruct (existsb _ db) eqn:E1.
  { injection H as <-. left. split; [reflexivity |].
    apply existsb_exists in E1 as (u & Hu & E). exists u.
    split; [exact Hu | now apply String.eqb_eq]. }
  destruct (existsb (fun u => String.eqb (User.username u) _) db) eqn:E2.
  { injection H as <-. right. left. split; [reflexivity |].
    apply existsb_exists in E2 as (u & Hu & E). exists u.
    split; [exact Hu | now apply String.eqb_eq]. }
  destruct (existsb (fun u => String.eqb (User.email u) _) db) eqn:E3;
    [|discriminate].
  injection H as <-. right. right. split; [reflexivity |].
  apply existsb_exists in E3 as (u & Hu & E). exists u.
  split; [exact Hu | now apply String.eqb_eq].
Qed.

Lemma findById_in (db : Store) (id : ObjectId) (u : User.t) :
  findById db (Some id) = Some u -> In u db /\ User._id u = id.
Proof.
  unfold findById, findOne. intros H. apply find_some in H as [Hin He].
  split; [exact Hin | now apply String.eqb_eq].
Qed.

Lemma findById_none (db : Store) (id : ObjectId) :
  findById db (Some id) = None <-> forall u, In u db -> User._id u <> id.
Proof.
  unfold findById, findOne. split.
  - intros H u Hu E. apply (find_none _ _ H) in Hu.
    apply String.eqb_neq in Hu. contradiction.
  - intros H. induction db as [|x db IH]; simpl; [reflexivity |].
    destruct (String.eqb_spec (User._id x) id) as [E|E].
    + exfalso. apply (H x); [now left | exact E].
    + apply IH. intros u Hu. apply H. now right.
Qed.

(** The update changes [books] of the first document with the id, and
    nothing else. *)
Lemma findById_update (db : Store) (id id' : ObjectId) (b : Books.t) :
  findById (findByIdAndUpdate id b db) (Some id')
  = match findById db (Some id') with
    | Some u => if String.eqb id' id then Some (User.set_books b u) else Some u
    | None => None
    end.
Proof.
  unfold findById, findOne. induction db as [|x db IH]; simpl; [reflexivity |].
  destruct (String.eqb_spec (User._id x) id) as [Ex|Ex]; simpl.
  - destruct (String.eqb_spec (User._id x) id') as [Ex'|Ex'].
    + subst. now rewrite String.eqb_refl.
    + destruct (find _ db) as [u|] eqn:Ef; [|reflexivity].
      apply find_some in Ef as [_ Eu]. apply String.eqb_eq in Eu.
      destruct (String.eqb_spec id' id) as [E|E]; [|reflexivity].
      (* the first document with [id] is [x], so [u] is not the one
         updated *)
      congruence.
  - destruct (String.eqb_spec (User._id x) id') as [Ex'|Ex'].
    + destruct (String.eqb_spec id' id) as [E|E]; [congruence | reflexivity].
    + exact IH.
Qed.

Lemma in_update (db : Store) (id : ObjectId) (b : Books.t) (u : User.t) :
  In u (findByIdAndUpdate id b db) ->
  In u db \/ exists v, In v db /\ User._id v = id /\ u = User.set_books b v.
Proof.
  induction db as [|x db IH]; simpl; [auto |].
  destruct (String.eqb_spec (User._id x) id) as [Ex|Ex]; simpl.
  - intros [<-|H]; [right; exists x; auto | auto].
  - intros [<-|H]; [auto |].
    destruct (IH H) as [H'|(v & Hv & E1 & E2)]; [auto |].
    right. exists v. auto.
Qed.

End StoreFacts.

(** ** The Account Service *)

Section Account.

Variable JWT_SECRET : option string.
Variable jwt_encode : Jwt.t -> string.
Variable bcrypt_hash : string -> nat -> string -> string.
Variable bcrypt_compare : string -> string -> bool.
Variable runSettersOnQuery : bool.

Let Register := register JWT_SECRET jwt_encode bcrypt_hash runSettersOnQuery.
Let Login := login JWT_SECRET jwt_encode bcrypt_compare runSettersOnQuery.


Lemma length_ge_ltb (s : string) (n : nat) :
  n <= String.length s -> Nat.ltb (String.length s) n = false.
Proof. intros H. now apply Nat.ltb_ge. Qed.


(** What the lookup of the registration answers once the four checks
    are passed. *)
Lemma register_check_valid (db : Store) (u e p : string) :
  3 <= String.length u -> isValidEmail e = true -> 6 <= String.length p ->
  register_check runSettersOnQuery db (Some u) (Some e) (Some p)
  = match findOne (email_or_username runSettersOnQuery e u) db with
    | Some existingUser =>
        if String.eqb (User.email existingUser) e
        then inl (error_response 400 "Email already exists")
        else if String.eqb (User.username existingUser) u
        then inl (error_response 400 "Username already exists")
        else inr (u, e, p)
    | None => inr (u, e, p)
    end.
Proof.
  intros Hu He Hp. unfold register_check.
  destruct u as [|cu u]; [simpl in Hu; lia |].
  destruct e as [|ce e]; [discriminate |].
  destruct p as [|cp p]; [simpl in Hp; lia |].
  cbn [JsString.truthy negb orb or_else].
  now rewrite (length_ge_ltb _ 3 Hu), He, (length_ge_ltb _ 6 Hp).
Qed.

(** The handler only inserts once the four checks are passed. *)
Lemma register_check_inr (db : Store) (username email password : option string)
    (u e p : string) :
  register_check runSettersOnQuery db username email password = inr (u, e, p) ->
  username = Some u /\ email = Some e /\ password = Some p
  /\ 3 <= String.length u /\ isValidEmail e = true /\ 6 <= String.length p.
Proof.
  unfold register_check.
  destruct username as [[|cu u0]|]; try discriminate.
  destruct email as [[|ce e0]|]; try discriminate.
  destruct password as [[|cp p0]|]; try discriminate.
  cbn [JsString.truthy negb orb or_else].
  destruct (Nat.ltb_spec (String.length (String cu u0)) 3) as [|Hu];
    [discriminate |].
  destruct (isValidEmail (String ce e0)) eqn:He; [|discriminate].
  destruct (Nat.ltb_spec (String.length (String cp p0)) 6) as [|Hp];
    [discriminate |].
  cbn [negb].
  intros H.
  assert (E : (String cu u0, String ce e0, String cp p0) = (u, e, p)).
  { destruct (findOne _ db) as [x|]; [|congruence].
    destruct (String.eqb (User.email x) _); [discriminate |].
    destruct (String.eqb (User.username x) _); [discriminate | congruence]. }
  injection E as <- <- <-. repeat split; assumption.
Qed.



End Account.

(** ** Registration against the unique indexes *)

Module RegisterFacts.

Lemma lower_char_idem (c : ascii) :
  JsString.lower_char (JsString.lower_char c) = JsString.lower_char c.
Proof. destruct c as [[] [] [] [] [] [] [] []]; reflexivity. Qed.

Lemma toLowerCase_idem (s : string) :
  JsString.toLowerCase (JsString.toLowerCase s) = JsString.toLowerCase s.
Proof.
  induction s as [|c s IH]; simpl; [reflexivity |].
  now rewrite lower_char_idem, IH.
Qed.

Lemma toLowerCase_not_empty (s : string) :
  s <> "" -> JsString.toLowerCase s <> "".
Proof. destruct s; [congruence | discriminate]. Qed.

Lemma not_space_or_at_not_space (c : ascii) :
  not_space_or_at c = true -> negb (JsString.is_space c) = true.
Proof. unfold not_space_or_at. intros H. now apply andb_true_iff in H. Qed.

(** An address that [isValidEmail] accepts has no white space, so [trim]
    leaves it as it is; and it is not empty. *)
Lemma valid_email_trim (e : string) :
  isValidEmail e = true -> JsString.trim e = e.
Proof.
  intros H. apply isValidEmail_shape in H
    as (l & d & t & -> & _ & _ & _ & Hl & Hd & Ht).
  apply StringFacts.trim_id.
  pose proof (StringFacts.all_chars_weaken _ _ l not_space_or_at_not_space Hl).
  pose proof (StringFacts.all_chars_weaken _ _ d not_space_or_at_not_space Hd).
  pose proof (StringFacts.all_chars_weaken _ _ t not_space_or_at_not_space Ht).
  repeat (rewrite StringFacts.all_chars_append; simpl).
  now rewrite H, H0, H1.
Qed.

Lemma valid_email_not_empty (e : string) : isValidEmail e = true -> e <> "".
Proof. intros H ->. discriminate. Qed.


(** A valid document whose id is new, and whose username or address is
    taken, hits the index on [username] or the one on [email]. *)
Lemma save_taken (db : Store) (doc : User.t) :
  validate doc = true ->
  (forall y, In y db -> User._id y <> User._id doc) ->
  (exists y, In y db /\ (User.username y = User.username doc
                         \/ User.email y = User.email doc)) ->
  (save db doc = inl (DuplicateKey "username")
   /\ exists y, In y db /\ User.username y = User.username doc)
  \/ (save db doc = inl (DuplicateKey "email")
      /\ exists y, In y db /\ User.email y = User.email doc).
Proof.
  intros Hv Hid (y & Hy & Hcol). unfold save. rewrite Hv. simpl.
  assert (E1 : existsb (fun u => String.eqb (User._id u) (User._id doc)) db
               = false).
  { apply not_true_iff_false. intros E.
    apply existsb_exists in E as (z & Hz & Ez). apply String.eqb_eq in Ez.
    now apply (Hid z Hz). }
  rewrite E1.
  destruct (existsb (fun u => String.eqb (User.username u) _) db) eqn:E2.
  - left. split; [reflexivity |].
    apply existsb_exists in E2 as (z & Hz & Ez). apply String.eqb_eq in Ez.
    eauto.
  - right.
    assert (He : User.email y = User.email doc).
    { destruct Hcol as [Hc|Hc]; [|exact Hc]. exfalso.
      apply not_true_iff_false in E2. apply E2, existsb_exists.
      exists y. split; [exact Hy | now apply String.eqb_eq]. }
    assert (E3 : existsb (fun u => String.eqb (User.email u) (User.email doc)) db
                 = true).
    { apply existsb_exists. exists y. split; [exact Hy | now apply String.eqb_eq]. }
    rewrite E3. split; [reflexivity | eauto].
Qed.

Lemma validate_new_User (oid : ObjectId) (u e digest : string) (b : Books.t) :
  JsString.trim u <> "" -> isValidEmail e = true ->
  6 <= String.length digest ->
  validate (new_User oid u e digest b) = true.
Proof.
  intros Hu He Hd. unfold validate, new_User.
  cbn [User.username User.email User.password].
  apply String.eqb_neq in Hu. rewrite Hu.
  rewrite (valid_email_trim e He).
  pose proof (toLowerCase_not_empty e (valid_email_not_empty e He)) as Hl.
  apply String.eqb_neq in Hl. rewrite Hl.
  assert (Hne : digest <> "") by (intros ->; simpl in Hd; lia).
  apply String.eqb_neq in Hne. rewrite Hne. cbn [negb andb].
  now apply Nat.leb_le.
Qed.

(** Stored values are fixed points of the casts. *)
Lemma cast_email_stored (r : bool) (x : User.t) :
  well_stored x -> cast_email r (User.email x) = User.email x.
Proof. intros (_ & _ & H). destruct r; [exact H | reflexivity]. Qed.

Lemma cast_username_stored (r : bool) (x : User.t) :
  well_stored x -> cast_username r (User.username x) = User.username x.
Proof. intros (_ & H & _). destruct r; [exact H | reflexivity]. Qed.

(** Under a unique index, two documents with the same key are one. *)
Lemma unique_key {A : Type} (key : User.t -> A) (db : Store) (a b : User.t) :
  NoDup (map key db) -> In a db -> In b db -> key a = key b -> a = b.
Proof.
  induction db as [|x db IH]; simpl; [intros _ [] |].
  intros Hnd Ha Hb Hk. inversion Hnd as [|k ks Hnotin Hnd']; subst.
  destruct Ha as [<-|Ha], Hb as [<-|Hb]; auto.
  - exfalso. apply Hnotin. rewrite Hk. now apply in_map.
  - exfalso. apply Hnotin. rewrite <- Hk. now apply in_map.
Qed.

Lemma well_stored_username (x : User.t) : well_stored x -> User.username x <> "".
Proof.
  intros (H & _). unfold validate in H.
  destruct (String.eqb_spec (User.username x) ""); [discriminate | assumption].
Qed.

End RegisterFacts.

Section Duplicates.

Variable JWT_SECRET : option string.
Variable jwt_encode : Jwt.t -> string.
Variable bcrypt_hash : string -> nat -> string -> string.
Variable runSettersOnQuery : bool.

Let Register := register JWT_SECRET jwt_encode bcrypt_hash runSettersOnQuery.
Let Insert := register_insert JWT_SECRET jwt_encode bcrypt_hash.

(** Every response the first part of the handler sends is a 400. *)
Lemma register_check_inl (db : Store) (username email password : option string)
    (res : Response) :
  register_check runSettersOnQuery db username email password = inl res ->
  status res = 400%Z.
Proof.
  unfold register_check.
  destruct (negb (JsString.truthy username) || negb (JsString.truthy email)
            || negb (JsString.truthy password));
    [intros H; injection H as <-; reflexivity |].
  destruct (Nat.ltb _ 3); [intros H; injection H as <-; reflexivity |].
  destruct (negb (isValidEmail _)); [intros H; injection H as <-; reflexivity |].
  destruct (Nat.ltb _ 6); [intros H; injection H as <-; reflexivity |].
  destruct (findOne _ db) as [x|]; [|discriminate].
  destruct (String.eqb (User.email x) _);
    [intros H; injection H as <-; reflexivity |].
  destruct (String.eqb (User.username x) _);
    [intros H; injection H as <-; reflexivity | discriminate].
Qed.

(** The three outcomes of the second part of the handler. *)
Lemma register_insert_cases (db : Store) (now : Z) (oid : ObjectId)
    (salt u e p : string) :
  let doc := new_User oid u e (bcrypt_hash p 10 salt) Books.empty in
  (exists db', save db doc = inr db'
               /\ status (fst (Insert db now oid salt u e p)) = 201%Z
               /\ snd (Insert db now oid salt u e p) = db')
  \/ (exists field, save db doc = inl (DuplicateKey field)
                    /\ Insert db now oid salt u e p
                       = (error_response 400 (field ++ " already exists")%string,
                          db))
  \/ (save db doc = inl ValidationError
      /\ Insert db now oid salt u e p
         = (error_response 500 "Server error during registration", db)).
Proof.
  intros doc. unfold Insert, register_insert. fold doc.
  destruct (save db doc) as [[|field]|db'] eqn:E.
  - right. right. auto.
  - right. left. eauto.
  - left. eauto.
Qed.

(** The lookup passed and the insert refused by an index: the [catch]
    clause answers 400 with the name of the index. *)
Lemma register_insert_taken (db : Store) (now : Z) (oid : ObjectId)
    (salt u e p : string) :
  JsString.trim u <> "" -> isValidEmail e = true ->
  6 <= String.length (bcrypt_hash p 10 salt) ->
  findById db (Some oid) = None ->
  (exists y, In y db /\ (User.username y = JsString.trim u
                         \/ User.email y = JsString.toLowerCase (JsString.trim e))) ->
  (Insert db now oid salt u e p
   = (error_response 400 "username already exists", db)
   /\ exists y, In y db /\ User.username y = JsString.trim u)
  \/ (Insert db now oid salt u e p
      = (error_response 400 "email already exists", db)
      /\ exists y, In y db
                   /\ User.email y = JsString.toLowerCase (JsString.trim e)).
Proof.
  intros Hu He Hd Hfresh Hex.
  pose (doc := new_User oid u e (bcrypt_hash p 10 salt) Books.empty).
  assert (Hval : validate doc = true)
    by (apply RegisterFacts.validate_new_User; assumption).
  assert (Hid : forall y, In y db -> User._id y <> User._id doc)
    by (apply StoreFacts.findById_none; exact Hfresh).
  unfold Insert, register_insert. fold doc.
  destruct (RegisterFacts.save_taken db doc Hval Hid Hex) as [[Hs Hy]|[Hs Hy]];
    rewrite Hs; [left | right]; split; auto.
Qed.


End Duplicates.

Section CaseInsensitiveEmail.

Variable JWT_SECRET : option string.
Variable jwt_encode : Jwt.t -> string.
Variable bcrypt_hash : string -> nat -> string -> string.
Variable runSettersOnQuery : bool.

Let Register := register JWT_SECRET jwt_encode bcrypt_hash runSettersOnQuery.

(** A registration answered 201 has inserted the document that
    [new User] built from the three strings of the request. *)
Lemma register_created (db : Store) (now : Z) (oid : ObjectId) (salt : string)
    (username email password : option string) :
  status (fst (Register db now oid salt username email password)) = 201%Z ->
  exists u e p,
    username = Some u /\ email = Some e /\ password = Some p
    /\ isValidEmail e = true
    /\ snd (Register db now oid salt username email password)
       = db ++ [new_User oid u e (bcrypt_hash p 10 salt) Books.empty].
Proof.
  unfold Register, register, register_interleaved.
  destruct (register_check runSettersOnQuery db username email password)
    as [res|[[u e] p]] eqn:E.
  - apply register_check_inl in E. simpl. intros H. rewrite E in H. discriminate.
  - apply register_check_inr in E as (-> & -> & -> & _ & He & _).
    unfold register_insert.
    destruct (save db _) as [[|field]|db'] eqn:Es; simpl; try discriminate.
    intros _. apply StoreFacts.save_ok in Es as [-> _].
    exists u, e, p. auto.
Qed.

(** C9.  Addresses are stored lower-cased, and uniqueness does not
    look at the case: when the address of a registration is that of an
    existing user up to the case of its letters, no account is created,
    whatever the other fields are; and when the request is otherwise
    acceptable (it passes the four checks, its username is not blank,
    the digest and the id are what bcrypt and the driver produce), the
    answer is a 400 reporting a duplicate, sent by the lookup before
    the insert or made of the error of the unique index. *)
Theorem email_uniqueness_ignores_case (db : Store) (now : Z) (oid : ObjectId)
    (salt : string) (username password : option string) (e : string)
    (x : User.t) :
  In x db -> JsString.toLowerCase e = User.email x ->
  let r := Register db now oid salt username (Some e) password in
  snd r = db /\ status (fst r) <> 201%Z
  /\ (forall u p,
        username = Some u -> password = Some p ->
        3 <= String.length u -> JsString.trim u <> "" ->
        isValidEmail e = true -> 6 <= String.length p ->
        6 <= String.length (bcrypt_hash p 10 salt) ->
        findById db (Some oid) = None ->
        status (fst r) = 400%Z /\ is_duplicate_error (fst r))
  /\ (forall db0 now0 oid0 salt0 username0 email0 password0,
        let r0 := Register db0 now0 oid0 salt0 username0 email0 password0 in
        status (fst r0) = 201%Z ->
        exists doc e0,
          email0 = Some e0 /\ snd r0 = db0 ++ [doc]
          /\ User.email doc = JsString.toLowerCase e0
          /\ JsString.toLowerCase (User.email doc) = User.email doc).
Proof.
  intros Hx Hlow r.
  assert (Htaken : forall u : string, isValidEmail e = true ->
             exists y, In y db
               /\ (User.username y = JsString.trim u
                   \/ User.email y = JsString.toLowerCase (JsString.trim e))).
  { intros u He. exists x. split; [exact Hx | right].
    now rewrite (RegisterFacts.valid_email_trim e He). }
  split; [|split; [|split]].
  - unfold r, Register, register, register_interleaved.
    destruct (register_check runSettersOnQuery db username (Some e) password)
      as [res|[[u e'] p]] eqn:E; [reflexivity |].
    apply register_check_inr in E as (-> & Ee & -> & _ & He & _).
    injection Ee as <-.
    destruct (register_insert_cases JWT_SECRET jwt_encode bcrypt_hash
                db now oid salt u e p)
      as [(db' & Hs & _)|[(field & _ & ->)|(_ & ->)]]; try reflexivity.
    exfalso. apply StoreFacts.save_ok in Hs as (_ & _ & _ & _ & Hne).
    apply (Hne x Hx). unfold new_User. simpl.
    now rewrite (RegisterFacts.valid_email_trim e He).
  - unfold r, Register, register, register_interleaved.
    destruct (register_check runSettersOnQuery db username (Some e) password)
      as [res|[[u e'] p]] eqn:E.
    + apply register_check_inl in E. simpl. rewrite E. discriminate.
    + apply register_check_inr in E as (-> & Ee & -> & _ & He & _).
      injection Ee as <-.
      destruct (register_insert_cases JWT_SECRET jwt_encode bcrypt_hash
                  db now oid salt u e p)
        as [(db' & Hs & _)|[(field & _ & ->)|(_ & ->)]]; try discriminate.
      exfalso. apply StoreFacts.save_ok in Hs as (_ & _ & _ & _ & Hne).
      apply (Hne x Hx). unfold new_User. simpl.
      now rewrite (RegisterFacts.valid_email_trim e He).
  - intros u p -> -> Hu Htrim He Hp Hd Hfresh.
    unfold r, Register, register, register_interleaved, is_duplicate_error.
    rewrite (register_check_valid runSettersOnQuery db u e p Hu He Hp).
    assert (Hins : status (fst (register_insert JWT_SECRET jwt_encode bcrypt_hash
                                  db now oid salt u e p)) = 400%Z
                   /\ is_duplicate_error
                        (fst (register_insert JWT_SECRET jwt_encode bcrypt_hash
                                db now oid salt u e p))).
    { destruct (register_insert_taken JWT_SECRET jwt_encode bcrypt_hash
                  db now oid salt u e p Htrim He Hd Hfresh (Htaken u He))
        as [[-> _]|[-> _]]; unfold is_duplicate_error; simpl; auto 6. }
    destruct (findOne _ db) as [y|]; [|exact Hins].
    destruct (String.eqb (User.email y) e); [simpl; auto |].
    destruct (String.eqb (User.username y) u); [simpl; auto | exact Hins].
  - intros db0 now0 oid0 salt0 username0 email0 password0 r0 H201.
    apply register_created in H201 as (u0 & e0 & p0 & _ & -> & _ & He0 & Hs).
    exists (new_User oid0 u0 e0 (bcrypt_hash p0 10 salt0) Books.empty), e0.
    unfold new_User at 2 3 4. simpl.
    rewrite (RegisterFacts.valid_email_trim e0 He0).
    repeat split; [exact Hs | apply RegisterFacts.toLowerCase_idem].
Qed.

End CaseInsensitiveEmail.

(** ** Response bodies *)

Module BodyFacts.

Lemma book_json_no_password (b : BookEntry.t) :
  mentions_key "password" (book_json b) = false.
Proof.
  destruct b as [[t|] [a|] [g|] [pg|] [cp|] [n|] [pr|] [c|] d]; reflexivity.
Qed.

Lemma shelf_json_no_password (entries : list BookEntry.t) :
  mentions_key "password" (shelf_json entries) = false.
Proof.
  unfold shelf_json.
  change (existsb (mentions_key "password") (map book_json entries) = false).
  induction entries as [|b entries IH]; [reflexivity |].
  cbn [map existsb]. now rewrite book_json_no_password, IH.
Qed.

Lemma books_json_no_password (b : Books.t) :
  mentions_key "password" (books_json b) = false.
Proof.
  destruct b as [[r|] [u|] [w|]]; unfold books_json, opt_member;
    cbn [Books.read Books.unread Books.wishlist app mentions_key existsb fst snd];
    rewrite ?shelf_json_no_password; reflexivity.
Qed.




Lemma public_body_no_password (JWT_SECRET : option string)
    (jwt_encode : Jwt.t -> string) (j : Json) :
  public_body JWT_SECRET jwt_encode j -> mentions_key "password" j = false.
Proof.
  intros H. destruct H; try reflexivity. apply books_json_no_password.
Qed.

End BodyFacts.

(** ** The book collection and the responses *)

Section BooksAndBodies.

Variable JWT_SECRET : option string.
Variable jwt_encode : Jwt.t -> string.
Variable jwt_decode : string -> option Jwt.t.
Variable bcrypt_hash : string -> nat -> string -> string.
Variable bcrypt_compare : string -> string -> bool.
Variable runSettersOnQuery : bool.

Let Gate := authenticateToken JWT_SECRET jwt_decode.
Let Handle :=
  handle JWT_SECRET jwt_encode jwt_decode bcrypt_hash bcrypt_compare
         runSettersOnQuery.
Let Run :=
  run JWT_SECRET jwt_encode jwt_decode bcrypt_hash bcrypt_compare
      runSettersOnQuery.
Let Register := register JWT_SECRET jwt_encode bcrypt_hash runSettersOnQuery.
Let Login := login JWT_SECRET jwt_encode bcrypt_compare runSettersOnQuery.
Let Public := public_body JWT_SECRET jwt_encode.

(** What the gate tells about the user it passes on: it is the document the
    store finds for the id in the token, whenever the token is
    verified. *)
Lemma gate_next (db : Store) (now : Z) (authorization : option string)
    (user : User.t) :
  Gate db now authorization = Next user ->
  exists token decoded,
    Jwt.verify jwt_decode token (secret JWT_SECRET) now = inr decoded
    /\ Jwt.userId decoded = Some (User._id user)
    /\ findById db (Some (User._id user)) = Some user
    /\ forall db' now' user',
         Gate db' now' authorization = Next user' ->
         User._id user' = User._id user.
Proof.
  unfold Gate, authenticateToken.
  destruct (JsString.truthy (header_token authorization)); simpl; [|discriminate].
  set (token := or_else (header_token authorization) "").
  destruct (Jwt.verify jwt_decode token (secret JWT_SECRET) now)
    as [err|decoded] eqn:Ev; [discriminate |].
  destruct (findById db (Jwt.userId decoded)) as [u|] eqn:Ef; [|discriminate].
  intros H. injection H as ->.
  destruct (Jwt.userId decoded) as [id|] eqn:Eid; [|discriminate].
  pose proof (StoreFacts.findById_in db id user Ef) as [_ Hid]. subst id.
  exists token, decoded. repeat split; try assumption.
  intros db' now' user'.
  destruct (Jwt.verify jwt_decode token (secret JWT_SECRET) now')
    as [err'|decoded'] eqn:Ev'; [discriminate |].
  assert (Ed : Jwt.userId decoded' = Jwt.userId decoded).
  { unfold Jwt.verify in Ev, Ev'. destruct (jwt_decode token) as [j|];
      [|discriminate].
    unfold Jwt.check in Ev, Ev'.
    destruct (negb (String.eqb (Jwt.key j) (secret JWT_SECRET)));
      [discriminate |].
    destruct (Jwt.exp (Jwt.claims j)) as [x|].
    - destruct (x <=? Jwt.clock now)%Z; [discriminate |].
      destruct (x <=? Jwt.clock now')%Z; [discriminate |]. congruence.
    - congruence. }
  rewrite Ed, Eid.
  destruct (findById db' (Some (User._id user))) as [u'|] eqn:Ef';
    [|discriminate].
  intros H. injection H as ->.
  now apply StoreFacts.findById_in in Ef' as [_ Hid'].
Qed.

(** The responses of the gate when it rejects. *)
Lemma gate_rejected (db : Store) (now : Z) (authorization : option string)
    (res : Response) :
  Gate db now authorization = Rejected res ->
  res = error_response 401 "Access token required"
  \/ res = error_response 403 "Invalid or expired token"
  \/ res = error_response 403 "User not found".
Proof.
  unfold Gate, authenticateToken.
  destruct (negb (JsString.truthy (header_token authorization)));
    [intros H; injection H as <-; auto |].
  destruct (Jwt.verify _ _ _ _) as [err|decoded];
    [intros H; injection H as <-; auto |].
  destruct (findById db _); [discriminate |].
  intros H; injection H as <-; auto.
Qed.


End BooksAndBodies.

(** ** The responses do not depend on the stored digests *)

Section Independence.

Variable JWT_SECRET : option string.
Variable jwt_encode : Jwt.t -> string.
Variable jwt_decode : string -> option Jwt.t.
Variable bcrypt_hash : string -> nat -> string -> string.
Variable bcrypt_compare : string -> string -> bool.
Variable runSettersOnQuery : bool.
Variable f : User.t -> string.

Let swap (u : User.t) : User.t := User.set_password (f u) u.

Lemma find_rehash (p : User.t -> bool) (db : Store) :
  (forall u, p (swap u) = p u) ->
  find p (rehash f db) = option_map swap (find p db).
Proof.
  intros Hp. unfold rehash. fold swap.
  induction db as [|x db IH]; simpl; [reflexivity |].
  rewrite Hp. destruct (p x); [reflexivity | exact IH].
Qed.

Lemma existsb_rehash (p : User.t -> bool) (db : Store) :
  (forall u, p (swap u) = p u) -> existsb p (rehash f db) = existsb p db.
Proof.
  intros Hp. unfold rehash. fold swap.
  induction db as [|x db IH]; simpl; [reflexivity |].
  now rewrite Hp, IH.
Qed.

Lemma findById_rehash (db : Store) (id : option ObjectId) :
  findById (rehash f db) id = option_map swap (findById db id).
Proof.
  destruct id as [i|]; [|reflexivity]. unfold findById, findOne.
  now apply find_rehash.
Qed.

Lemma save_rehash (db : Store) (doc : User.t) :
  save (rehash f db) doc
  = match save db doc with
    | inl err => inl err
    | inr _ => inr (rehash f db ++ [doc])
    end.
Proof.
  unfold save. destruct (negb (validate doc)); [reflexivity |].
  rewrite !existsb_rehash by reflexivity.
  destruct (existsb _ db); [reflexivity |].
  destruct (existsb (fun u => String.eqb (User.username u) _) db);
    [reflexivity |].
  destruct (existsb (fun u => String.eqb (User.email u) _) db); reflexivity.
Qed.

Lemma gate_rehash (db : Store) (now : Z) (authorization : option string) :
  authenticateToken JWT_SECRET jwt_decode (rehash f db) now authorization
  = match authenticateToken JWT_SECRET jwt_decode db now authorization with
    | Rejected res => Rejected res
    | Next user => Next (swap user)
    end.
Proof.
  unfold authenticateToken.
  destruct (negb (JsString.truthy (header_token authorization)));
    [reflexivity |].
  destruct (Jwt.verify _ _ _ _) as [err|decoded]; [reflexivity |].
  rewrite findById_rehash. destruct (findById db _); reflexivity.
Qed.

Lemma register_rehash (db : Store) (now : Z) (oid : ObjectId) (salt : string)
    (username email password : option string) :
  fst (register JWT_SECRET jwt_encode bcrypt_hash runSettersOnQuery
                (rehash f db) now oid salt username email password)
  = fst (register JWT_SECRET jwt_encode bcrypt_hash runSettersOnQuery
                  db now oid salt username email password).
Proof.
  unfold register, register_interleaved.
  assert (Ec : register_check runSettersOnQuery (rehash f db)
                              username email password
               = register_check runSettersOnQuery db username email password).
  { unfold register_check, findOne.
    destruct (negb (JsString.truthy username) || negb (JsString.truthy email)
              || negb (JsString.truthy password)); [reflexivity |].
    destruct (Nat.ltb _ 3); [reflexivity |].
    destruct (negb (isValidEmail _)); [reflexivity |].
    destruct (Nat.ltb _ 6); [reflexivity |].
    rewrite find_rehash by reflexivity.
    destruct (find _ db); reflexivity. }
  rewrite Ec.
  destruct (register_check runSettersOnQuery db username email password)
    as [res|[[u e] p]]; [reflexivity |].
  unfold register_insert. rewrite save_rehash.
  destruct (save db _) as [[|field]|db']; reflexivity.
Qed.

Lemma login_rehash (db : Store) (now : Z)
    (usernameOrEmail password : option string) :
  (forall u p, bcrypt_compare p (f u) = bcrypt_compare p (User.password u)) ->
  login JWT_SECRET jwt_encode bcrypt_compare runSettersOnQuery
        (rehash f db) now usernameOrEmail password
  = login JWT_SECRET jwt_encode bcrypt_compare runSettersOnQuery
          db now usernameOrEmail password.
Proof.
  intros Hcmp. unfold login, findOne.
  destruct (negb (JsString.truthy usernameOrEmail)
            || negb (JsString.truthy password)); [reflexivity |].
  rewrite find_rehash by reflexivity.
  destruct (find _ db) as [user|]; [|reflexivity].
  simpl. rewrite Hcmp. reflexivity.
Qed.

Lemma protected_rehash (db : Store) (now : Z) (authorization : option string)
    (handler handler' : User.t -> Response * Store) :
  (forall user, fst (handler' (swap user)) = fst (handler user)) ->
  fst (protected JWT_SECRET jwt_decode (rehash f db) now authorization handler')
  = fst (protected JWT_SECRET jwt_decode db now authorization handler).
Proof.
  intros Hh. unfold protected. rewrite gate_rehash.
  destruct (authenticateToken _ _ db now authorization); [reflexivity | apply Hh].
Qed.

Lemma get_books_rehash (db : Store) (user : User.t) :
  get_books (rehash f db) (swap user) = get_books db user.
Proof.
  unfold get_books. simpl User._id. rewrite findById_rehash.
  destruct (findById db _); reflexivity.
Qed.

End Independence.

Section Invariants.

Variable JWT_SECRET : option string.
Variable jwt_encode : Jwt.t -> string.
Variable jwt_decode : string -> option Jwt.t.
Variable bcrypt_hash : string -> nat -> string -> string.
Variable bcrypt_compare : string -> string -> bool.
Variable runSettersOnQuery : bool.

Let Gate := authenticateToken JWT_SECRET jwt_decode.
Let Handle :=
  handle JWT_SECRET jwt_encode jwt_decode bcrypt_hash bcrypt_compare
         runSettersOnQuery.
Let Run :=
  run JWT_SECRET jwt_encode jwt_decode bcrypt_hash bcrypt_compare
      runSettersOnQuery.
Let Register := register JWT_SECRET jwt_encode bcrypt_hash runSettersOnQuery.
Let Login := login JWT_SECRET jwt_encode bcrypt_compare runSettersOnQuery.
Let Public := public_body JWT_SECRET jwt_encode.

Ltac pick_message :=
  apply public_error; simpl; repeat (first [left; reflexivity | right]).

Lemma register_check_public (db : Store)
    (username email password : option string) (res : Response) :
  register_check runSettersOnQuery db username email password = inl res ->
  status res = 400%Z /\ Public (body res).
Proof.
  unfold register_check, Public.
  destruct (negb (JsString.truthy username) || negb (JsString.truthy email)
            || negb (JsString.truthy password));
    [intros H; injection H as <-; split; [reflexivity | pick_message] |].
  destruct (Nat.ltb _ 3);
    [intros H; injection H as <-; split; [reflexivity | pick_message] |].
  destruct (negb (isValidEmail _));
    [intros H; injection H as <-; split; [reflexivity | pick_message] |].
  destruct (Nat.ltb _ 6);
    [intros H; injection H as <-; split; [reflexivity | pick_message] |].
  destruct (findOne _ db) as [x|]; [|discriminate].
  destruct (String.eqb (User.email x) _);
    [intros H; injection H as <-; split; [reflexivity | pick_message] |].
  destruct (String.eqb (User.username x) _);
    [intros H; injection H as <-; split; [reflexivity | pick_message]
    | discriminate].
Qed.

(** The response and the store after a registration: nothing changes
    and the body is an error, or the document of the request is
    appended, with the three empty arrays, and the body is the session
    of that document. *)
Lemma register_outcome (db : Store) (now : Z) (oid : ObjectId) (salt : string)
    (username email password : option string) :
  let r := Register db now oid salt username email password in
  (snd r = db /\ status (fst r) <> 201%Z /\ Public (body (fst r)))
  \/ (exists u e p,
        let doc := new_User oid u e (bcrypt_hash p 10 salt) Books.empty in
        snd r = db ++ [doc]
        /\ fst r = mkResponse 201
                     (JObj [("message", JStr "User created successfully");
                            ("token",
                             JStr (jwt_encode (issue_token JWT_SECRET doc now)));
                            ("user", public_user doc)])).
Proof.
  intros r. unfold r, Register, register, register_interleaved.
  destruct (register_check runSettersOnQuery db username email password)
    as [res|[[u e] p]] eqn:E.
  - left. apply register_check_public in E as [Es Ep]. simpl.
    rewrite Es. repeat split; [discriminate | exact Ep].
  - unfold register_insert.
    destruct (save db _) as [[|field]|db'] eqn:Es.
    + left. simpl. repeat split; [discriminate | pick_message].
    + left. simpl. repeat split; [discriminate |].
      apply StoreFacts.save_duplicate in Es as [_ [[-> _]|[[-> _]|[-> _]]]];
        pick_message.
    + right. apply StoreFacts.save_ok in Es as [-> _]. exists u, e, p.
      simpl. auto.
Qed.

Lemma login_outcome (db : Store) (now : Z)
    (usernameOrEmail password : option string) :
  let res := Login db now usernameOrEmail password in
  (status res = 400%Z /\ Public (body res))
  \/ (exists user,
        In user db
        /\ res = json_response
                   (JObj [("message", JStr "Login successful");
                          ("token",
                           JStr (jwt_encode (issue_token JWT_SECRET user now)));
                          ("user", public_user user)])).
Proof.
  intros res. unfold res, Login, login.
  destruct (negb (JsString.truthy usernameOrEmail)
            || negb (JsString.truthy password));
    [left; split; [reflexivity | pick_message] |].
  destruct (findOne _ db) as [user|] eqn:Ef;
    [|left; split; [reflexivity | pick_message]].
  destruct (negb (bcrypt_compare _ _));
    [left; split; [reflexivity | pick_message] |].
  right. exists user. split; [|reflexivity].
  unfold findOne in Ef. now apply find_some in Ef.
Qed.

Lemma gate_rejected_public (db : Store) (now : Z)
    (authorization : option string) (res : Response) :
  Gate db now authorization = Rejected res ->
  Public (body res) /\ status res <> 200%Z.
Proof.
  intros H.
  apply (gate_rejected JWT_SECRET jwt_decode) in H as [ -> | [ -> | -> ] ];
    split; try discriminate; pick_message.
Qed.

Lemma gate_next_in (db : Store) (now : Z) (authorization : option string)
    (user : User.t) :
  Gate db now authorization = Next user ->
  In user db /\ findById db (Some (User._id user)) = Some user.
Proof.
  intros H.
  apply (gate_next JWT_SECRET jwt_decode) in H
    as (_ & _ & _ & _ & Hf & _).
  split; [|exact Hf]. now apply StoreFacts.findById_in in Hf.
Qed.

(** C7.  The digest stored on a user never goes out: the body of
    every response of the routes that read the [User] model is built
    from the public side of a user only, and no member named [password]
    occurs anywhere in it.  The answers to a registration, a login and
    [/api/verify] carry the projection ([id], [username], [email]) of the
    user, and [GET /api/books] returns the [books] structure of the user
    and nothing else.  And the response stays the same when every stored
    digest is replaced by another string; for a login, by one that
    [bcrypt.compare] judges alike. *)
Theorem responses_never_expose_password (db : Store) (now : Z) (req : Request) :
  let res := fst (Handle db now req) in
  Public (body res)
  /\ mentions_key "password" (body res) = false
  /\ match req with
     | PostRegister oid salt username email password =>
         status res = 201%Z ->
         exists user,
           In user (snd (Handle db now req))
           /\ body res
              = JObj [("message", JStr "User created successfully");
                      ("token",
                       JStr (jwt_encode (issue_token JWT_SECRET user now)));
                      ("user", public_user user)]
     | PostLogin usernameOrEmail password =>
         status res = 200%Z ->
         exists user,
           In user db
           /\ body res
              = JObj [("message", JStr "Login successful");
                      ("token",
                       JStr (jwt_encode (issue_token JWT_SECRET user now)));
                      ("user", public_user user)]
     | GetVerify authorization =>
         status res = 200%Z ->
         exists user,
           In user db /\ body res = JObj [("user", public_user user)]
     | GetBooks authorization =>
         status res = 200%Z ->
         exists user, In user db /\ body res = books_json (User.books user)
     | PutBooks authorization books =>
         status res = 200%Z ->
         body res = JObj [("message", JStr "Books updated successfully")]
     end
  /\ (forall f : User.t -> string,
        match req with
        | PostLogin _ _ =>
            forall u p, bcrypt_compare p (f u) = bcrypt_compare p (User.password u)
        | _ => True
        end ->
        fst (Handle (rehash f db) now req) = res).
Proof.
  intros res.
  assert (Hmain : Public (body res)
            /\ match req with
               | PostRegister oid salt username email password =>
                   status res = 201%Z ->
                   exists user,
                     In user (snd (Handle db now req))
                     /\ body res
                        = JObj [("message", JStr "User created successfully");
                                ("token",
                                 JStr (jwt_encode
                                         (issue_token JWT_SECRET user now)));
                                ("user", public_user user)]
               | PostLogin usernameOrEmail password =>
                   status res = 200%Z ->
                   exists user,
                     In user db
                     /\ body res
                        = JObj [("message", JStr "Login successful");
                                ("token",
                                 JStr (jwt_encode
                                         (issue_token JWT_SECRET user now)));
                                ("user", public_user user)]
               | GetVerify authorization =>
                   status res = 200%Z ->
                   exists user,
                     In user db /\ body res = JObj [("user", public_user user)]
               | GetBooks authorization =>
                   status res = 200%Z ->
                   exists user,
                     In user db /\ body res = books_json (User.books user)
               | PutBooks authorization books =>
                   status res = 200%Z ->
                   body res
                   = JObj [("message", JStr "Books updated successfully")]
               end).
  { unfold res, Handle, handle.
    destruct req as [oid salt username email password
                    | usernameOrEmail password
                    | authorization
                    | authorization books
                    | authorization].
    - fold Register.
      destruct (register_outcome db now oid salt username email password)
        as [(_ & Hs & Hp)|(u & e & p & Hdb & Hres)].
      + split; [exact Hp | intros H; contradiction].
      + rewrite Hres, Hdb. simpl. split.
        * unfold Public, issue_token. apply public_session. simpl. auto.
        * intros _. eexists. split; [|reflexivity].
          apply in_or_app. right. now left.
    - fold Login. simpl fst.
      destruct (login_outcome db now usernameOrEmail password)
        as [[Hs Hp]|(user & Hin & Hres)].
      + split; [exact Hp | intros H; rewrite Hs in H; discriminate].
      + rewrite Hres. simpl. split.
        * unfold Public, issue_token. apply public_session. simpl. auto.
        * intros _. eauto.
    - unfold protected. fold Gate.
      destruct (Gate db now authorization) as [rej|user] eqn:Eg.
      + apply gate_rejected_public in Eg as [Hp Hs].
        split; [exact Hp | intros H; contradiction].
      + apply gate_next_in in Eg as [Hin Hf]. simpl fst.
        unfold get_books. rewrite Hf. simpl. split.
        * apply public_books.
        * intros _. eauto.
    - unfold protected. fold Gate.
      destruct (Gate db now authorization) as [rej|user] eqn:Eg.
      + apply gate_rejected_public in Eg as [Hp Hs].
        split; [exact Hp | intros H; contradiction].
      + destruct books as [| |b]; simpl.
        * split; [pick_message | discriminate].
        * split; [pick_message | discriminate].
        * split; [apply public_message | reflexivity].
    - unfold protected. fold Gate.
      destruct (Gate db now authorization) as [rej|user] eqn:Eg.
      + apply gate_rejected_public in Eg as [Hp Hs].
        split; [exact Hp | intros H; contradiction].
      + apply gate_next_in in Eg as [Hin Hf]. simpl. split.
        * apply public_identity.
        * intros _. eauto. }
  destruct Hmain as [Hp Hshape].
  split; [exact Hp |].
  split; [apply (BodyFacts.public_body_no_password _ _ _ Hp) |].
  split; [exact Hshape |].
  intros f Hf. unfold res, Handle, handle.
  destruct req as [oid salt username email password
                  | usernameOrEmail password
                  | authorization
                  | authorization books
                  | authorization].
  - apply register_rehash.
  - simpl fst. now apply login_rehash.
  - apply protected_rehash. intros user. simpl fst. apply get_books_rehash.
  - apply protected_rehash. intros user. destruct books; reflexivity.
  - apply protected_rehash. intros user. reflexivity.
Qed.

End Invariants.

Section BookShelves.

Variable JWT_SECRET : option string.
Variable jwt_encode : Jwt.t -> string.
Variable jwt_decode : string -> option Jwt.t.
Variable bcrypt_hash : string -> nat -> string -> string.
Variable bcrypt_compare : string -> string -> bool.
Variable runSettersOnQuery : bool.

Let Gate := authenticateToken JWT_SECRET jwt_decode.
Let Handle :=
  handle JWT_SECRET jwt_encode jwt_decode bcrypt_hash bcrypt_compare
         runSettersOnQuery.
Let Run :=
  run JWT_SECRET jwt_encode jwt_decode bcrypt_hash bcrypt_compare
      runSettersOnQuery.
Let Register := register JWT_SECRET jwt_encode bcrypt_hash runSettersOnQuery.






End BookShelves.

(** ** Every store the server reaches is as the schema wants it *)

Module SetterFacts.

Lemma is_space_lower_char (c : ascii) :
  JsString.is_space (JsString.lower_char c) = JsString.is_space c.
Proof. destruct c as [[] [] [] [] [] [] [] []]; reflexivity. Qed.

Lemma trimStart_toLowerCase (s : string) :
  JsString.trimStart (JsString.toLowerCase s)
  = JsString.toLowerCase (JsString.trimStart s).
Proof.
  induction s as [|c s IH]; simpl; [reflexivity |].
  rewrite is_space_lower_char. destruct (JsString.is_space c); [exact IH | reflexivity].
Qed.

Lemma trimEnd_toLowerCase (s : string) :
  JsString.trimEnd (JsString.toLowerCase s)
  = JsString.toLowerCase (JsString.trimEnd s).
Proof.
  induction s as [|c s IH]; simpl; [reflexivity |].
  rewrite IH, is_space_lower_char.
  destruct (JsString.trimEnd s); simpl; [|reflexivity].
  destruct (JsString.is_space c); reflexivity.
Qed.

Lemma trim_toLowerCase (s : string) :
  JsString.trim (JsString.toLowerCase s) = JsString.toLowerCase (JsString.trim s).
Proof.
  unfold JsString.trim. now rewrite trimStart_toLowerCase, trimEnd_toLowerCase.
Qed.

Lemma trimEnd_idem (s : string) :
  JsString.trimEnd (JsString.trimEnd s) = JsString.trimEnd s.
Proof.
  induction s as [|c s IH]; simpl; [reflexivity |].
  destruct (JsString.trimEnd s) as [|k kept] eqn:E.
  - destruct (JsString.is_space c) eqn:Ec; simpl; [reflexivity |].
    now rewrite Ec.
  - change (JsString.trimEnd (String c (String k kept)))
      with (match JsString.trimEnd (String k kept) with
            | EmptyString =>
                if JsString.is_space c then EmptyString else String c EmptyString
            | String a b => String c (String a b)
            end).
    now rewrite IH.
Qed.

(** The head of a string survives [trimEnd] when it is no white space. *)
Lemma trimEnd_head (c : ascii) (s : string) :
  JsString.is_space c = false ->
  exists kept, JsString.trimEnd (String c s) = String c kept.
Proof.
  intros Hc. simpl. destruct (JsString.trimEnd s); [rewrite Hc |]; eauto.
Qed.

Lemma trimStart_head (s : string) :
  JsString.trimStart s = ""
  \/ exists c rest, JsString.trimStart s = String c rest
                    /\ JsString.is_space c = false.
Proof.
  induction s as [|c s IH]; simpl; [auto |].
  destruct (JsString.is_space c) eqn:Ec; [exact IH | right; eauto].
Qed.

Lemma trim_idem (s : string) : JsString.trim (JsString.trim s) = JsString.trim s.
Proof.
  unfold JsString.trim.
  destruct (trimStart_head s) as [E|(c & rest & E & Hc)]; rewrite E;
    [reflexivity |].
  destruct (trimEnd_head c rest Hc) as (kept & Ek). rewrite Ek.
  simpl JsString.trimStart. rewrite Hc, <- Ek. apply trimEnd_idem.
Qed.

(** The document [new User] builds has its setters applied for good. *)
Lemma new_User_cast (oid : ObjectId) (u e digest : string) (b : Books.t) :
  let doc := new_User oid u e digest b in
  JsString.trim (User.username doc) = User.username doc
  /\ JsString.toLowerCase (JsString.trim (User.email doc)) = User.email doc.
Proof.
  simpl. split; [apply trim_idem |].
  now rewrite trim_toLowerCase, trim_idem, RegisterFacts.toLowerCase_idem.
Qed.

Lemma map_update {A : Type} (key : User.t -> A) (id : ObjectId) (b : Books.t)
    (db : Store) :
  (forall u, key (User.set_books b u) = key u) ->
  map key (findByIdAndUpdate id b db) = map key db.
Proof.
  intros Hk. induction db as [|x db IH]; simpl; [reflexivity |].
  destruct (String.eqb (User._id x) id); simpl; [now rewrite Hk | now rewrite IH].
Qed.

Lemma NoDup_snoc {A : Type} (l : list A) (x : A) :
  NoDup l -> ~ In x l -> NoDup (l ++ [x]).
Proof.
  intros Hl Hx. induction Hl as [|y l Hy Hl IH]; simpl.
  - constructor; [intros [] | constructor].
  - constructor.
    + intros H. apply in_app_or in H as [H|[<-|[]]]; [now apply Hy |].
      apply Hx. now left.
    + apply IH. intros H. apply Hx. now right.
Qed.

Lemma store_ok_save (db db' : Store) (doc : User.t) :
  store_ok db ->
  JsString.trim (User.username doc) = User.username doc ->
  JsString.toLowerCase (JsString.trim (User.email doc)) = User.email doc ->
  save db doc = inr db' -> store_ok db'.
Proof.
  intros (Hws & Hu & He & Hi) Hcu Hce Hs.
  apply StoreFacts.save_ok in Hs as (-> & Hv & Hid & Hname & Hmail).
  assert (Hfresh : forall (A : Type) (key : User.t -> A),
             (forall u, In u db -> key u <> key doc) ->
             ~ In (key doc) (map key db)).
  { intros A key Hk H. apply in_map_iff in H as (u & E & Hin).
    now apply (Hk u Hin). }
  unfold store_ok, unique_usernames, unique_emails, unique_ids.
  rewrite !map_app. simpl. split; [|split; [|split]].
  - intros u H. apply in_app_or in H as [H|[<-|[]]]; [now apply Hws |].
    repeat split; assumption.
  - apply NoDup_snoc; [exact Hu | now apply Hfresh].
  - apply NoDup_snoc; [exact He | now apply Hfresh].
  - apply NoDup_snoc; [exact Hi | now apply Hfresh].
Qed.

Lemma store_ok_update (db : Store) (id : ObjectId) (b : Books.t) :
  store_ok db -> store_ok (findByIdAndUpdate id b db).
Proof.
  intros (Hws & Hu & He & Hi).
  unfold store_ok, unique_usernames, unique_emails, unique_ids.
  rewrite !map_update by reflexivity.
  split; [|split; [|split]]; try assumption.
  intros u H. apply StoreFacts.in_update in H as [H|(v & Hv & _ & ->)];
    [now apply Hws |].
  destruct (Hws v Hv) as (H1 & H2 & H3). repeat split; assumption.
Qed.

End SetterFacts.

Section Reachable.

Variable JWT_SECRET : option string.
Variable jwt_encode : Jwt.t -> string.
Variable jwt_decode : string -> option Jwt.t.
Variable bcrypt_hash : string -> nat -> string -> string.
Variable bcrypt_compare : string -> string -> bool.
Variable runSettersOnQuery : bool.

Let Handle :=
  handle JWT_SECRET jwt_encode jwt_decode bcrypt_hash bcrypt_compare
         runSettersOnQuery.
Let Run :=
  run JWT_SECRET jwt_encode jwt_decode bcrypt_hash bcrypt_compare
      runSettersOnQuery.

Lemma handle_store_ok (db : Store) (now : Z) (req : Request) :
  store_ok db -> store_ok (snd (Handle db now req)).
Proof.
  intros Hdb. unfold Handle, handle.
  destruct req as [oid salt username email password
                  | usernameOrEmail password
                  | authorization
                  | authorization books
                  | authorization].
  - unfold register, register_interleaved.
    destruct (register_check _ db username email password)
      as [res|[[u e] p]]; [exact Hdb |].
    unfold register_insert.
    destruct (save db _) as [[|field]|db'] eqn:Es; simpl; try exact Hdb.
    destruct (SetterFacts.new_User_cast oid u e (bcrypt_hash p 10 salt)
                                        Books.empty) as [Hu He].
    exact (SetterFacts.store_ok_save db db' _ Hdb Hu He Es).
  - exact Hdb.
  - unfold protected. destruct (authenticateToken _ _ _ _ _); exact Hdb.
  - unfold protected. destruct (authenticateToken _ _ _ _ _); [exact Hdb |].
    destruct books as [| |b]; simpl; try exact Hdb.
    now apply SetterFacts.store_ok_update.
  - unfold protected. destruct (authenticateToken _ _ _ _ _); exact Hdb.
Qed.

(** Whatever the requests, the store the server has reached from the
    empty collection holds documents with the setters applied and the
    validators satisfied, under the three unique indexes. *)
Lemma run_store_ok (reqs : list (Z * Request)) : store_ok (Run [] reqs).
Proof.
  assert (Hgen : forall db, store_ok db -> store_ok (Run db reqs)).
  { induction reqs as [|[now req] reqs IH]; intros db Hdb; [exact Hdb |].
    apply IH. now apply handle_store_ok. }
  apply Hgen. split; [intros u [] |]. repeat split; constructor.
Qed.

End Reachable.

(** * Further properties of the server *)

(** ** The pattern of the addresses *)

Module EmailFacts.

Lemma length_append (s1 s2 : string) :
  String.length (s1 ++ s2) = String.length s1 + String.length s2.
Proof. induction s1 as [|c s1 IH]; simpl; [reflexivity | now rewrite IH]. Qed.

Lemma count_char_append (c : ascii) (s1 s2 : string) :
  count_char c (s1 ++ s2) = count_char c s1 + count_char c s2.
Proof.
  induction s1 as [|d s1 IH]; simpl; [reflexivity |]. rewrite IH. lia.
Qed.

(** A character outside a class does not occur in a string of the
    class. *)
Lemma count_char_outside (p : ascii -> bool) (c : ascii) (s : string) :
  p c = false -> JsString.all_chars p s = true -> count_char c s = 0.
Proof.
  intros Hc. induction s as [|d s IH]; simpl; [reflexivity |].
  intros H. apply andb_true_iff in H as [Hd Hs].
  destruct (Ascii.eqb d c) eqn:E; [|now apply IH].
  apply Ascii.eqb_eq in E. subst d. congruence.
Qed.

Lemma not_empty_length (s : string) : s <> "" -> 1 <= String.length s.
Proof. destruct s; [congruence | simpl; lia]. Qed.

Lemma deriv_case_blind (c : ascii) (r : Regex.regex) :
  case_blind r ->
  Regex.deriv (JsString.lower_char c) r = Regex.deriv c r
  /\ case_blind (Regex.deriv c r).
Proof.
  induction r as [| |p|r1 IH1 r2 IH2|r1 IH1 r2 IH2|r1 IH1]; simpl.
  - auto.
  - auto.
  - intros H. rewrite H. destruct (p c); simpl; auto.
  - intros [H1 H2]. destruct (IH1 H1) as [E1 C1], (IH2 H2) as [E2 C2].
    rewrite E1, E2. destruct (Regex.nullable r1); simpl; auto.
  - intros [H1 H2]. destruct (IH1 H1) as [E1 C1], (IH2 H2) as [E2 C2].
    rewrite E1, E2. simpl. auto.
  - intros H1. destruct (IH1 H1) as [E1 C1]. rewrite E1. simpl. auto.
Qed.

(** A pattern whose classes do not tell a letter from its lower-case
    form matches a string and its lower-case form alike. *)
Lemma test_case_blind (s : string) :
  forall r, case_blind r ->
            Regex.test r (JsString.toLowerCase s) = Regex.test r s.
Proof.
  induction s as [|c s IH]; intros r Hr; simpl; [reflexivity |].
  destruct (deriv_case_blind c r Hr) as [E C]. rewrite E. now apply IH.
Qed.

Lemma emailRegex_case_blind : case_blind emailRegex.
Proof.
  assert (Hclass : forall c, not_space_or_at (JsString.lower_char c)
                             = not_space_or_at c)
    by (intros [[] [] [] [] [] [] [] []]; reflexivity).
  assert (Hat : forall c, Ascii.eqb "@" (JsString.lower_char c) = Ascii.eqb "@" c)
    by (intros [[] [] [] [] [] [] [] []]; reflexivity).
  assert (Hdot : forall c, Ascii.eqb "." (JsString.lower_char c) = Ascii.eqb "." c)
    by (intros [[] [] [] [] [] [] [] []]; reflexivity).
  unfold emailRegex, Regex.Plus, Regex.Lit. simpl. repeat split; assumption.
Qed.

Lemma isValidEmail_toLowerCase (e : string) :
  isValidEmail (JsString.toLowerCase e) = isValidEmail e.
Proof. apply test_case_blind, emailRegex_case_blind. Qed.

End EmailFacts.

(** X1.  What the pattern of [isValidEmail] accepts: exactly the
    strings of the shape [local@domain.tld], the three parts non-empty
    and free of white space and [@]; so an accepted string holds one [@]
    and no white space and is at least five characters long; and the
    pattern does not look at the case of the letters, so that the
    lower-cased address the store keeps is accepted as well. *)
Theorem email_pattern_meaning (e : string) :
  (isValidEmail e = true <-> email_shape e)
  /\ (isValidEmail e = true ->
      count_char "@" e = 1
      /\ JsString.all_chars (fun c => negb (JsString.is_space c)) e = true
      /\ 5 <= String.length e)
  /\ isValidEmail (JsString.toLowerCase e) = isValidEmail e.
Proof.
  split; [apply isValidEmail_shape |].
  split; [|apply EmailFacts.isValidEmail_toLowerCase].
  intros H. apply isValidEmail_shape in H
    as (l & d & t & -> & Hl & Hd & Ht & Al & Ad & At).
  assert (Hat : not_space_or_at "@" = false) by reflexivity.
  split; [|split].
  - rewrite !EmailFacts.count_char_append.
    rewrite (EmailFacts.count_char_outside _ "@" l Hat Al).
    rewrite (EmailFacts.count_char_outside _ "@" d Hat Ad).
    rewrite (EmailFacts.count_char_outside _ "@" t Hat At).
    reflexivity.
  - repeat (rewrite StringFacts.all_chars_append; simpl).
    rewrite !(StringFacts.all_chars_weaken not_space_or_at
                (fun c => negb (JsString.is_space c)) _
                RegisterFacts.not_space_or_at_not_space) by assumption.
    reflexivity.
  - rewrite !EmailFacts.length_append. simpl.
    apply EmailFacts.not_empty_length in Hl, Hd, Ht. lia.
Qed.

(** ** What a request does to the store *)

Module ListFacts.

(** [find] on a list with one more element at its end. *)
Lemma find_snoc {A : Type} (f : A -> bool) (l : list A) (d : A) :
  (forall x, In x l -> f x = false) ->
  find f (l ++ [d]) = if f d then Some d else None.
Proof.
  intros H. induction l as [|x l IH]; simpl; [reflexivity |].
  rewrite (H x (or_introl eq_refl)). apply IH. intros y Hy. apply H. now right.
Qed.

(** [find] stops at the first match. *)
Lemma find_middle {A : Type} (f : A -> bool) (l1 l2 : list A) (x : A) :
  (forall y, In y l1 -> f y = false) -> f x = true ->
  find f (l1 ++ x :: l2) = Some x.
Proof.
  intros H Hx. induction l1 as [|y l1 IH]; simpl; [now rewrite Hx |].
  rewrite (H y (or_introl eq_refl)). apply IH. intros z Hz. apply H. now right.
Qed.

(** What [find] finds in a list, it finds in the list extended. *)
Lemma find_prefix {A : Type} (f : A -> bool) (l added : list A) (x : A) :
  find f l = Some x -> find f (l ++ added) = Some x.
Proof.
  induction l as [|y l IH]; simpl; [discriminate |].
  destruct (f y); [auto | exact IH].
Qed.

Lemma NoDup_app_disjoint {A : Type} (l1 l2 : list A) (v : A) :
  NoDup (l1 ++ l2) -> In v l1 -> In v l2 -> False.
Proof.
  induction l1 as [|a l1 IH]; simpl; intros Hnd H1 H2; [contradiction |].
  inversion Hnd as [|a' l' Ha Hl]; subst.
  destruct H1 as [<-|H1]; [|now apply IH].
  apply Ha, in_or_app. now right.
Qed.

(** Under a unique key, a document of the front of the store and one of
    the back differ on the key. *)
Lemma keys_apart {A B : Type} (key : A -> B) (l1 l2 : list A) (z w : A) :
  NoDup (map key (l1 ++ l2)) -> In z l1 -> In w l2 -> key z <> key w.
Proof.
  rewrite map_app. intros Hnd Hz Hw E.
  apply (NoDup_app_disjoint _ _ (key z) Hnd); [now apply in_map |].
  rewrite E. now apply in_map.
Qed.

End ListFacts.

Section StoreSteps.

Variable JWT_SECRET : option string.
Variable jwt_encode : Jwt.t -> string.
Variable jwt_decode : string -> option Jwt.t.
Variable bcrypt_hash : string -> nat -> string -> string.
Variable bcrypt_compare : string -> string -> bool.
Variable runSettersOnQuery : bool.

Let Gate := authenticateToken JWT_SECRET jwt_decode.
Let Handle :=
  handle JWT_SECRET jwt_encode jwt_decode bcrypt_hash bcrypt_compare
         runSettersOnQuery.
Let Run :=
  run JWT_SECRET jwt_encode jwt_decode bcrypt_hash bcrypt_compare
      runSettersOnQuery.

(** The three things a request can do to the store: nothing, append the
    document of a registration answered 201, or set the [books] of the
    user of a [PUT] answered 200. *)
Lemma handle_store_cases (db : Store) (now : Z) (req : Request) :
  let r := Handle db now req in
  snd r = db
  \/ (exists oid salt u e p,
        req = PostRegister oid salt (Some u) (Some e) (Some p)
        /\ status (fst r) = 201%Z /\ isValidEmail e = true
        /\ snd r = db ++ [new_User oid u e (bcrypt_hash p 10 salt) Books.empty])
  \/ (exists authorization user b,
        req = PutBooks authorization (BooksObject b)
        /\ Gate db now authorization = Next user
        /\ status (fst r) = 200%Z
        /\ snd r = findByIdAndUpdate (User._id user) b db).
Proof.
  intros r. unfold r, Handle, handle.
  destruct req as [oid salt username email password
                  | usernameOrEmail password
                  | authorization
                  | authorization books
                  | authorization].
  - destruct (Z.eq_dec
                (status (fst (register JWT_SECRET jwt_encode bcrypt_hash
                                runSettersOnQuery db now oid salt username
                                email password))) 201) as [E|E].
    + right; left.
      destruct (register_created _ _ _ _ _ _ _ _ _ _ _ E)
        as (u & e & p & -> & -> & -> & He & Hs).
      exists oid, salt, u, e, p. auto.
    + left.
      destruct (register_outcome JWT_SECRET jwt_encode bcrypt_hash
                  runSettersOnQuery db now oid salt username email password)
        as [[Hs _]|(u & e & p & _ & Hr)]; [exact Hs |].
      rewrite Hr in E. now elim E.
  - now left.
  - left. unfold protected. now destruct (authenticateToken _ _ _ _ _).
  - unfold protected. fold Gate.
    destruct (Gate db now authorization) as [res|user] eqn:Eg; [now left |].
    destruct books as [| |b]; simpl; [now left | now left |].
    right; right. exists authorization, user, b. auto.
  - left. unfold protected. now destruct (authenticateToken _ _ _ _ _).
Qed.

(** X2.  The store changes with a success only: a request after which
    the store is another is a registration answered 201 or a
    [PUT /api/books] answered 200; a login, a read and every request
    answered with an error leave it as it was. *)
Theorem store_changes_only_on_success (db : Store) (now : Z) (req : Request) :
  snd (Handle db now req) <> db ->
  (exists oid salt u e p,
      req = PostRegister oid salt (Some u) (Some e) (Some p)
      /\ status (fst (Handle db now req)) = 201%Z)
  \/ (exists authorization b,
        req = PutBooks authorization (BooksObject b)
        /\ status (fst (Handle db now req)) = 200%Z).
Proof.
  intros Hne.
  destruct (handle_store_cases db now req)
    as [E|[(oid & salt & u & e & p & -> & Hs & _)
          |(authorization & user & b & -> & _ & Hs & _)]].
  - now elim Hne.
  - left. exists oid, salt, u, e, p. auto.
  - right. exists authorization, b. auto.
Qed.

Lemma identity_set_books (b : Books.t) (u : User.t) :
  identity (User.set_books b u) = identity u.
Proof. reflexivity. Qed.

Lemma handle_identities (db : Store) (now : Z) (req : Request) :
  exists added,
    map identity (snd (Handle db now req)) = map identity db ++ added.
Proof.
  destruct (handle_store_cases db now req)
    as [E|[(oid & salt & u & e & p & _ & _ & _ & E)
          |(authorization & user & b & _ & _ & _ & E)]]; rewrite E.
  - exists []. now rewrite app_nil_r.
  - rewrite map_app. eauto.
  - exists []. rewrite app_nil_r.
    apply SetterFacts.map_update, identity_set_books.
Qed.

Lemma run_identities (reqs : list (Z * Request)) :
  forall db, exists added,
    map identity (Run db reqs) = map identity db ++ added.
Proof.
  induction reqs as [|[now req] reqs IH]; intros db; simpl.
  - exists []. now rewrite app_nil_r.
  - destruct (handle_identities db now req) as (a1 & E1).
    destruct (IH (snd (Handle db now req))) as (a2 & E2).
    exists (a1 ++ a2). unfold Run, Handle in *. rewrite E2, E1.
    now rewrite app_assoc.
Qed.

(** The document an id finds keeps its identity when the store is
    extended behind identities that stay. *)
Lemma findById_identities (db db' : Store) (added : list _) (id : ObjectId)
    (u : User.t) :
  map identity db' = map identity db ++ added ->
  findById db (Some id) = Some u ->
  exists u', findById db' (Some id) = Some u' /\ identity u' = identity u.
Proof.
  revert db'. induction db as [|x db IH]; intros db' Hmap; [discriminate |].
  destruct db' as [|x' db']; [discriminate |].
  cbn [map app] in Hmap. injection Hmap as Eid Ename Email Edigest Hrest.
  assert (Hx : identity x' = identity x) by (unfold identity; congruence).
  unfold findById, findOne. cbn [find].
  rewrite Eid. destruct (String.eqb (User._id x) id).
  - intros Hsome. injection Hsome as <-. exists x'. auto.
  - apply (IH db' Hrest).
Qed.

(** X3.  Accounts are for good: whatever requests are served, the
    documents of the store keep their place, their id, their username,
    their address and their digest, and new documents come behind them;
    no request deletes a user or changes anything of a user but the
    [books]. *)
Theorem accounts_are_permanent (db : Store) (reqs : list (Z * Request)) :
  (exists added,
      map identity (Run db reqs) = map identity db ++ added)
  /\ (forall id u,
        findById db (Some id) = Some u ->
        exists u', findById (Run db reqs) (Some id) = Some u'
                   /\ User._id u' = User._id u
                   /\ User.username u' = User.username u
                   /\ User.email u' = User.email u
                   /\ User.password u' = User.password u).
Proof.
  destruct (run_identities reqs db) as (added & E).
  split; [eauto |].
  intros id u Hf.
  destruct (findById_identities db _ added id u E Hf) as (u' & Hf' & Hi).
  exists u'. unfold identity in Hi. injection Hi as H1 H2 H3 H4. auto.
Qed.

(** X4.  A session cannot be ended from the server: a header the gate
    would let through at a time on the store as it is, is let through
    at that time on the store any sequence of requests leads to, for a
    user with the same id, username, address and digest.  No login,
    registration or update takes a token back before it expires. *)
Theorem sessions_outlive_requests (db : Store) (now : Z)
    (authorization : option string) (user : User.t)
    (reqs : list (Z * Request)) :
  Gate db now authorization = Next user ->
  exists user',
    Gate (Run db reqs) now authorization = Next user'
    /\ identity user' = identity user.
Proof.
  intros Hg.
  destruct (gate_next JWT_SECRET jwt_decode db now authorization user Hg)
    as (token & decoded & _ & _ & Hf & _).
  destruct (run_identities reqs db) as (added & E).
  destruct (findById_identities db _ added _ user E Hf) as (u' & Hf' & Hi).
  exists u'. split; [|exact Hi].
  revert Hg. unfold Gate, authenticateToken.
  destruct (negb (JsString.truthy (header_token authorization)));
    [discriminate |].
  destruct (Jwt.verify _ _ _ _) as [err|d]; [discriminate |].
  destruct (findById db (Jwt.userId d)) as [x|] eqn:Ex; [|discriminate].
  intros H. injection H as ->.
  destruct (Jwt.userId d) as [id|]; [|discriminate].
  apply StoreFacts.findById_in in Ex as [_ <-].
  now rewrite Hf'.
Qed.

Lemma in_update_other (db : Store) (id : ObjectId) (b : Books.t) (v : User.t) :
  In v db -> User._id v <> id -> In v (findByIdAndUpdate id b db).
Proof.
  intros Hin Hne. induction db as [|x db IH]; [contradiction |]. simpl.
  destruct (String.eqb (User._id x) id) eqn:E.
  - destruct Hin as [<-|Hin]; [|now right].
    apply String.eqb_eq in E. contradiction.
  - destruct Hin as [<-|Hin]; [now left | right; now apply IH].
Qed.

(** X5.  [PUT /api/books] touches the user of the token and nobody
    else: whatever the body is, every other id finds the document it
    found before, every document with another id is still in the
    store, and nobody's id, username, address or digest moves. *)
Theorem put_books_touches_one_user (db : Store) (now : Z)
    (authorization : option string) (user : User.t) (books : BooksInput) :
  Gate db now authorization = Next user ->
  let db' := snd (Handle db now (PutBooks authorization books)) in
  (forall id', id' <> User._id user ->
               findById db' (Some id') = findById db (Some id'))
  /\ (forall v, In v db -> User._id v <> User._id user -> In v db')
  /\ map identity db' = map identity db.
Proof.
  intros Hg db'.
  assert (E : db' = match books with
                    | BooksObject b => findByIdAndUpdate (User._id user) b db
                    | _ => db
                    end).
  { unfold db', Handle, handle, protected. fold Gate. rewrite Hg.
    now destruct books. }
  rewrite E. destruct books as [| |b]; try (repeat split; auto; fail).
  split; [|split].
  - intros id' Hne. rewrite StoreFacts.findById_update.
    apply String.eqb_neq in Hne. rewrite Hne.
    now destruct (findById db (Some id')).
  - intros v Hin Hne. now apply in_update_other.
  - apply SetterFacts.map_update, identity_set_books.
Qed.

(** X6.  Nobody but the owner changes a book collection: when the
    document an id finds has other [books] after a request than before,
    the request is a [PUT /api/books] with an object as [books], sent
    with a header the gate resolves to that id, and the new [books] are
    the object sent. *)
Theorem books_change_only_by_owner (db : Store) (now : Z) (req : Request)
    (id : ObjectId) (u u' : User.t) :
  findById db (Some id) = Some u ->
  findById (snd (Handle db now req)) (Some id) = Some u' ->
  User.books u' <> User.books u ->
  exists authorization b user,
    req = PutBooks authorization (BooksObject b)
    /\ Gate db now authorization = Next user
    /\ User._id user = id /\ User.books u' = b.
Proof.
  intros Hf Hf' Hne.
  destruct (handle_store_cases db now req)
    as [E|[(oid & salt & n & e & p & _ & _ & _ & E)
          |(authorization & user & b & -> & Hg & _ & E)]];
    fold Handle in Hf'; rewrite E in Hf'.
  - exfalso. apply Hne. congruence.
  - exfalso. apply Hne. unfold findById, findOne in Hf, Hf'.
    rewrite (ListFacts.find_prefix _ db _ u Hf) in Hf'. congruence.
  - rewrite StoreFacts.findById_update, Hf in Hf'.
    destruct (String.eqb_spec id (User._id user)) as [Eid|Eid].
    + injection Hf' as <-. exists authorization, b, user. auto.
    + exfalso. apply Hne. congruence.
Qed.

(** X7.  [GET /api/books] never takes its [catch] clause: the
    handler looks up the user the gate has just found, so the answer is
    the response of the gate or the [books] of that user with status
    200, and the store is left alone. *)
Theorem get_books_never_fails (db : Store) (now : Z)
    (authorization : option string) :
  let r := Handle db now (GetBooks authorization) in
  snd r = db
  /\ fst r <> error_response 500 "Error fetching books"
  /\ ((exists res, Gate db now authorization = Rejected res /\ fst r = res)
      \/ (exists user,
            Gate db now authorization = Next user
            /\ fst r = json_response (books_json (User.books user)))).
Proof.
  intros r. unfold r, Handle, handle, protected. fold Gate.
  destruct (Gate db now authorization) as [res|user] eqn:Eg; simpl.
  - split; [reflexivity |]. split; [|left; eauto].
    apply (gate_rejected JWT_SECRET jwt_decode) in Eg as [ -> | [ -> | -> ] ];
      discriminate.
  - destruct (gate_next_in JWT_SECRET jwt_decode db now authorization user Eg)
      as [_ Hf].
    unfold get_books. rewrite Hf.
    split; [reflexivity |]. split; [discriminate | right; eauto].
Qed.

Lemma handle_valid_emails (db : Store) (now : Z) (req : Request) :
  (forall u, In u db -> isValidEmail (User.email u) = true) ->
  forall u, In u (snd (Handle db now req)) -> isValidEmail (User.email u) = true.
Proof.
  intros Hdb.
  destruct (handle_store_cases db now req)
    as [E|[(oid & salt & u & e & p & _ & _ & He & E)
          |(authorization & user & b & _ & _ & _ & E)]]; rewrite E.
  - exact Hdb.
  - intros x Hx. apply in_app_or in Hx as [Hx|[<-|[]]]; [now apply Hdb |].
    unfold new_User. simpl.
    rewrite (RegisterFacts.valid_email_trim e He).
    now rewrite EmailFacts.isValidEmail_toLowerCase.
  - intros x Hx. apply StoreFacts.in_update in Hx as [Hx|(v & Hv & _ & ->)];
      [now apply Hdb |].
    simpl. now apply Hdb.
Qed.

Lemma schema_ok_store_ok (db : Store) :
  schema_ok db <->
  store_ok db /\ forall u, In u db -> isValidEmail (User.email u) = true.
Proof.
  unfold schema_ok, store_ok, unique_usernames, unique_emails, unique_ids,
    well_stored.
  split.
  - intros (Hu & He & Hi & Hdoc). split; [|intros u Hin; apply (Hdoc u Hin)].
    split; [|auto].
    intros u Hin. destruct (Hdoc u Hin) as (Ht & Hne & Hl & Hv & Hp).
    split; [|split; [exact Ht |]].
    + unfold validate.
      destruct (String.eqb_spec (User.username u) ""); [contradiction |].
      destruct (String.eqb_spec (User.email u) "") as [E|_];
        [rewrite E in Hv; discriminate |].
      destruct (String.eqb_spec (User.password u) "") as [E|_];
        [rewrite E in Hp; simpl in Hp; lia |].
      cbn [negb andb]. apply (proj2 (Nat.leb_le _ _)). exact Hp.
    + now rewrite (RegisterFacts.valid_email_trim _ Hv).
  - intros [(Hws & Hu & He & Hi) Hvalid].
    split; [exact Hu |]. split; [exact He |]. split; [exact Hi |].
    intros u Hin. destruct (Hws u Hin) as (Hv & Htrim & Hlow).
    pose proof (Hvalid u Hin) as Hmail.
    split; [exact Htrim |].
    split; [now apply RegisterFacts.well_stored_username |].
    split; [|split; [exact Hmail |]].
    + now rewrite (RegisterFacts.valid_email_trim _ Hmail) in Hlow.
    + unfold validate in Hv. apply andb_true_iff in Hv as [_ Hlen].
      now apply Nat.leb_le in Hlen.
Qed.

(** The store after a registration whose lookup saw [db0] and whose
    insert sees [db]. *)
Lemma interleaved_cases (db0 db : Store) (now : Z) (oid : ObjectId)
    (salt : string) (username email password : option string) :
  let r := register_interleaved JWT_SECRET jwt_encode bcrypt_hash
             runSettersOnQuery db0 db now oid salt username email password in
  snd r = db
  \/ exists u e p,
       isValidEmail e = true
       /\ save db (new_User oid u e (bcrypt_hash p 10 salt) Books.empty)
          = inr (snd r).
Proof.
  intros r. unfold r, register_interleaved.
  destruct (register_check runSettersOnQuery db0 username email password)
    as [res|[[u e] p]] eqn:E; [now left |].
  apply register_check_inr in E as (_ & _ & _ & _ & He & _).
  unfold register_insert.
  destruct (save db _) as [[|field]|db'] eqn:Es; simpl; [now left | now left |].
  right. exists u, e, p. split; [exact He | exact Es].
Qed.

Lemma interleaved_schema_ok (db0 db : Store) (now : Z) (oid : ObjectId)
    (salt : string) (username email password : option string) :
  schema_ok db ->
  schema_ok (snd (register_interleaved JWT_SECRET jwt_encode bcrypt_hash
                    runSettersOnQuery db0 db now oid salt username email
                    password)).
Proof.
  intros Hdb.
  destruct (interleaved_cases db0 db now oid salt username email password)
    as [E|(u & e & p & He & Es)]; [now rewrite E |].
  apply schema_ok_store_ok in Hdb as [Hok Hvalid].
  apply schema_ok_store_ok.
  destruct (SetterFacts.new_User_cast oid u e (bcrypt_hash p 10 salt) Books.empty)
    as [Hcu Hce].
  split; [exact (SetterFacts.store_ok_save db _ _ Hok Hcu Hce Es) |].
  apply StoreFacts.save_ok in Es as [E _]. rewrite E.
  intros x Hx. apply in_app_or in Hx as [Hx|[<-|[]]]; [now apply Hvalid |].
  unfold new_User. simpl. rewrite (RegisterFacts.valid_email_trim e He).
  now rewrite EmailFacts.isValidEmail_toLowerCase.
Qed.

(** X8.  Every store the server reaches is as the schema wants it:
    usernames, addresses and ids are pairwise distinct; every username
    is trimmed and not empty, every address is lower-case and of the
    shape [isValidEmail] accepts, and every digest is at least six
    characters long.  This holds of the stores reached from the empty
    collection, it is kept by every request, and it is kept by a
    registration whose lookup saw an older store than its insert. *)
Theorem reachable_store_schema :
  (forall reqs, schema_ok (Run [] reqs))
  /\ (forall db now req, schema_ok db -> schema_ok (snd (Handle db now req)))
  /\ (forall db0 db now oid salt username email password,
        schema_ok db ->
        schema_ok (snd (register_interleaved JWT_SECRET jwt_encode bcrypt_hash
                          runSettersOnQuery db0 db now oid salt username email
                          password))).
Proof.
  assert (Hstep : forall db now req,
             schema_ok db -> schema_ok (snd (Handle db now req))).
  { intros db now req Hdb. apply schema_ok_store_ok in Hdb as [Hok Hvalid].
    apply schema_ok_store_ok. split.
    - now apply handle_store_ok.
    - now apply handle_valid_emails. }
  split; [|split; [exact Hstep | apply interleaved_schema_ok]].
  intros reqs.
  assert (Hgen : forall db, schema_ok db -> schema_ok (Run db reqs)).
  { induction reqs as [|[now req] reqs IH]; intros db Hdb; [exact Hdb |].
    simpl. apply IH. now apply Hstep. }
  apply Hgen. repeat split; try constructor. all: contradiction.
Qed.

End StoreSteps.

(** ** Sessions *)

Section Sessions.

Variable JWT_SECRET : option string.
Variable jwt_encode : Jwt.t -> string.
Variable jwt_decode : string -> option Jwt.t.
Variable bcrypt_hash : string -> nat -> string -> string.
Variable bcrypt_compare : string -> string -> bool.
Variable runSettersOnQuery : bool.

Let Gate := authenticateToken JWT_SECRET jwt_decode.
Let Handle :=
  handle JWT_SECRET jwt_encode jwt_decode bcrypt_hash bcrypt_compare
         runSettersOnQuery.
Let Register := register JWT_SECRET jwt_encode bcrypt_hash runSettersOnQuery.
Let Login := login JWT_SECRET jwt_encode bcrypt_compare runSettersOnQuery.

(** The gate reads the header through [header_token] only. *)
Lemma gate_reads_token (db : Store) (now : Z) (a a' : option string) :
  header_token a = header_token a' -> Gate db now a = Gate db now a'.
Proof. intros E. unfold Gate, authenticateToken. now rewrite E. Qed.

Lemma header_token_bearer (wire : string) :
  JsString.has_char " " wire = false ->
  header_token (Some ("Bearer " ++ wire)%string) = Some wire.
Proof.
  intros Hw.
  change ("Bearer " ++ wire)%string with ("Bearer" ++ String " " wire)%string.
  rewrite header_token_word by reflexivity.
  now rewrite (StringFacts.split_no_sep " " wire Hw).
Qed.

(** The header the client sends for a token that verifies and whose id
    finds a user. *)
Lemma gate_bearer (db : Store) (now : Z) (wire : string)
    (decoded : Jwt.payload) (user : User.t) :
  JsString.has_char " " wire = false -> wire <> "" ->
  Jwt.verify jwt_decode wire (secret JWT_SECRET) now = inr decoded ->
  findById db (Jwt.userId decoded) = Some user ->
  Gate db now (Some ("Bearer " ++ wire)%string) = Next user.
Proof.
  intros Hw Hne Hv Hf. unfold Gate, authenticateToken.
  rewrite (header_token_bearer wire Hw).
  rewrite (truthy_some wire Hne). simpl negb. cbv iota.
  assert (E : or_else (Some wire) "" = wire)
    by (destruct wire; [congruence | reflexivity]).
  now rewrite E, Hv, Hf.
Qed.

(** A token the server has issued, read back before its expiry. *)
Lemma verify_issued (user : User.t) (now now' : Z) (wire : string) :
  jwt_decode wire = Some (issue_token JWT_SECRET user now) ->
  (Jwt.clock now' < Jwt.clock now + 604800)%Z ->
  Jwt.verify jwt_decode wire (secret JWT_SECRET) now'
  = inr (Jwt.mkPayload (Some (User._id user)) (Jwt.clock now)
                       (Some (Jwt.clock now + 604800)%Z)).
Proof.
  intros Hd Ht. unfold Jwt.verify. rewrite Hd. unfold issue_token.
  rewrite JwtFacts.check_signed.
  change (Jwt.days 7) with 604800%Z.
  destruct (Z.leb_spec (Jwt.clock now + 604800) (Jwt.clock now'));
    [lia | reflexivity].
Qed.

(** X9.  The token of a registration opens the session of the new
    user: when the registration is answered 201, its body holds a token
    and the projection of the document created; sent back as
    [Bearer <token>] at any time before the expiry, the token is let
    through by the gate for that document, [GET /api/verify] returns the
    same projection and [GET /api/books] the three empty arrays. *)
Theorem register_then_authenticated (db : Store) (now now' : Z)
    (oid : ObjectId) (salt : string) (username email password : option string) :
  let r := Register db now oid salt username email password in
  status (fst r) = 201%Z ->
  exists doc wire,
    snd r = db ++ [doc]
    /\ body (fst r) = JObj [("message", JStr "User created successfully");
                            ("token", JStr wire);
                            ("user", public_user doc)]
    /\ (jwt_decode wire = Some (issue_token JWT_SECRET doc now) ->
        JsString.has_char " " wire = false -> wire <> "" ->
        (Jwt.clock now' < Jwt.clock now + 604800)%Z ->
        let bearer := Some ("Bearer " ++ wire)%string in
        Gate (snd r) now' bearer = Next doc
        /\ Handle (snd r) now' (GetVerify bearer)
           = (json_response (JObj [("user", public_user doc)]), snd r)
        /\ Handle (snd r) now' (GetBooks bearer)
           = (json_response (books_json Books.empty), snd r)).
Proof.
  intros r H201.
  assert (Hr : exists u e p,
             let doc := new_User oid u e (bcrypt_hash p 10 salt) Books.empty in
             save db doc = inr (db ++ [doc])
             /\ r = (mkResponse 201
                       (JObj [("message", JStr "User created successfully");
                              ("token",
                               JStr (jwt_encode (issue_token JWT_SECRET doc now)));
                              ("user", public_user doc)]),
                     db ++ [doc])).
  { revert H201. unfold r, Register, register, register_interleaved.
    destruct (register_check runSettersOnQuery db username email password)
      as [res|[[u e] p]] eqn:E.
    - apply register_check_inl in E. simpl. rewrite E. discriminate.
    - unfold register_insert.
      destruct (save db _) as [[|field]|db'] eqn:Es; simpl; try discriminate.
      intros _. pose proof Es as Hs.
      apply StoreFacts.save_ok in Hs as [-> _]. exists u, e, p. auto. }
  destruct Hr as (u & e & p & Hsave & Er).
  set (doc := new_User oid u e (bcrypt_hash p 10 salt) Books.empty) in *.
  exists doc, (jwt_encode (issue_token JWT_SECRET doc now)).
  rewrite Er. simpl fst. simpl snd.
  split; [reflexivity |]. split; [reflexivity |].
  intros Hd Hw Hne Ht bearer.
  apply StoreFacts.save_ok in Hsave as (_ & _ & Hfresh & _).
  assert (Hf : findById (db ++ [doc]) (Some (User._id doc)) = Some doc).
  { unfold findById, findOne. rewrite ListFacts.find_snoc.
    - now rewrite String.eqb_refl.
    - intros x Hx. apply String.eqb_neq. now apply Hfresh. }
  assert (Hg : Gate (db ++ [doc]) now' bearer = Next doc).
  { apply (gate_bearer _ _ _ _ _ Hw Hne (verify_issued doc now now' _ Hd Ht)).
    exact Hf. }
  split; [exact Hg |].
  unfold Handle, handle, protected. fold Gate. rewrite Hg.
  split; [reflexivity |]. unfold get_books. now rewrite Hf.
Qed.

(** X10.  The token of a login opens the session of the user who
    logged in: when the login is answered 200, its body holds a token
    and the projection of a document of the store; sent back as
    [Bearer <token>] before the expiry, the token is let through for a
    document with the same id, which is that very document when ids are
    unique. *)
Theorem login_then_authenticated (db : Store) (now now' : Z)
    (usernameOrEmail password : option string) :
  status (Login db now usernameOrEmail password) = 200%Z ->
  exists user wire,
    In user db
    /\ body (Login db now usernameOrEmail password)
       = JObj [("message", JStr "Login successful");
               ("token", JStr wire);
               ("user", public_user user)]
    /\ (jwt_decode wire = Some (issue_token JWT_SECRET user now) ->
        JsString.has_char " " wire = false -> wire <> "" ->
        (Jwt.clock now' < Jwt.clock now + 604800)%Z ->
        (exists user', Gate db now' (Some ("Bearer " ++ wire)%string) = Next user'
                       /\ User._id user' = User._id user)
        /\ (unique_ids db ->
            Gate db now' (Some ("Bearer " ++ wire)%string) = Next user)).
Proof.
  intros H200.
  destruct (login_outcome JWT_SECRET jwt_encode bcrypt_compare runSettersOnQuery
              db now usernameOrEmail password) as [[H400 _]|(user & Hin & E)].
  { unfold Login in H200. rewrite H400 in H200. discriminate. }
  exists user, (jwt_encode (issue_token JWT_SECRET user now)).
  unfold Login. rewrite E. simpl body.
  split; [exact Hin |]. split; [reflexivity |].
  intros Hd Hw Hne Ht.
  destruct (findById db (Some (User._id user))) as [user'|] eqn:Hf.
  - pose proof (StoreFacts.findById_in db _ user' Hf) as [Hin' Hid].
    pose proof (gate_bearer db now' _ _ user' Hw Hne
                  (verify_issued user now now' _ Hd Ht) Hf) as Hg.
    split; [eauto |].
    intros Huniq.
    now rewrite (RegisterFacts.unique_key User._id db user' user Huniq Hin' Hin Hid)
      in Hg.
  - exfalso. apply (proj1 (StoreFacts.findById_none db _) Hf user Hin).
    reflexivity.
Qed.

(** X11.  The secret has a public default: when [JWT_SECRET] is not
    set, or is the empty string, the tokens of the server are signed
    with the string ['your-secret-key'] of the source, and the gate lets
    through, as any user of the store, whoever presents a token for the
    id of that user signed with that string and not expired; without an
    [exp] stamp, at any time. *)
Theorem default_secret_is_public (db : Store) (now : Z) (wire : string)
    (token : Jwt.t) (user : User.t) :
  JWT_SECRET = None \/ JWT_SECRET = Some "" ->
  secret JWT_SECRET = "your-secret-key"
  /\ (forall u T, Jwt.key (issue_token JWT_SECRET u T) = "your-secret-key")
  /\ (jwt_decode wire = Some token ->
      JsString.has_char " " wire = false -> wire <> "" ->
      Jwt.key token = "your-secret-key" ->
      Jwt.userId (Jwt.claims token) = Some (User._id user) ->
      match Jwt.exp (Jwt.claims token) with
      | Some e => (Jwt.clock now < e)%Z
      | None => True
      end ->
      findById db (Some (User._id user)) = Some user ->
      Gate db now (Some ("Bearer " ++ wire)%string) = Next user).
Proof.
  intros Hs.
  assert (E : secret JWT_SECRET = "your-secret-key")
    by (destruct Hs as [Hs|Hs]; rewrite Hs; reflexivity).
  split; [exact E |]. split.
  - intros u T. unfold issue_token, Jwt.sign. simpl. exact E.
  - intros Hd Hw Hne Hk Hid Hexp Hf.
    apply (gate_bearer db now wire (Jwt.claims token) user Hw Hne);
      [|now rewrite Hid].
    unfold Jwt.verify. rewrite Hd. unfold Jwt.check. rewrite E, Hk.
    rewrite String.eqb_refl. simpl negb. cbv iota.
    destruct (Jwt.exp (Jwt.claims token)) as [e|]; [|reflexivity].
    apply Z.leb_gt in Hexp. now rewrite Hexp.
Qed.

(** X12.  How the gate cuts the header: two spaces after the first
    piece make the token the empty piece between them, and the request
    is answered 401 whatever follows; and pieces after the second are
    dropped, so that a header with text behind the token is treated as
    the header without it. *)
Theorem auth_header_pieces (db : Store) (now : Z) :
  (forall word rest : string,
      JsString.has_char " " word = false ->
      Gate db now (Some (word ++ "  " ++ rest)%string)
      = Rejected (error_response 401 "Access token required"))
  /\ (forall word t rest : string,
        JsString.has_char " " word = false ->
        JsString.has_char " " t = false ->
        Gate db now (Some (word ++ " " ++ t ++ " " ++ rest)%string)
        = Gate db now (Some (word ++ " " ++ t)%string)).
Proof.
  split.
  - intros word rest Hw. unfold Gate, authenticateToken.
    change (word ++ "  " ++ rest)%string
      with (word ++ String " " (String " " rest))%string.
    rewrite (header_token_word word _ Hw). reflexivity.
  - intros word t rest Hw Ht. apply gate_reads_token.
    change (word ++ " " ++ t ++ " " ++ rest)%string
      with (word ++ String " " (t ++ String " " rest))%string.
    change (word ++ " " ++ t)%string with (word ++ String " " t)%string.
    rewrite !(header_token_word word _ Hw).
    rewrite (StringFacts.split_word " " t rest Ht).
    now rewrite (StringFacts.split_no_sep " " t Ht).
Qed.

(** X13.  An expired token closes the session: from the second the
    token of a registration or a login expires, seven days after its
    issue, the gate answers its header with 403, whether or not the user
    is still in the store. *)
Theorem expired_session_rejected (db : Store) (user : User.t) (T now : Z)
    (wire : string) :
  jwt_decode wire = Some (issue_token JWT_SECRET user T) ->
  JsString.has_char " " wire = false -> wire <> "" ->
  (Jwt.clock T + 604800 <= Jwt.clock now)%Z ->
  Gate db now (Some ("Bearer " ++ wire)%string)
  = Rejected (error_response 403 "Invalid or expired token")
  /\ forall handler,
       protected JWT_SECRET jwt_decode db now
                 (Some ("Bearer " ++ wire)%string) handler
       = (error_response 403 "Invalid or expired token", db).
Proof.
  intros Hd Hw Hne Ht.
  assert (Hg : Gate db now (Some ("Bearer " ++ wire)%string)
               = Rejected (error_response 403 "Invalid or expired token")).
  { unfold Gate, authenticateToken.
    rewrite (header_token_bearer wire Hw), (truthy_some wire Hne).
    simpl negb. cbv iota.
    assert (E : or_else (Some wire) "" = wire)
      by (destruct wire; [congruence | reflexivity]).
    rewrite E. unfold Jwt.verify. rewrite Hd. unfold issue_token.
    rewrite JwtFacts.check_signed. change (Jwt.days 7) with 604800%Z.
    apply Z.leb_le in Ht. now rewrite Ht. }
  split; [exact Hg |].
  intros handler. unfold protected. fold Gate. now rewrite Hg.
Qed.

End Sessions.

(** ** Accounts *)

Module AccountFacts.

Lemma truthy_inv (v : option string) :
  JsString.truthy v = true -> exists s, v = Some s /\ s <> "" /\ or_else v "" = s.
Proof.
  destruct v as [[|c s]|]; simpl; try discriminate.
  intros _. exists (String c s). repeat split. discriminate.
Qed.

Lemma truthy_length (s : string) (n : nat) :
  S n <= String.length s -> JsString.truthy (Some s) = true.
Proof. destruct s; simpl; [lia | reflexivity]. Qed.

Lemma trim_stored_email (e : string) :
  JsString.trim (JsString.toLowerCase (JsString.trim e))
  = JsString.toLowerCase (JsString.trim e).
Proof. now rewrite SetterFacts.trim_toLowerCase, SetterFacts.trim_idem. Qed.

End AccountFacts.

Section Accounts.

Variable JWT_SECRET : option string.
Variable jwt_encode : Jwt.t -> string.
Variable bcrypt_hash : string -> nat -> string -> string.
Variable bcrypt_compare : string -> string -> bool.
Variable runSettersOnQuery : bool.

Let Register := register JWT_SECRET jwt_encode bcrypt_hash runSettersOnQuery.
Let Login := login JWT_SECRET jwt_encode bcrypt_compare runSettersOnQuery.

(** A registration answered 201, in full. *)
Lemma register_201 (db : Store) (now : Z) (oid : ObjectId) (salt : string)
    (username email password : option string) :
  status (fst (Register db now oid salt username email password)) = 201%Z ->
  exists u e p,
    let doc := new_User oid u e (bcrypt_hash p 10 salt) Books.empty in
    username = Some u /\ email = Some e /\ password = Some p
    /\ 3 <= String.length u /\ isValidEmail e = true /\ 6 <= String.length p
    /\ save db doc = inr (db ++ [doc])
    /\ Register db now oid salt username email password
       = (mkResponse 201
            (JObj [("message", JStr "User created successfully");
                   ("token", JStr (jwt_encode (issue_token JWT_SECRET doc now)));
                   ("user", public_user doc)]),
          db ++ [doc]).
Proof.
  unfold Register, register, register_interleaved.
  destruct (register_check runSettersOnQuery db username email password)
    as [res|[[u e] p]] eqn:E.
  - apply register_check_inl in E. simpl. rewrite E. discriminate.
  - apply register_check_inr in E as (-> & -> & -> & Hu & He & Hp).
    unfold register_insert.
    destruct (save db _) as [[|field]|db'] eqn:Es; simpl; try discriminate.
    intros _. pose proof Es as Hs.
    apply StoreFacts.save_ok in Hs as [-> _]. exists u, e, p.
    repeat split; assumption.
Qed.

(** X14.  What a registration stores and shows: when it is answered
    201, the document appended has the id drawn, the username trimmed,
    the address lower-cased, the digest of the password and the three
    empty arrays, and the [user] of the body shows the trimmed username
    and the lower-cased address, not the strings of the request.  The
    bound of three characters is on the username as sent; what is
    stored is only known not to be empty. *)
Theorem register_stores_normalised (db : Store) (now : Z) (oid : ObjectId)
    (salt : string) (username email password : option string) :
  let r := Register db now oid salt username email password in
  status (fst r) = 201%Z ->
  exists u e p,
    username = Some u /\ email = Some e /\ password = Some p
    /\ snd r = db ++ [User.mk oid (JsString.trim u) (JsString.toLowerCase e)
                              (bcrypt_hash p 10 salt) Books.empty]
    /\ member "user" (body (fst r))
       = Some (JObj [("id", JStr oid);
                     ("username", JStr (JsString.trim u));
                     ("email", JStr (JsString.toLowerCase e))])
    /\ 3 <= String.length u /\ JsString.trim u <> "".
Proof.
  intros r H201.
  destruct (register_201 db now oid salt username email password H201)
    as (u & e & p & Eu & Ee & Ep & Hu & He & Hp & Hs & Er).
  exists u, e, p. unfold r. rewrite Er. simpl fst. simpl snd.
  unfold new_User. rewrite (RegisterFacts.valid_email_trim e He).
  repeat split; try assumption.
  apply StoreFacts.save_ok in Hs as (_ & Hv & _).
  unfold validate, new_User in Hv. simpl in Hv.
  destruct (String.eqb_spec (JsString.trim u) ""); [discriminate | assumption].
Qed.

(** X15.  Who has registered can log in: after a registration answered
    201, a login with the stored address and the password of the
    registration is answered 200 with the projection of the new user,
    provided [bcrypt.compare] accepts the digest [bcrypt.hash] made of
    that password, and no older user has that address as a username;
    and likewise a login with the stored username, provided no older
    user has it as an address. *)
Theorem register_then_login (db : Store) (now now' : Z) (oid : ObjectId)
    (salt u e p : string) :
  let r := Register db now oid salt (Some u) (Some e) (Some p) in
  let doc := new_User oid u e (bcrypt_hash p 10 salt) Books.empty in
  let session :=
    json_response
      (JObj [("message", JStr "Login successful");
             ("token", JStr (jwt_encode (issue_token JWT_SECRET doc now')));
             ("user", public_user doc)]) in
  status (fst r) = 201%Z ->
  bcrypt_compare p (bcrypt_hash p 10 salt) = true ->
  snd r = db ++ [doc]
  /\ ((forall x, In x db -> User.username x <> User.email doc) ->
      Login (snd r) now' (Some (User.email doc)) (Some p) = session)
  /\ ((forall x, In x db ->
                 User.email x <> cast_email runSettersOnQuery (User.username doc)) ->
      Login (snd r) now' (Some (User.username doc)) (Some p) = session).
Proof.
  intros r doc session H201 Hcmp.
  destruct (register_201 db now oid salt _ _ _ H201)
    as (u' & e' & p' & Eu & Ee & Ep & Hu & He & Hp & Hs & Er).
  injection Eu as <-. injection Ee as <-. injection Ep as <-.
  fold doc in Hs, Er.
  assert (Esnd : snd r = db ++ [doc]) by (unfold r; now rewrite Er).
  apply StoreFacts.save_ok in Hs as (_ & Hv & _ & Hname & Hmail).
  destruct (SetterFacts.new_User_cast oid u e (bcrypt_hash p 10 salt) Books.empty)
    as [Htu Hte]. fold doc in Htu, Hte.
  assert (Hne_u : User.username doc <> "").
  { unfold validate in Hv. destruct (String.eqb_spec (User.username doc) "");
      [discriminate | assumption]. }
  assert (Hne_e : User.email doc <> "").
  { unfold validate in Hv. destruct (String.eqb_spec (User.email doc) "");
      [rewrite andb_false_r in Hv; discriminate | assumption]. }
  assert (Hcast_u : forall s, JsString.trim s = s ->
                              cast_username runSettersOnQuery s = s)
    by (intros s Hs; unfold cast_username; now destruct runSettersOnQuery).
  assert (Htrim_e : JsString.trim (User.email doc) = User.email doc)
    by apply AccountFacts.trim_stored_email.
  assert (Hcast_e : cast_email runSettersOnQuery (User.email doc) = User.email doc)
    by (unfold cast_email; now destruct runSettersOnQuery).
  assert (Hlogin : forall id,
             id <> "" ->
             findOne (username_or_email runSettersOnQuery id) (db ++ [doc])
             = Some doc ->
             Login (db ++ [doc]) now' (Some id) (Some p) = session).
  { intros id Hid Hf. unfold Login, login.
    rewrite (truthy_some id Hid), (AccountFacts.truthy_length p 5 Hp).
    simpl orb. cbv iota.
    assert (Eid : or_else (Some id) "" = id)
      by (destruct id; [congruence | reflexivity]).
    assert (Epw : or_else (Some p) "" = p)
      by (destruct p; [simpl in Hp; lia | reflexivity]).
    rewrite Eid, Epw, Hf.
    change (User.password doc) with (bcrypt_hash p 10 salt).
    rewrite Hcmp. reflexivity. }
  rewrite Esnd. split; [reflexivity |]. split.
  - intros Hfree. apply Hlogin; [exact Hne_e |].
    unfold findOne. rewrite ListFacts.find_snoc.
    + unfold username_or_email. rewrite Hcast_e, String.eqb_refl.
      now rewrite orb_true_r.
    + intros x Hx. unfold username_or_email.
      rewrite (Hcast_u _ Htrim_e), Hcast_e. apply orb_false_iff.
      split; apply String.eqb_neq; [now apply Hfree | now apply Hmail].
  - intros Hfree. apply Hlogin; [exact Hne_u |].
    unfold findOne. rewrite ListFacts.find_snoc.
    + unfold username_or_email. now rewrite (Hcast_u _ Htu), String.eqb_refl.
    + intros x Hx. unfold username_or_email.
      rewrite (Hcast_u _ Htu). apply orb_false_iff.
      split; apply String.eqb_neq; [now apply Hname | now apply Hfree].
Qed.

(** X16.  The login judges the first document that has the identifier
    as its username or as its address.  When the username of one user is
    the address of another, or the other way round, whoever comes first
    in the store is the one looked at: a login with that identifier and
    a password the digest of the first does not match is answered 400,
    also when it is the password of the second. *)
Theorem login_judges_first_match (l1 l2 : Store) (x y : User.t) (now : Z)
    (id p : string) :
  let db := l1 ++ x :: l2 in
  store_ok db -> In y l2 ->
  (User.username x = id /\ User.email y = id)
  \/ (User.email x = id /\ User.username y = id) ->
  p <> "" ->
  findOne (username_or_email runSettersOnQuery id) db = Some x
  /\ (bcrypt_compare p (User.password x) = false ->
      Login db now (Some id) (Some p) = error_response 400 "Invalid credentials").
Proof.
  intros db (Hws & Hun & Hem & _) Hy Hid Hp.
  assert (Hx_in : In x db) by (apply in_or_app; right; now left).
  assert (Hy_in : In y db) by (apply in_or_app; right; now right).
  assert (Hcu : cast_username runSettersOnQuery id = id).
  { destruct Hid as [[E _]|[_ E]]; rewrite <- E;
      apply RegisterFacts.cast_username_stored; auto. }
  assert (Hce : cast_email runSettersOnQuery id = id).
  { destruct Hid as [[_ E]|[E _]]; rewrite <- E;
      apply RegisterFacts.cast_email_stored; auto. }
  assert (Hne : id <> "").
  { destruct Hid as [[E _]|[_ E]]; rewrite <- E;
      apply RegisterFacts.well_stored_username; auto. }
  assert (Hfind : findOne (username_or_email runSettersOnQuery id) db = Some x).
  { unfold findOne, db. apply ListFacts.find_middle.
    - intros z Hz. unfold username_or_email. rewrite Hcu, Hce.
      assert (Hx_back : In x (x :: l2)) by now left.
      assert (Hy_back : In y (x :: l2)) by now right.
      apply orb_false_iff. split; apply String.eqb_neq; intros E.
      + destruct Hid as [[Ex _]|[_ Ey]].
        * apply (ListFacts.keys_apart User.username l1 (x :: l2) z x Hun Hz Hx_back).
          congruence.
        * apply (ListFacts.keys_apart User.username l1 (x :: l2) z y Hun Hz Hy_back).
          congruence.
      + destruct Hid as [[_ Ey]|[Ex _]].
        * apply (ListFacts.keys_apart User.email l1 (x :: l2) z y Hem Hz Hy_back).
          congruence.
        * apply (ListFacts.keys_apart User.email l1 (x :: l2) z x Hem Hz Hx_back).
          congruence.
    - unfold username_or_email. rewrite Hcu, Hce.
      destruct Hid as [[E _]|[E _]]; rewrite E, String.eqb_refl;
        [reflexivity | apply orb_true_r]. }
  split; [exact Hfind |].
  intros Hcmp. unfold Login, login.
  rewrite (truthy_some id Hne), (truthy_some p Hp). simpl orb. cbv iota.
  assert (Eid : or_else (Some id) "" = id)
    by (destruct id; [congruence | reflexivity]).
  assert (Epw : or_else (Some p) "" = p)
    by (destruct p; [congruence | reflexivity]).
  rewrite Eid, Epw, Hfind, Hcmp. reflexivity.
Qed.


(** X18.  A username of white space only: such a username of three
    characters or more passes the checks of the handler, and then the
    document [new User] builds has the empty username and fails the
    validation of the schema.  With a well-formed address and password
    the request is answered 500, or 400 for an address that is already
    there as it was sent; never 201, and the store stays as it was. *)
Theorem register_blank_username (db : Store) (now : Z) (oid : ObjectId)
    (salt u e p : string) :
  3 <= String.length u -> JsString.trim u = "" ->
  isValidEmail e = true -> 6 <= String.length p ->
  (forall x, In x db -> well_stored x) ->
  let r := Register db now oid salt (Some u) (Some e) (Some p) in
  snd r = db
  /\ (fst r = error_response 500 "Server error during registration"
      \/ (fst r = error_response 400 "Email already exists"
          /\ exists x, In x db /\ User.email x = e))
  /\ ((forall x, In x db -> User.email x <> e) ->
      fst r = error_response 500 "Server error during registration").
Proof.
  intros Hu Hblank He Hp Hws r.
  assert (Hins : register_insert JWT_SECRET jwt_encode bcrypt_hash db now oid
                                 salt u e p
                 = (error_response 500 "Server error during registration", db)).
  { unfold register_insert, save, validate, new_User. simpl.
    rewrite Hblank. reflexivity. }
  assert (Hcases : r = (error_response 500 "Server error during registration", db)
                   \/ (r = (error_response 400 "Email already exists", db)
                       /\ exists x, In x db /\ User.email x = e)).
  { unfold r, Register, register, register_interleaved.
    rewrite (register_check_valid runSettersOnQuery db u e p Hu He Hp).
    destruct (findOne (email_or_username runSettersOnQuery e u) db)
      as [x|] eqn:Ef; [|now left].
    apply find_some in Ef as [Hx _].
    destruct (String.eqb_spec (User.email x) e) as [Ee|Ee]; [right; eauto |].
    destruct (String.eqb_spec (User.username x) u) as [Eu|Eu]; [|now left].
    exfalso. destruct (Hws x Hx) as (_ & Ht & _).
    rewrite Eu, Hblank in Ht. rewrite <- Ht in Hu. simpl in Hu. lia. }
  split; [|split].
  - destruct Hcases as [ -> | [ -> _ ] ]; reflexivity.
  - destruct Hcases as [ -> | [ -> Hx ] ]; simpl; auto.
  - intros Hfree. destruct Hcases as [ -> | [ _ (x & Hx & Ex) ] ];
      [reflexivity |].
    now elim (Hfree x Hx).
Qed.

End Accounts.

(** ** The AI proxies *)

Section AiProxyFacts.

Variable JWT_SECRET : option string.
Variable jwt_decode : string -> option Jwt.t.
Variable GEMINI_API_KEY : option string.

Let Gate := authenticateToken JWT_SECRET jwt_decode.
Let Summary := post_ai_summary JWT_SECRET jwt_decode GEMINI_API_KEY.
Let Recommend := post_ai_recommendations JWT_SECRET jwt_decode GEMINI_API_KEY.

Lemma falsy_cases (v : option string) :
  JsString.truthy v = false <-> v = None \/ v = Some "".
Proof.
  destruct v as [[|c s]|]; simpl; split; auto; try discriminate.
  intros [H|H]; discriminate H.
Qed.

(** X19.  [POST /api/ai-summary] calls the provider for a session
    only: the response of the gate comes first, then the 400 for a
    missing or empty title or author, then the 500 for a missing or
    empty API key; the provider is called in the one case that is left,
    with the key in the URL and a body that holds the prompt made of
    the title and the author. *)
Theorem ai_summary_outcomes (db : Store) (now : Z)
    (authorization title author : option string) :
  let out := Summary db now authorization title author in
  (forall res, Gate db now authorization = Rejected res -> out = Answered res)
  /\ (forall user,
        Gate db now authorization = Next user ->
        (title = None \/ title = Some "" \/ author = None \/ author = Some "" ->
         out = Answered (error_response 400 "Title and author are required"))
        /\ (forall t a,
              title = Some t -> author = Some a -> t <> "" -> a <> "" ->
              (GEMINI_API_KEY = None \/ GEMINI_API_KEY = Some "" ->
               out = Answered (error_response 500 "AI service is not configured"))
              /\ (forall k,
                    GEMINI_API_KEY = Some k -> k <> "" ->
                    out = Fetch (mkUpstreamCall
                                   (generateContent k)
                                   (JObj [("contents",
                                           chatHistory (summary_prompt t a))])))))
  /\ (forall call,
        out = Fetch call ->
        exists user t a k,
          Gate db now authorization = Next user
          /\ title = Some t /\ t <> "" /\ author = Some a /\ a <> ""
          /\ GEMINI_API_KEY = Some k /\ k <> ""
          /\ apiUrl call = generateContent k).
Proof.
  intros out. unfold out, Summary, post_ai_summary, proxied. fold Gate.
  split; [|split].
  - intros res Hg. now rewrite Hg.
  - intros user Hg. rewrite Hg. unfold ai_summary. split.
    + intros H.
      assert (E : negb (JsString.truthy title) || negb (JsString.truthy author)
                  = true).
      { apply orb_true_iff.
        destruct H as [H|[H|[H|H]]]; rewrite H; simpl; auto. }
      now rewrite E.
    + intros t a -> -> Ht Ha.
      rewrite (truthy_some t Ht), (truthy_some a Ha). simpl orb. cbv iota.
      assert (Et : or_else (Some t) "" = t)
        by (destruct t; [congruence | reflexivity]).
      assert (Ea : or_else (Some a) "" = a)
        by (destruct a; [congruence | reflexivity]).
      rewrite Et, Ea. split.
      * intros Hk. apply falsy_cases in Hk. now rewrite Hk.
      * intros k Hk Hne. rewrite Hk, (truthy_some k Hne). simpl negb. cbv iota.
        destruct k; [congruence | reflexivity].
  - intros call.
    destruct (Gate db now authorization) as [res|user]; [discriminate |].
    unfold ai_summary.
    destruct (JsString.truthy title) eqn:Tt; [|discriminate].
    destruct (JsString.truthy author) eqn:Ta; [|discriminate].
    destruct (JsString.truthy GEMINI_API_KEY) eqn:Tk; [|discriminate].
    simpl. intros H. injection H as <-.
    destruct (AccountFacts.truthy_inv _ Tt) as (t & Et & Ht & _).
    destruct (AccountFacts.truthy_inv _ Ta) as (a & Ea & Ha & _).
    destruct (AccountFacts.truthy_inv _ Tk) as (k & Ek & Hk & Eor).
    exists user, t, a, k. rewrite Eor. repeat split; assumption.
Qed.

(** X20.  [POST /api/ai-recommendations] calls the provider for a
    session only: the response of the gate comes first, then the 400 for
    a missing or empty genre, then the 500 for a missing or empty API
    key; the provider is called in the one case that is left, with the
    key in the URL and a body that holds the prompt made of the genre,
    and the schema of the answer. *)
Theorem ai_recommendations_outcomes (db : Store) (now : Z)
    (authorization : option string) (uniqueId : string)
    (genre : option string) :
  let out := Recommend db now authorization uniqueId genre in
  (forall res, Gate db now authorization = Rejected res -> out = Answered res)
  /\ (forall user,
        Gate db now authorization = Next user ->
        (genre = None \/ genre = Some "" ->
         out = Answered (error_response 400 "Genre is required"))
        /\ (forall g,
              genre = Some g -> g <> "" ->
              (GEMINI_API_KEY = None \/ GEMINI_API_KEY = Some "" ->
               out = Answered (error_response 500 "AI service is not configured"))
              /\ (forall k,
                    GEMINI_API_KEY = Some k -> k <> "" ->
                    out = Fetch (mkUpstreamCall
                                   (generateContent k)
                                   (JObj [("contents",
                                           chatHistory
                                             (recommendations_prompt g uniqueId));
                                          ("generationConfig",
                                           generationConfig)])))))
  /\ (forall call,
        out = Fetch call ->
        exists user g k,
          Gate db now authorization = Next user
          /\ genre = Some g /\ g <> ""
          /\ GEMINI_API_KEY = Some k /\ k <> ""
          /\ apiUrl call = generateContent k).
Proof.
  intros out. unfold out, Recommend, post_ai_recommendations, proxied. fold Gate.
  split; [|split].
  - intros res Hg. now rewrite Hg.
  - intros user Hg. rewrite Hg. unfold ai_recommendations. split.
    + intros H. apply falsy_cases in H. now rewrite H.
    + intros g -> Hg'.
      rewrite (truthy_some g Hg'). simpl negb. cbv iota.
      assert (Eg : or_else (Some g) "" = g)
        by (destruct g; [congruence | reflexivity]).
      rewrite Eg. split.
      * intros Hk. apply falsy_cases in Hk. now rewrite Hk.
      * intros k Hk Hne. rewrite Hk, (truthy_some k Hne). simpl negb. cbv iota.
        destruct k; [congruence | reflexivity].
  - intros call.
    destruct (Gate db now authorization) as [res|user]; [discriminate |].
    unfold ai_recommendations.
    destruct (JsString.truthy genre) eqn:Tg; [|discriminate].
    destruct (JsString.truthy GEMINI_API_KEY) eqn:Tk; [|discriminate].
    simpl. intros H. injection H as <-.
    destruct (AccountFacts.truthy_inv _ Tg) as (g & Eg & Hg & _).
    destruct (AccountFacts.truthy_inv _ Tk) as (k & Ek & Hk & Eor).
    exists user, g, k. rewrite Eor. repeat split; assumption.
Qed.

End AiProxyFacts.

(** ** The serverless handlers *)

Section ServerlessFacts.

Import Serverless.

Variable JWT_SECRET : option string.
Variable jwt_sign : Json -> string -> Z -> Z -> string.
Variable bcrypt_hash : string -> nat -> string -> string.
Variable bcrypt_compare : string -> string -> bool.

Let Register := Serverless.register JWT_SECRET jwt_sign bcrypt_hash.
Let Login := Serverless.login JWT_SECRET jwt_sign bcrypt_compare.
Let Sign := Serverless.sign JWT_SECRET jwt_sign.

Lemma find_none_iff {A : Type} (f : A -> bool) (l : list A) :
  find f l = None <-> forall x, In x l -> f x = false.
Proof.
  split; [apply find_none |].
  intros H. destruct (find f l) as [x|] eqn:E; [|reflexivity].
  apply find_some in E as [Hx Hf]. rewrite (H x Hx) in Hf. discriminate.
Qed.

Lemma free_key (key : Account.t -> string) (users : Users) (v : string) :
  find (fun u => String.eqb (key u) v) users = None
  <-> forall x, In x users -> key x <> v.
Proof.
  rewrite find_none_iff. split; intros H x Hx.
  - apply String.eqb_neq. now apply H.
  - apply String.eqb_neq. now apply H.
Qed.

(** What the registration does with a request that passes its
    checks. *)
Lemma register_accepted (users : Users) (now : Z) (createdAt salt u e p : string) :
  u <> "" -> e <> "" -> 6 <= String.length p ->
  (forall x, In x users -> Account.email x <> e) ->
  (forall x, In x users -> Account.username x <> u) ->
  let user := Account.mk (Z.of_nat (List.length users) + 1) u e
                         (bcrypt_hash p 12 salt) createdAt in
  Register users now createdAt salt (Some u) (Some e) (Some p)
  = match Sign user now with
    | Some token =>
        (mkResponse 201
           (JObj [("user", JObj [("id", JNum (Account.id user));
                                 ("username", JStr u); ("email", JStr e)]);
                  ("token", JStr token)]),
         users ++ [user])
    | None => (error_response 500 "Internal server error", users ++ [user])
    end.
Proof.
  intros Hu He Hp Hmail Hname user. unfold Register, Serverless.register.
  rewrite (truthy_some u Hu), (truthy_some e He),
    (AccountFacts.truthy_length p 5 Hp).
  simpl orb. cbv iota.
  assert (Eu : or_else (Some u) "" = u)
    by (destruct u; [congruence | reflexivity]).
  assert (Ee : or_else (Some e) "" = e)
    by (destruct e; [congruence | reflexivity]).
  assert (Ep : or_else (Some p) "" = p)
    by (destruct p; [simpl in Hp; lia | reflexivity]).
  rewrite Eu, Ee, Ep.
  rewrite (length_ge_ltb p 6 Hp).
  rewrite (proj2 (free_key Account.email users e) Hmail).
  rewrite (proj2 (free_key Account.username users u) Hname).
  reflexivity.
Qed.

(** The array changes only when the checks are passed. *)
Lemma register_cases (users : Users) (now : Z) (createdAt salt : string)
    (username email password : option string) :
  let r := Register users now createdAt salt username email password in
  (snd r = users /\ status (fst r) = 400%Z)
  \/ (exists u e p,
        username = Some u /\ email = Some e /\ password = Some p
        /\ u <> "" /\ e <> "" /\ 6 <= String.length p
        /\ (forall x, In x users -> Account.email x <> e)
        /\ (forall x, In x users -> Account.username x <> u)).
Proof.
  intros r. unfold r, Register, Serverless.register.
  destruct (JsString.truthy username) eqn:Tu; [|left; split; reflexivity].
  destruct (JsString.truthy email) eqn:Te; [|left; split; reflexivity].
  destruct (JsString.truthy password) eqn:Tp; [|left; split; reflexivity].
  simpl orb. cbv iota.
  destruct (AccountFacts.truthy_inv _ Tu) as (u & -> & Hu & Eu).
  destruct (AccountFacts.truthy_inv _ Te) as (e & -> & He & Ee).
  destruct (AccountFacts.truthy_inv _ Tp) as (p & -> & Hp & Ep).
  rewrite Eu, Ee, Ep.
  destruct (Nat.ltb_spec (String.length p) 6) as [Hlt|Hge];
    [left; split; reflexivity |].
  destruct (find (fun x => String.eqb (Account.email x) e) users) eqn:Fe;
    [left; split; reflexivity |].
  destruct (find (fun x => String.eqb (Account.username x) u) users) eqn:Fu;
    [left; split; reflexivity |].
  right. exists u, e, p.
  pose proof (proj1 (free_key Account.email users e) Fe) as Hfm.
  pose proof (proj1 (free_key Account.username users u) Fu) as Hfn.
  repeat split; assumption.
Qed.


(** X22.  Without a secret the serverless registration keeps the
    account and reports a failure: when [JWT_SECRET] is not set or
    empty, a request that passes the checks is answered 500 after the
    user has been pushed onto the array, and the same request sent again
    is answered 400 for an address already registered. *)
Theorem serverless_register_without_secret (users : Users) (now now' : Z)
    (createdAt createdAt' salt salt' u e p : string) :
  JWT_SECRET = None \/ JWT_SECRET = Some "" ->
  u <> "" -> e <> "" -> 6 <= String.length p ->
  (forall x, In x users -> Account.email x <> e) ->
  (forall x, In x users -> Account.username x <> u) ->
  let r := Register users now createdAt salt (Some u) (Some e) (Some p) in
  r = (error_response 500 "Internal server error",
       users ++ [Account.mk (Z.of_nat (List.length users) + 1) u e
                            (bcrypt_hash p 12 salt) createdAt])
  /\ Register (snd r) now' createdAt' salt' (Some u) (Some e) (Some p)
     = (error_response 400 "Email already registered", snd r).
Proof.
  intros Hs Hu He Hp Hmail Hname r.
  assert (Er : r = (error_response 500 "Internal server error",
                    users ++ [Account.mk (Z.of_nat (List.length users) + 1) u e
                                         (bcrypt_hash p 12 salt) createdAt])).
  { unfold r.
    rewrite (register_accepted users now createdAt salt u e p Hu He Hp Hmail Hname).
    unfold Sign, Serverless.sign.
    destruct Hs as [Hs|Hs]; rewrite Hs; reflexivity. }
  split; [exact Er |]. rewrite Er. simpl snd.
  unfold Register, Serverless.register.
  rewrite (truthy_some u Hu), (truthy_some e He),
    (AccountFacts.truthy_length p 5 Hp).
  simpl orb. cbv iota.
  assert (Ee : or_else (Some e) "" = e)
    by (destruct e; [congruence | reflexivity]).
  assert (Ep : or_else (Some p) "" = p)
    by (destruct p; [simpl in Hp; lia | reflexivity]).
  rewrite Ee, Ep, (length_ge_ltb p 6 Hp).
  rewrite ListFacts.find_snoc.
  - simpl. now rewrite String.eqb_refl.
  - intros x Hx. apply String.eqb_neq. now apply Hmail.
Qed.

Lemma register_handler_invariant (users : Users) (req : Signup) :
  let users' := snd (register_handler JWT_SECRET jwt_sign bcrypt_hash users req) in
  map Account.id users = map Z.of_nat (seq 1 (List.length users)) ->
  NoDup (map Account.email users) -> NoDup (map Account.username users) ->
  map Account.id users' = map Z.of_nat (seq 1 (List.length users'))
  /\ NoDup (map Account.email users') /\ NoDup (map Account.username users').
Proof.
  intros users' Hid Hmail Hname. unfold users', register_handler.
  destruct (register_cases users (at_time req) (date req) (Serverless.salt req)
              (signup_username req) (signup_email req) (signup_password req))
    as [[Es _]|(u & e & p & Eu & Ee & Ep & Hu & He & Hp & Hfm & Hfn)].
  { unfold Register in Es. rewrite Es. auto. }
  rewrite Eu, Ee, Ep.
  pose proof (register_accepted users (at_time req) (date req)
                (Serverless.salt req) u e p Hu He Hp Hfm Hfn) as Er.
  unfold Register in Er. rewrite Er. clear Er.
  destruct (Sign _ (at_time req)); simpl snd;
    rewrite !map_app, length_app, seq_app, map_app; simpl;
    (split; [|split]).
  all: try (rewrite Hid; do 2 f_equal; lia).
  all: apply SetterFacts.NoDup_snoc; try assumption.
  all: intros H; apply in_map_iff in H as (x & Ex & Hx).
  all: first [now apply (Hfm x Hx) | now apply (Hfn x Hx)].
Qed.

(** X23.  The array of the serverless registration, as long as the
    module lives: whatever requests it has served, the ids of its users
    are 1, 2, 3, ... in the order of their registration, and no two
    users have the same address or the same username. *)
Theorem serverless_register_invariant (reqs : list Signup) :
  let users :=
    snd (serve (register_handler JWT_SECRET jwt_sign bcrypt_hash) loaded reqs) in
  map Account.id users = map Z.of_nat (seq 1 (List.length users))
  /\ NoDup (map Account.email users) /\ NoDup (map Account.username users).
Proof.
  assert (Hgen : forall users,
             map Account.id users = map Z.of_nat (seq 1 (List.length users)) ->
             NoDup (map Account.email users) ->
             NoDup (map Account.username users) ->
             let users' :=
               snd (serve (register_handler JWT_SECRET jwt_sign bcrypt_hash)
                          users reqs) in
             map Account.id users' = map Z.of_nat (seq 1 (List.length users'))
             /\ NoDup (map Account.email users')
             /\ NoDup (map Account.username users')).
  { induction reqs as [|req reqs IH]; intros users Hid Hm Hn; simpl; [auto |].
    destruct (register_handler_invariant users req Hid Hm Hn) as (Hid' & Hm' & Hn').
    destruct (register_handler JWT_SECRET jwt_sign bcrypt_hash users req)
      as [res users1].
    simpl in Hid', Hm', Hn'.
    specialize (IH users1 Hid' Hm' Hn').
    destruct (serve _ users1 reqs) as [sent final]. exact IH. }
  apply Hgen; constructor.
Qed.


End ServerlessFacts.

(** ** The in-memory applications *)

Section InMemoryFacts.

Variable env_JWT_SECRET : option string.
Variable jwt_encode : InMemory.Token.t -> string.
Variable jwt_decode : string -> option InMemory.Token.t.
Variable bcrypt_hash : string -> nat -> string -> string.
Variable bcrypt_compare : string -> string -> bool.

Let Register := InMemory.register env_JWT_SECRET jwt_encode bcrypt_hash.
Let Login := InMemory.login env_JWT_SECRET jwt_encode bcrypt_compare.
Let Verify := InMemory.verify env_JWT_SECRET jwt_decode.
Let Sign := InMemory.sign env_JWT_SECRET jwt_encode.

(** A registration with three non-empty fields and a new address. *)
Lemma memory_register_accepted (users : InMemory.Users) (now : Z)
    (salt u e p : string) :
  u <> "" -> e <> "" -> p <> "" ->
  (forall y, In y users -> InMemory.Account.email y <> e) ->
  let user := InMemory.Account.mk (Z.of_nat (List.length users) + 1) u e
                                  (bcrypt_hash p 10 salt) in
  Register users now salt (Some u) (Some e) (Some p)
  = (json_response
       (JObj [("user", JObj [("id", JNum (Z.of_nat (List.length users) + 1));
                             ("username", JStr u); ("email", JStr e)]);
              ("token", JStr (Sign user now))]),
     users ++ [user]).
Proof.
  intros Hu He Hp Hfree user. unfold Register, InMemory.register.
  rewrite (truthy_some u Hu), (truthy_some e He), (truthy_some p Hp).
  simpl orb. cbv iota.
  assert (Eu : or_else (Some u) "" = u)
    by (destruct u; [congruence | reflexivity]).
  assert (Ee : or_else (Some e) "" = e)
    by (destruct e; [congruence | reflexivity]).
  assert (Ep : or_else (Some p) "" = p)
    by (destruct p; [congruence | reflexivity]).
  rewrite Eu, Ee, Ep.
  assert (Ef : find (fun x => String.eqb (InMemory.Account.email x) e) users
               = None).
  { apply find_none_iff. intros y Hy. apply String.eqb_neq. now apply Hfree. }
  rewrite Ef. reflexivity.
Qed.

Lemma memory_register_cases (users : InMemory.Users) (now : Z) (salt : string)
    (username email password : option string) :
  snd (Register users now salt username email password) = users
  \/ exists u e p,
       (forall y, In y users -> InMemory.Account.email y <> e)
       /\ snd (Register users now salt username email password)
          = users ++ [InMemory.Account.mk (Z.of_nat (List.length users) + 1)
                                          u e (bcrypt_hash p 10 salt)].
Proof.
  unfold Register, InMemory.register.
  destruct (negb (JsString.truthy username) || negb (JsString.truthy email)
            || negb (JsString.truthy password)); [now left |].
  destruct (find _ users) eqn:Ef; [now left |].
  right. exists (or_else username ""), (or_else email ""), (or_else password "").
  split; [|reflexivity].
  intros y Hy. apply String.eqb_neq.
  exact (find_none _ _ Ef y Hy).
Qed.

(** X25.  The array of the in-memory application, when its
    registrations are served one after the other: the ids of its users
    are 1, 2, 3, ... in the order of their registration and no two users
    have the same address.  Usernames are not looked at. *)
Theorem memory_register_invariant
    (reqs : list (Z * string * option string * option string * option string)) :
  let users :=
    InMemory.registrations env_JWT_SECRET jwt_encode bcrypt_hash [] reqs in
  map InMemory.Account.id users = map Z.of_nat (seq 1 (List.length users))
  /\ NoDup (map InMemory.Account.email users).
Proof.
  assert (Hgen : forall users,
             map InMemory.Account.id users
             = map Z.of_nat (seq 1 (List.length users)) ->
             NoDup (map InMemory.Account.email users) ->
             let users' :=
               InMemory.registrations env_JWT_SECRET jwt_encode bcrypt_hash
                                      users reqs in
             map InMemory.Account.id users'
             = map Z.of_nat (seq 1 (List.length users'))
             /\ NoDup (map InMemory.Account.email users')).
  { induction reqs as [|[[[[now salt] username] email] password] reqs IH];
      intros users Hid Hm; simpl; [auto |].
    apply IH;
      destruct (memory_register_cases users now salt username email password)
        as [E|(u & e & p & Hfree & E)];
      unfold Register in E; rewrite E; try assumption.
    - rewrite !map_app, length_app, seq_app, map_app. simpl.
      rewrite Hid. do 2 f_equal. lia.
    - rewrite map_app. simpl. apply SetterFacts.NoDup_snoc; [exact Hm |].
      intros H. apply in_map_iff in H as (y & Ey & Hy). now apply (Hfree y Hy). }
  apply Hgen; constructor.
Qed.

(** X26.  Usernames are shared in the in-memory application: a
    registration under a name that is already the username or the
    address of a user is accepted when its address is new, and a login
    under that name is then judged on the digest of the older user: it
    is answered 401 when the password does not match that digest, and
    with the session of the older user when it does. *)
Theorem memory_username_is_shared (users : InMemory.Users)
    (x : InMemory.Account.t) (now now' : Z) (salt u e p : string) :
  find (InMemory.matches (Some u)) users = Some x ->
  u <> "" -> e <> "" -> p <> "" ->
  (forall y, In y users -> InMemory.Account.email y <> e) ->
  let r := Register users now salt (Some u) (Some e) (Some p) in
  status (fst r) = 200%Z
  /\ snd r = users ++ [InMemory.Account.mk (Z.of_nat (List.length users) + 1)
                                           u e (bcrypt_hash p 10 salt)]
  /\ Login (snd r) now' (Some u) (Some p)
     = if bcrypt_compare p (InMemory.Account.password x)
       then Some (json_response
                    (JObj [("user",
                            JObj [("id", JNum (InMemory.Account.id x));
                                  ("username",
                                   JStr (InMemory.Account.username x));
                                  ("email", JStr (InMemory.Account.email x))]);
                           ("token", JStr (Sign x now'))]))
       else Some (error_response 401 "Invalid credentials").
Proof.
  intros Hx Hu He Hp Hfree r. unfold r.
  rewrite (memory_register_accepted users now salt u e p Hu He Hp Hfree).
  simpl fst. simpl snd. split; [reflexivity |]. split; [reflexivity |].
  unfold Login, InMemory.login.
  rewrite (ListFacts.find_prefix _ users _ x Hx).
  now destruct (bcrypt_compare p (InMemory.Account.password x)).
Qed.

(** X27.  The token of the in-memory application lasts an hour: after
    a registration that is accepted, [GET /api/verify] with the token of
    the answer returns [valid: true] and the id, the address and the
    stamps of the token at every time before the issue second plus
    3600, and 401 from that second on. *)
Theorem memory_token_lasts_an_hour (users : InMemory.Users) (now now' : Z)
    (salt u e p : string) :
  u <> "" -> e <> "" -> p <> "" ->
  (forall y, In y users -> InMemory.Account.email y <> e) ->
  let id := (Z.of_nat (List.length users) + 1)%Z in
  let token := InMemory.Token.mk id e (Jwt.clock now) (Jwt.clock now + 3600)%Z
                                 (InMemory.JWT_SECRET env_JWT_SECRET) in
  let wire := jwt_encode token in
  member "token" (body (fst (Register users now salt (Some u) (Some e) (Some p))))
  = Some (JStr wire)
  /\ (jwt_decode wire = Some token ->
      JsString.has_char " " wire = false -> wire <> "" ->
      ((Jwt.clock now' < Jwt.clock now + 3600)%Z ->
       Verify now' (Some ("Bearer " ++ wire)%string)
       = json_response
           (JObj [("valid", JBool true);
                  ("user", JObj [("id", JNum id); ("email", JStr e);
                                 ("iat", JNum (Jwt.clock now));
                                 ("exp", JNum (Jwt.clock now + 3600)%Z)])]))
      /\ ((Jwt.clock now + 3600 <= Jwt.clock now')%Z ->
          Verify now' (Some ("Bearer " ++ wire)%string)
          = error_response 401 "Invalid token")).
Proof.
  intros Hu He Hp Hfree id token wire.
  rewrite (memory_register_accepted users now salt u e p Hu He Hp Hfree).
  split; [reflexivity |].
  intros Hd Hw Hne.
  assert (Hpiece : nth_error (JsString.split " " ("Bearer " ++ wire)) 1
                   = Some wire).
  { change ("Bearer " ++ wire)%string with ("Bearer" ++ String " " wire)%string.
    rewrite (StringFacts.split_word " " "Bearer" wire eq_refl).
    now rewrite (StringFacts.split_no_sep " " wire Hw). }
  assert (Hv : forall t, Verify t (Some ("Bearer " ++ wire)%string)
                         = if (Jwt.clock now + 3600 <=? Jwt.clock t)%Z
                           then error_response 401 "Invalid token"
                           else json_response
                                  (JObj [("valid", JBool true);
                                         ("user", InMemory.decoded_json token)])).
  { intros t. unfold Verify, InMemory.verify.
    change (or_else (Some ("Bearer " ++ wire)%string) "")
      with ("Bearer " ++ wire)%string.
    change (JsString.truthy (Some ("Bearer " ++ wire)%string)) with true.
    simpl negb. cbv iota. rewrite Hpiece.
    unfold InMemory.jwt_verify. rewrite (truthy_some wire Hne).
    simpl negb. cbv iota.
    assert (E : or_else (Some wire) "" = wire)
      by (destruct wire; [congruence | reflexivity]).
    rewrite E, Hd. unfold token at 1 2. cbn [InMemory.Token.key InMemory.Token.exp].
    rewrite String.eqb_refl. simpl negb. cbv iota.
    now destruct (Jwt.clock now + 3600 <=? Jwt.clock t)%Z. }
  split; intros Ht; rewrite Hv.
  - apply Z.leb_gt in Ht. now rewrite Ht.
  - apply Z.leb_le in Ht. now rewrite Ht.
Qed.


End InMemoryFacts.

(** X29.  The mock application lets in whoever names a user:
    after a registration that is accepted (three non-empty fields and
    a new address), a login with that address is answered with the very
    body of the registration, the user and the constant token, whatever
    password is sent and also without one, provided no older user has
    that address as username. *)
Theorem mock_login_needs_no_password (users : Mock.Users) (u e p : string)
    (password : option string) :
  u <> "" -> e <> "" -> p <> "" ->
  (forall y, In y users -> Mock.Account.email y <> e) ->
  (forall y, In y users -> Mock.Account.username y <> e) ->
  let r := Mock.register users (Some u) (Some e) (Some p) in
  r = (Mock.session (Mock.Account.mk (Z.of_nat (List.length users) + 1) u e),
       users ++ [Mock.Account.mk (Z.of_nat (List.length users) + 1) u e])
  /\ Mock.login (snd r) (Some e) password = fst r.
Proof.
  intros Hu He Hp Hmail Hname r.
  assert (Er : r = (Mock.session
                      (Mock.Account.mk (Z.of_nat (List.length users) + 1) u e),
                    users ++ [Mock.Account.mk (Z.of_nat (List.length users) + 1)
                                              u e])).
  { unfold r, Mock.register.
    rewrite (truthy_some u Hu), (truthy_some e He), (truthy_some p Hp).
    simpl orb. cbv iota.
    assert (Eu : or_else (Some u) "" = u)
      by (destruct u; [congruence | reflexivity]).
    assert (Ee : or_else (Some e) "" = e)
      by (destruct e; [congruence | reflexivity]).
    rewrite Eu, Ee.
    assert (Ef : find (fun x => String.eqb (Mock.Account.email x) e) users = None).
    { apply find_none_iff. intros y Hy. apply String.eqb_neq. now apply Hmail. }
    now rewrite Ef. }
  split; [exact Er |]. rewrite Er. simpl fst. simpl snd.
  unfold Mock.login. rewrite ListFacts.find_snoc.
  - unfold Mock.matches. simpl. now rewrite String.eqb_refl.
  - intros y Hy. unfold Mock.matches. apply orb_false_iff.
    split; apply String.eqb_neq; [now apply Hmail | now apply Hname].
Qed.

(** * The theorems on concrete requests *)


(** [Basic a1] is let through as [Bearer a1] is, and [Bearer] alone gets
    the 401. *)
Lemma auth_scheme_not_checked_witness :
  JsString.has_char " " "Basic" = false
  /\ Demo.gate [Demo.alice] 0 (Some "Basic a1")
     = Demo.gate [Demo.alice] 0 (Some "Bearer a1")
  /\ Demo.gate [Demo.alice] 0 (Some "Basic a1") = Next Demo.alice
  /\ Demo.gate [Demo.alice] 0 (Some "Bearer")
     = Rejected (error_response 401 "Access token required").
Proof.
  split; [reflexivity |].
  split; [|split].
  - apply (proj1 (auth_scheme_not_checked None Demo.decode [Demo.alice] 0)
             "Basic" "a1"). reflexivity.
  - apply (proj1 (proj2 (auth_scheme_not_checked None Demo.decode [Demo.alice] 0))
             "Basic" "a1" (Jwt.mkPayload (Some "a1") 0 None) Demo.alice);
      [reflexivity | reflexivity | discriminate | reflexivity | reflexivity].
  - apply (proj2 (proj2 (auth_scheme_not_checked None Demo.decode [Demo.alice] 0))
             "Bearer"). reflexivity.
Defined.

(** A token issued to [alice] at time 0 is good six days later and
    expired eight days later. *)
Lemma token_lifetime_seven_days_witness :
  let decode := fun _ : string => Some (issue_token None Demo.alice 0) in
  decode "wire" = Some (issue_token None Demo.alice 0)
  /\ Jwt.verify decode "wire" (secret None) (0 + 6 * 86400000)
     = inr (Jwt.claims (issue_token None Demo.alice 0))
  /\ Jwt.verify decode "wire" (secret None) (0 + 8 * 86400000)
     = inl Jwt.TokenExpiredError.
Proof.
  intros decode. split; [reflexivity |].
  pose proof (token_lifetime_seven_days None decode Demo.alice 0 0 "wire" eq_refl)
    as H.
  split; [apply H | apply H].
Defined.

(** C3, as stated, fails on the code: a token is already refused at
    [T + 7 days], and when [T] is not on a whole second, up to a second
    before that. *)
Lemma token_expired_by_seven_days :
  (let decode := fun _ : string => Some (issue_token None Demo.alice 0) in
   Jwt.verify decode "wire" (secret None) (0 + 7 * 86400000)
   = inl Jwt.TokenExpiredError)
  /\ (let decode := fun _ : string => Some (issue_token None Demo.alice 999) in
      (604800000 < 999 + 7 * 86400000)%Z
      /\ Jwt.verify decode "wire" (secret None) 604800000
         = inl Jwt.TokenExpiredError)
  /\ ~ (forall T t : Z,
          (T <= t <= T + 7 * 86400000)%Z ->
          Jwt.verify (fun _ => Some (issue_token None Demo.alice T)) "wire"
                     (secret None) t
          = inr (Jwt.claims (issue_token None Demo.alice T))).
Proof.
  split; [reflexivity |]. split; [split; [lia | reflexivity] |].
  intros H. specialize (H 0%Z 604800000%Z ltac:(lia)). discriminate H.
Qed.



Lemma alice_well_stored : forall y, In y [Demo.alice] -> well_stored y.
Proof. intros y [<-|[]]. repeat split. Qed.


(** The handler looks at the one document the lookup returns: when the
    address is that of one user and the username that of another, the
    message names the field of the document found first. *)
Example register_reports_the_document_found :
  fst (Demo.signup [Demo.alice; Demo.bob] 0 "c3" "salt" (Some "bob")
                   (Some "alice@example.com") (Some "secret1"))
  = error_response 400 "Email already exists"
  /\ fst (Demo.signup [Demo.bob; Demo.alice] 0 "c3" "salt" (Some "bob")
                      (Some "alice@example.com") (Some "secret1"))
     = error_response 400 "Username already exists".
Proof. split; reflexivity. Qed.

(** On the store that holds [alice]: registering [Alice@Example.COM] as
    [carol] is refused as a duplicate, and the store is left alone. *)
Lemma email_uniqueness_ignores_case_witness :
  In Demo.alice [Demo.alice]
  /\ JsString.toLowerCase "Alice@Example.COM" = User.email Demo.alice
  /\ snd (Demo.signup [Demo.alice] 0 "c3" "salt" (Some "carol")
                      (Some "Alice@Example.COM") (Some "secret1"))
     = [Demo.alice]
  /\ is_duplicate_error
       (fst (Demo.signup [Demo.alice] 0 "c3" "salt" (Some "carol")
                         (Some "Alice@Example.COM") (Some "secret1"))).
Proof.
  pose proof (email_uniqueness_ignores_case None Demo.encode Demo.hash true
                [Demo.alice] 0 "c3" "salt" (Some "carol") (Some "secret1")
                "Alice@Example.COM" Demo.alice (or_introl eq_refl) eq_refl)
    as (Hstore & _ & Hdup & _).
  split; [now left |]. split; [reflexivity |]. split; [exact Hstore |].
  apply (Hdup "carol" "secret1");
    [reflexivity | reflexivity | simpl; lia | discriminate | reflexivity
     | simpl; lia | simpl; lia | reflexivity].
Defined.



(** The answer to the registration of [alice] carries her projection and
    no member [password]; and [/api/verify] answers her the same when her
    digest is replaced. *)
Lemma responses_never_expose_password_witness :
  let res := fst (Demo.handlers [] 0
                    (PostRegister "a1" "salt" (Some "alice")
                                  (Some "alice@example.com") (Some "secret1"))) in
  status res = 201%Z
  /\ mentions_key "password" (body res) = false
  /\ (exists user,
        body res
        = JObj [("message", JStr "User created successfully");
                ("token", JStr (Demo.encode (issue_token None user 0)));
                ("user", public_user user)])
  /\ fst (Demo.handlers (rehash (fun _ => "other") [Demo.alice]) 0
                        (GetVerify (Some "Bearer a1")))
     = fst (Demo.handlers [Demo.alice] 0 (GetVerify (Some "Bearer a1"))).
Proof.
  intros res.
  pose proof (responses_never_expose_password None Demo.encode Demo.decode
                Demo.hash Demo.compare true [] 0
                (PostRegister "a1" "salt" (Some "alice")
                              (Some "alice@example.com") (Some "secret1")))
    as (_ & Hkey & Hshape & _).
  pose proof (responses_never_expose_password None Demo.encode Demo.decode
                Demo.hash Demo.compare true [Demo.alice] 0
                (GetVerify (Some "Bearer a1")))
    as (_ & _ & _ & Hsame).
  split; [reflexivity |]. split; [exact Hkey |]. split.
  - destruct (Hshape eq_refl) as (user & _ & Hbody). exists user. exact Hbody.
  - apply (Hsame (fun _ => "other") I).
Defined.


(** * The further properties on concrete requests *)

(** [alice@example.com] is accepted, holds one [@], and is accepted in
    capitals as well. *)
Lemma email_pattern_meaning_witness :
  isValidEmail "alice@example.com" = true
  /\ count_char "@" "alice@example.com" = 1
  /\ isValidEmail (JsString.toLowerCase "ALICE@Example.COM")
     = isValidEmail "ALICE@Example.COM".
Proof.
  split; [reflexivity |]. split.
  - apply (proj1 (proj2 (email_pattern_meaning "alice@example.com"))).
    reflexivity.
  - apply (proj2 (proj2 (email_pattern_meaning "ALICE@Example.COM"))).
Defined.

(** After [bob] has registered and [alice] has changed her books, the id
    of [alice] still finds her username, address and digest. *)
Lemma accounts_are_permanent_witness :
  findById [Demo.alice] (Some "a1") = Some Demo.alice
  /\ exists u',
       findById (Demo.server [Demo.alice] Sample.requests) (Some "a1") = Some u'
       /\ User._id u' = "a1" /\ User.username u' = "alice"
       /\ User.email u' = "alice@example.com"
       /\ User.password u' = "$2a$10$secret1".
Proof.
  split; [reflexivity |].
  apply (proj2 (accounts_are_permanent None Demo.encode Demo.decode Demo.hash
                  Demo.compare true [Demo.alice] Sample.requests)
           "a1" Demo.alice).
  reflexivity.
Defined.

(** The token of [alice] is let through before and after the requests
    of [Sample.requests]. *)
Lemma sessions_outlive_requests_witness :
  Demo.gate [Demo.alice] 0 (Some "Bearer a1") = Next Demo.alice
  /\ exists user',
       Demo.gate (Demo.server [Demo.alice] Sample.requests) 0 (Some "Bearer a1")
       = Next user'
       /\ identity user' = identity Demo.alice.
Proof.
  split; [reflexivity |].
  apply (sessions_outlive_requests None Demo.encode Demo.decode Demo.hash
           Demo.compare true [Demo.alice] 0 (Some "Bearer a1") Demo.alice
           Sample.requests).
  reflexivity.
Defined.

(** [alice] sends a wish list; the id of [bob] finds his document as it
    was. *)
Lemma put_books_touches_one_user_witness :
  Demo.gate [Demo.alice; Demo.bob] 0 (Some "Bearer a1") = Next Demo.alice
  /\ findById
       (snd (Demo.handlers [Demo.alice; Demo.bob] 0
               (PutBooks (Some "Bearer a1")
                         (BooksObject (Books.mk None None (Some [Demo.dune]))))))
       (Some "b2")
     = Some Demo.bob.
Proof.
  split; [reflexivity |].
  etransitivity; [|reflexivity].
  apply (proj1 (put_books_touches_one_user None Demo.encode Demo.decode
                  Demo.hash Demo.compare true [Demo.alice; Demo.bob] 0
                  (Some "Bearer a1") Demo.alice
                  (BooksObject (Books.mk None None (Some [Demo.dune])))
                  eq_refl)
           "b2").
  discriminate.
Defined.

(** The registration of [alice] changes the empty store and is answered
    201. *)
Lemma store_changes_only_on_success_witness :
  let req := PostRegister "a1" "salt" (Some "alice") (Some "alice@example.com")
                          (Some "secret1") in
  snd (Demo.handlers [] 0 req) <> []
  /\ ((exists oid salt u e p,
          req = PostRegister oid salt (Some u) (Some e) (Some p)
          /\ status (fst (Demo.handlers [] 0 req)) = 201%Z)
      \/ (exists authorization b,
            req = PutBooks authorization (BooksObject b)
            /\ status (fst (Demo.handlers [] 0 req)) = 200%Z)).
Proof.
  intros req.
  assert (H : snd (Demo.handlers [] 0 req) <> []) by discriminate.
  split; [exact H |].
  exact (store_changes_only_on_success None Demo.encode Demo.decode Demo.hash
           Demo.compare true [] 0 req H).
Defined.

(** [alice] registers at time 0 and comes back with her token five
    seconds later. *)
Lemma register_then_authenticated_witness :
  status (fst (Demo.signup [] 0 "a1" "salt" (Some "alice")
                           (Some "alice@example.com") (Some "secret1")))
  = 201%Z
  /\ handle None Demo.encode Sample.decode_alice Demo.hash Demo.compare true
            [Demo.alice] 5000 (GetVerify (Some "Bearer a1"))
     = (json_response (JObj [("user", public_user Demo.alice)]), [Demo.alice]).
Proof.
  split; [reflexivity |].
  destruct (register_then_authenticated None Demo.encode Sample.decode_alice
              Demo.hash Demo.compare true [] 0 5000 "a1" "salt" (Some "alice")
              (Some "alice@example.com") (Some "secret1") eq_refl)
    as (doc & wire & Hs & Hb & H).
  injection Hs as <-. injection Hb as <-.
  apply (H eq_refl eq_refl ltac:(discriminate) ltac:(reflexivity)).
Defined.

(** [alice] logs in at time 0 and comes back with her token five
    seconds later. *)
Lemma login_then_authenticated_witness :
  status (login None Demo.encode Demo.compare true [Demo.alice] 0
                (Some "alice") (Some "secret1")) = 200%Z
  /\ authenticateToken None Sample.decode_alice [Demo.alice] 5000
                       (Some "Bearer a1")
     = Next Demo.alice.
Proof.
  split; [reflexivity |].
  destruct (login_then_authenticated None Demo.encode Sample.decode_alice
              Demo.compare true [Demo.alice] 0 5000 (Some "alice")
              (Some "secret1") eq_refl)
    as (user & wire & Hin & Hb & H).
  destruct Hin as [<-|[]]. injection Hb as <-.
  apply (H eq_refl eq_refl ltac:(discriminate) ltac:(reflexivity)).
  repeat constructor. intros [].
Defined.

(** With no [JWT_SECRET], a token for the id of [alice] signed with
    ['your-secret-key'] and without expiry is let through. *)
Lemma default_secret_is_public_witness :
  secret None = "your-secret-key"
  /\ Demo.gate [Demo.alice] 1000000000 (Some "Bearer a1") = Next Demo.alice.
Proof.
  pose proof (default_secret_is_public None Demo.decode [Demo.alice] 1000000000
                "a1" (Jwt.mk (Jwt.mkPayload (Some "a1") 0 None) "your-secret-key")
                Demo.alice (or_introl eq_refl)) as (Hs & _ & Hg).
  split; [exact Hs |].
  apply Hg; first [reflexivity | discriminate | exact I].
Defined.

(** [Bearer  a1], with two spaces, is answered 401; [Bearer a1 again] is
    treated as [Bearer a1]. *)
Lemma auth_header_pieces_witness :
  Demo.gate [Demo.alice] 0 (Some "Bearer  a1")
  = Rejected (error_response 401 "Access token required")
  /\ Demo.gate [Demo.alice] 0 (Some "Bearer a1 again")
     = Demo.gate [Demo.alice] 0 (Some "Bearer a1").
Proof.
  split.
  - apply (proj1 (auth_header_pieces None Demo.decode [Demo.alice] 0)
             "Bearer" "a1"). reflexivity.
  - apply (proj2 (auth_header_pieces None Demo.decode [Demo.alice] 0)
             "Bearer" "a1" "again"); reflexivity.
Defined.

(** A registration as [ al] with the address [Al@Example.com] stores
    [al] and [al@example.com]. *)
Lemma register_stores_normalised_witness :
  snd (Demo.signup [] 0 "a1" "salt" (Some " al") (Some "Al@Example.com")
                   (Some "secret1"))
  = [User.mk "a1" "al" "al@example.com" "$2a$10$secret1" Books.empty].
Proof.
  destruct (register_stores_normalised None Demo.encode Demo.hash true [] 0
              "a1" "salt" (Some " al") (Some "Al@Example.com") (Some "secret1")
              eq_refl)
    as (u & e & p & Eu & Ee & Ep & Hs & _).
  injection Eu as <-. injection Ee as <-. injection Ep as <-. exact Hs.
Defined.

(** [alice] registers and then logs in with her address. *)
Lemma register_then_login_witness :
  status (fst (Demo.signup [] 0 "a1" "salt" (Some "alice")
                           (Some "alice@example.com") (Some "secret1")))
  = 201%Z
  /\ login None Demo.encode Demo.compare true [Demo.alice] 7000
           (Some "alice@example.com") (Some "secret1")
     = json_response
         (JObj [("message", JStr "Login successful");
                ("token", JStr "a1");
                ("user", public_user Demo.alice)]).
Proof.
  split; [reflexivity |].
  apply (proj1 (proj2 (register_then_login None Demo.encode Demo.hash
                         Demo.compare true [] 0 7000 "a1" "salt" "alice"
                         "alice@example.com" "secret1" eq_refl eq_refl))).
  intros x [].
Defined.

(** [mallory] has taken the address of [bob] as her username before
    [bob] registered: [bob] cannot log in with his address and his
    password. *)
Lemma login_judges_first_match_witness :
  Demo.server [] Sample.squatting = [Sample.mallory; Demo.bob]
  /\ Demo.compare "hunter22" (User.password Demo.bob) = true
  /\ login None Demo.encode Demo.compare true [Sample.mallory; Demo.bob] 2000
           (Some "bob@example.com") (Some "hunter22")
     = error_response 400 "Invalid credentials".
Proof.
  split; [reflexivity |]. split; [reflexivity |].
  apply (proj2 (login_judges_first_match None Demo.encode Demo.compare true
                  [] [Demo.bob] Sample.mallory Demo.bob 2000 "bob@example.com"
                  "hunter22"
                  (run_store_ok None Demo.encode Demo.decode Demo.hash
                     Demo.compare true Sample.squatting)
                  (or_introl eq_refl)
                  (or_introl (conj eq_refl eq_refl))
                  ltac:(discriminate))).
  reflexivity.
Defined.


(** A registration with three spaces as the username is answered 500. *)
Lemma register_blank_username_witness :
  fst (Demo.signup [Demo.alice] 0 "c3" "salt" (Some "   ")
                   (Some "carol@example.com") (Some "secret1"))
  = error_response 500 "Server error during registration"
  /\ snd (Demo.signup [Demo.alice] 0 "c3" "salt" (Some "   ")
                      (Some "carol@example.com") (Some "secret1"))
     = [Demo.alice].
Proof.
  pose proof (register_blank_username None Demo.encode Demo.hash true
                [Demo.alice] 0 "c3" "salt" "   " "carol@example.com" "secret1"
                ltac:(simpl; lia) eq_refl eq_refl ltac:(simpl; lia)
                alice_well_stored) as (Hs & _ & Hr).
  split; [|exact Hs].
  apply Hr. intros x [<-|[]]. discriminate.
Defined.

(** [alice] asks for a summary of Dune: the provider is called when the
    key is set, and nobody is called without a token. *)
Lemma ai_summary_outcomes_witness :
  post_ai_summary None Demo.decode (Some "KEY") [Demo.alice] 0
                  (Some "Bearer a1") (Some "Dune") (Some "Frank Herbert")
  = Fetch (mkUpstreamCall
             (generateContent "KEY")
             (JObj [("contents",
                     chatHistory (summary_prompt "Dune" "Frank Herbert"))]))
  /\ post_ai_summary None Demo.decode (Some "KEY") [Demo.alice] 0
                     None (Some "Dune") (Some "Frank Herbert")
     = Answered (error_response 401 "Access token required").
Proof.
  split.
  - apply (proj2 (proj1 (proj2 (ai_summary_outcomes None Demo.decode (Some "KEY")
                                  [Demo.alice] 0 (Some "Bearer a1")
                                  (Some "Dune") (Some "Frank Herbert")))
                    Demo.alice eq_refl)
             "Dune" "Frank Herbert" eq_refl eq_refl
             ltac:(discriminate) ltac:(discriminate));
      [reflexivity | discriminate].
  - apply (proj1 (ai_summary_outcomes None Demo.decode (Some "KEY")
                    [Demo.alice] 0 None (Some "Dune") (Some "Frank Herbert"))).
    reflexivity.
Defined.

(** [alice] asks for recommendations without a genre, and with a genre
    when no key is set. *)
Lemma ai_recommendations_outcomes_witness :
  post_ai_recommendations None Demo.decode None [Demo.alice] 0
                          (Some "Bearer a1") "0.5" None
  = Answered (error_response 400 "Genre is required")
  /\ post_ai_recommendations None Demo.decode None [Demo.alice] 0
                             (Some "Bearer a1") "0.5" (Some "Fantasy")
     = Answered (error_response 500 "AI service is not configured").
Proof.
  split.
  - apply (proj1 (proj1 (proj2 (ai_recommendations_outcomes None Demo.decode None
                                  [Demo.alice] 0 (Some "Bearer a1") "0.5" None))
                    Demo.alice eq_refl)).
    now left.
  - apply (proj1 (proj2 (proj1 (proj2 (ai_recommendations_outcomes
                                         None Demo.decode None [Demo.alice] 0
                                         (Some "Bearer a1") "0.5"
                                         (Some "Fantasy")))
                           Demo.alice eq_refl)
                    "Fantasy" eq_refl ltac:(discriminate))).
    now left.
Defined.


(** Without a secret the registration of [alice] is answered 500 and
    kept, and her second attempt is answered 400. *)
Lemma serverless_register_without_secret_witness :
  let r := Serverless.register None Sample.sign_wire Demo.hash [] 0
             "2024-01-01T00:00:00.000Z" "salt" (Some "alice")
             (Some "alice@example.com") (Some "secret1") in
  fst r = error_response 500 "Internal server error"
  /\ List.length (snd r) = 1
  /\ fst (Serverless.register None Sample.sign_wire Demo.hash (snd r) 9
            "2024-01-02T00:00:00.000Z" "pepper" (Some "alice")
            (Some "alice@example.com") (Some "secret1"))
     = error_response 400 "Email already registered".
Proof.
  intros r.
  destruct (serverless_register_without_secret None Sample.sign_wire Demo.hash
              [] 0 9 "2024-01-01T00:00:00.000Z" "2024-01-02T00:00:00.000Z"
              "salt" "pepper" "alice" "alice@example.com" "secret1"
              (or_introl eq_refl) ltac:(discriminate) ltac:(discriminate)
              ltac:(simpl; lia) ltac:(intros x []) ltac:(intros x []))
    as [Er Eagain].
  fold r in Er, Eagain. rewrite Eagain. rewrite Er. repeat split.
Defined.

(** [alice] puts a wish list: her books change, and the request is her
    own [PUT]. *)
Lemma books_change_only_by_owner_witness :
  let wishes := Books.mk None None (Some [Demo.dune]) in
  let req := PutBooks (Some "Bearer a1") (BooksObject wishes) in
  findById (snd (Demo.handlers [Demo.alice; Demo.bob] 0 req)) (Some "a1")
  = Some (User.set_books wishes Demo.alice)
  /\ exists authorization b user,
       req = PutBooks authorization (BooksObject b)
       /\ Demo.gate [Demo.alice; Demo.bob] 0 authorization = Next user
       /\ User._id user = "a1" /\ wishes = b.
Proof.
  intros wishes req. split; [reflexivity |].
  apply (books_change_only_by_owner None Demo.encode Demo.decode Demo.hash
           Demo.compare true [Demo.alice; Demo.bob] 0 req "a1" Demo.alice
           (User.set_books wishes Demo.alice) eq_refl eq_refl).
  discriminate.
Defined.

(** The token [alice] got at time 0 is answered 403 seven days later. *)
Lemma expired_session_rejected_witness :
  authenticateToken None Sample.decode_alice [Demo.alice] (7 * 86400000)
                    (Some "Bearer a1")
  = Rejected (error_response 403 "Invalid or expired token").
Proof.
  apply (expired_session_rejected None Sample.decode_alice [Demo.alice]
           Demo.alice 0 (7 * 86400000) "a1" eq_refl eq_refl);
    [discriminate | vm_compute; discriminate].
Defined.

(** [ann] goes by [sam]; a second [sam] registers, and his login as [sam]
    with his own password is answered 401. *)
Lemma memory_username_is_shared_witness :
  let r := InMemory.register None Sample.encode_first Demo.hash [Sample.ann] 0
             "salt" (Some "sam") (Some "sam@example.com") (Some "hunter22") in
  status (fst r) = 200%Z
  /\ InMemory.login None Sample.encode_first Demo.compare (snd r) 9 (Some "sam")
                    (Some "hunter22")
     = Some (error_response 401 "Invalid credentials").
Proof.
  intros r.
  destruct (memory_username_is_shared None Sample.encode_first Demo.hash Demo.compare
              [Sample.ann] Sample.ann 0 9 "salt" "sam" "sam@example.com"
              "hunter22" eq_refl ltac:(discriminate) ltac:(discriminate)
              ltac:(discriminate)
              ltac:(intros y [<-|[]]; discriminate))
    as (H200 & _ & Hlogin).
  split; [exact H200 |]. exact Hlogin.
Defined.

(** The token [alice] gets at time 0 is good after 59 minutes and
    refused after an hour. *)
Lemma memory_token_lasts_an_hour_witness :
  InMemory.verify None Sample.decode_first (59 * 60000) (Some "Bearer wire")
  = json_response
      (JObj [("valid", JBool true);
             ("user", JObj [("id", JNum 1); ("email", JStr "alice@example.com");
                            ("iat", JNum 0); ("exp", JNum 3600)])])
  /\ InMemory.verify None Sample.decode_first (60 * 60000) (Some "Bearer wire")
     = error_response 401 "Invalid token".
Proof.
  pose proof (fun now' =>
                proj2 (memory_token_lasts_an_hour None Sample.encode_first
                         Sample.decode_first Demo.hash [] 0 now' "salt" "alice"
                         "alice@example.com" "secret1" ltac:(discriminate)
                         ltac:(discriminate) ltac:(discriminate)
                         ltac:(intros y []))
                      eq_refl eq_refl ltac:(discriminate)) as H.
  split.
  - apply (proj1 (H (59 * 60000)%Z)). reflexivity.
  - apply (proj2 (H (60 * 60000)%Z)). discriminate.
Defined.


(** [alice] registers with the mock application and logs in with another
    password. *)
Lemma mock_login_needs_no_password_witness :
  Mock.login (snd (Mock.register [] (Some "alice") (Some "alice@example.com")
                                 (Some "secret1")))
             (Some "alice@example.com") (Some "wrong")
  = fst (Mock.register [] (Some "alice") (Some "alice@example.com")
                       (Some "secret1")).
Proof.
  apply (mock_login_needs_no_password [] "alice" "alice@example.com" "secret1"
           (Some "wrong"));
    try discriminate; intros y [].
Defined.
